(** * Blackjack rooms: a shallow embedding of the Card-Games backend

    The development follows [blackjack-game/backend]:
    - [enum.py]        the [Suit] and [Rank] enumerations;
    - [logic_game.py]  [Card], [Player] (hand and soft-ace score) and [Game]
                       (deck, dealing, the win ladder);
    - [app/main.py]    [PlayerSeat], [Room] and [RoomManager] (the room and
                       turn state machine, and the [get_state] projection).

    Python objects are records; a method that mutates [self] is a computation
    in a state-and-exception monad; the two sources of randomness
    ([random.shuffle] and [uuid.uuid4]) are read from an explicit entropy
    record carried by the state. *)

From Stdlib Require Import ZArith Lia Ascii String.
From stdpp Require Import base option list gmap strings pretty.

Local Open Scope string_scope.
Local Open Scope list_scope.
Local Open Scope Z_scope.

(** ** Exceptions and the state-and-exception monad *)

(** The exceptions the backend can raise.  [HTTPException] is FastAPI's, the
    others are Python built-ins.  [FuelExhausted] belongs to the model only: it
    marks a [while] loop that has used up the iteration bound given to it. *)
Inductive exn : Type :=
  | HTTPException (status_code : Z) (detail : string)
  | ValueError (msg : string)
  | IndexError
  | AttributeError
  | FuelExhausted.

Inductive res (A : Type) : Type :=
  | Ok (a : A)
  | Raise (e : exn).
Arguments Ok {A} a.
Arguments Raise {A} e.

(** A computation over a mutable state [S]: it yields a value or raises, and in
    both cases hands back the state as mutated so far (a Python exception does
    not roll anything back). *)
Definition M (S A : Type) : Type := S → res A * S.

Definition ret {S A} (a : A) : M S A := λ s, (Ok a, s).
Definition raise {S A} (e : exn) : M S A := λ s, (Raise e, s).
Definition bind {S A B} (c : M S A) (k : A → M S B) : M S B :=
  λ s, match c s with
       | (Ok a, s') => k a s'
       | (Raise e, s') => (Raise e, s')
       end.
Definition get {S} : M S S := λ s, (Ok s, s).
Definition modify {S} (f : S → S) : M S unit := λ s, (Ok tt, f s).
Definition lift {S A} (r : res A) : M S A := λ s, (r, s).

(** Run a computation on a component [T] of the state [S]. *)
Definition zoom {S T A} (rd : S → T) (wr : T → S → S) (c : M T A) : M S A :=
  λ s, let '(r, t) := c (rd s) in (r, wr t s).

Notation "'do' x <- c ; k" := (bind c (λ x, k))
  (at level 10, x name, c at level 100, k at level 200).
Notation "'do' ' p <- c ; k" := (bind c (λ x, match x with p => k end))
  (at level 10, p pattern, c at level 100, k at level 200).
Notation "c ;; k" := (bind c (λ _, k))
  (at level 100, k at level 200, right associativity).

(** [for x in xs: body x]. *)
Fixpoint for_each {S A} (xs : list A) (body : A → M S unit) : M S unit :=
  match xs with
  | [] => ret tt
  | x :: xs' => body x ;; for_each xs' body
  end.

(** Binding in [res] alone, for code that reads but does not mutate. *)
Definition rbind {A B} (r : res A) (k : A → res B) : res B :=
  match r with Ok a => k a | Raise e => Raise e end.
Notation "'val' x <- r ; k" := (rbind r (λ x, k))
  (at level 10, x name, r at level 100, k at level 200).

(** ** Python built-ins used by the backend *)

(** [l[i]] for a non-negative index. *)
Definition index {A} (l : list A) (i : nat) : res A :=
  match l !! i with Some x => Ok x | None => Raise IndexError end.

(** [max(l)] and [min(l)] on integers; both raise [ValueError] on []. *)
Definition py_max (l : list Z) : res Z :=
  match l with
  | [] => Raise (ValueError "max() arg is an empty sequence")
  | x :: l' => Ok (foldl Z.max x l')
  end.
Definition py_min (l : list Z) : res Z :=
  match l with
  | [] => Raise (ValueError "min() arg is an empty sequence")
  | x :: l' => Ok (foldl Z.min x l')
  end.

(** Text is UTF-8: a Python [str] is the string of the bytes that encode it,
    which is also how Rocq reads its own string literals.

    [str.lower] and [str.upper] on the letters A to Z and a to z, every other
    byte left as it is.  That is the whole of the method on ASCII text, which
    is what the suit names and the hexadecimal identifiers are.  On a
    caller's action Python lowers cased letters beyond ASCII as well, but the
    result is only compared with the literals "hit" and "stand", and no
    character beyond ASCII has one of their letters as its lower case (the
    only lower cases with an ASCII letter in them are U+212A, which gives
    "k", and U+0130, which gives "i" followed by U+0307); so the comparison
    comes out the same. *)
Definition lower_ascii (c : ascii) : ascii :=
  let n := N_of_ascii c in
  if ((65 <=? n) && (n <=? 90))%N then ascii_of_N (n + 32) else c.
Definition upper_ascii (c : ascii) : ascii :=
  let n := N_of_ascii c in
  if ((97 <=? n) && (n <=? 122))%N then ascii_of_N (n - 32) else c.
Fixpoint map_string (f : ascii → ascii) (s : string) : string :=
  match s with
  | EmptyString => EmptyString
  | String c s' => String (f c) (map_string f s')
  end.
Definition py_lower : string → string := map_string lower_ascii.
Definition py_upper : string → string := map_string upper_ascii.

(** [str.isspace] of one character, given by the one, two or three bytes that
    encode it.  The characters are U+0009 to U+000D, U+001C to U+0020; U+0085
    and U+00A0; U+1680, U+2000 to U+200A, U+2028, U+2029, U+202F, U+205F and
    U+3000.  No character of four bytes is a space. *)
Definition isspace1 (a : N) : bool :=
  (((9 <=? a) && (a <=? 13)) || ((28 <=? a) && (a <=? 32)))%N.
Definition isspace2 (a b : N) : bool :=
  ((a =? 194) && ((b =? 133) || (b =? 160)))%N.
Definition isspace3 (a b c : N) : bool :=
  (((a =? 225) && (b =? 154) && (c =? 128))
   || ((a =? 226) && (b =? 128)
       && (((128 <=? c) && (c <=? 138)) || (c =? 168) || (c =? 169) || (c =? 175)))
   || ((a =? 226) && (b =? 129) && (c =? 159))
   || ((a =? 227) && (b =? 128) && (c =? 128)))%N.

(** Drop the space characters a string starts with.  With [backwards] the
    string is one that was reversed byte by byte, so that the bytes of each
    character come last byte first.  A first byte of a character is never a
    later byte of another, so the bytes matched at either end are one whole
    character. *)
Fixpoint lstrip (backwards : bool) (s : string) : string :=
  match s with
  | EmptyString => s
  | String a s1 =>
      if isspace1 (N_of_ascii a) then lstrip backwards s1
      else
        match s1 with
        | EmptyString => s
        | String b s2 =>
            if (if backwards then isspace2 (N_of_ascii b) (N_of_ascii a)
                else isspace2 (N_of_ascii a) (N_of_ascii b))
            then lstrip backwards s2
            else
              match s2 with
              | EmptyString => s
              | String c s3 =>
                  if (if backwards
                      then isspace3 (N_of_ascii c) (N_of_ascii b) (N_of_ascii a)
                      else isspace3 (N_of_ascii a) (N_of_ascii b) (N_of_ascii c))
                  then lstrip backwards s3
                  else s
              end
        end
  end.

(** [str.strip()]: drop the space characters at both ends. *)
Definition py_strip (s : string) : string :=
  String.rev (lstrip true (String.rev (lstrip false s))).

(** [s[:n]], on ASCII text (the identifiers are hexadecimal digits). *)
Definition py_prefix (n : nat) (s : string) : string := substring 0 n s.

(** [int(s)] on an unsigned decimal literal; anything else is a [ValueError]. *)
Fixpoint int_digits (acc : Z) (s : string) : res Z :=
  match s with
  | EmptyString => Ok acc
  | String c s' =>
      match Ascii.is_nat c with
      | Some d => int_digits (10 * acc + Z.of_nat d) s'
      | None => Raise (ValueError "invalid literal for int()")
      end
  end.
Definition py_int (s : string) : res Z :=
  match s with
  | EmptyString => Raise (ValueError "invalid literal for int()")
  | _ => int_digits 0 s
  end.

(** ** Entropy: [random.shuffle] and [uuid.uuid4]

    The [k]-th shuffle of the process is driven by [shuffle_picks k] and the
    [k]-th UUID is [uuid_hex k] (its 32-digit hex form); the counters say how
    many of each have been consumed.  Every theorem quantifies over the whole
    record, so nothing is assumed about what the random sources produce. *)
Record Entropy : Type := {
  shuffle_picks : nat → list nat;
  shuffles_used : nat;
  uuid_hex : nat → string;
  uuids_used : nat
}.

(** A shuffle as a sequence of insertions: the head goes into the shuffled
    tail at the position the next pick names.  Every pick list gives a
    permutation and every permutation is given by some pick list. *)
Fixpoint insert_at {A} (k : nat) (x : A) (l : list A) : list A :=
  match k, l with
  | S k', y :: l' => y :: insert_at k' x l'
  | _, _ => x :: l
  end.
Fixpoint shuffle_by {A} (picks : list nat) (l : list A) : list A :=
  match l with
  | [] => []
  | x :: l' =>
      insert_at (hd 0%nat picks `mod` S (length l'))%nat x
                (shuffle_by (tl picks) l')
  end.

(** [random.shuffle(l)]: in place in Python, here it returns the new list. *)
Definition random_shuffle {A} (l : list A) : M Entropy (list A) :=
  λ e, (Ok (shuffle_by (shuffle_picks e (shuffles_used e)) l),
        {| shuffle_picks := shuffle_picks e;
           shuffles_used := S (shuffles_used e);
           uuid_hex := uuid_hex e;
           uuids_used := uuids_used e |}).

(** [uuid.uuid4().hex]. *)
Definition uuid4_hex : M Entropy string :=
  λ e, (Ok (uuid_hex e (uuids_used e)),
        {| shuffle_picks := shuffle_picks e;
           shuffles_used := shuffles_used e;
           uuid_hex := uuid_hex e;
           uuids_used := S (uuids_used e) |}).

(** ** [enum.py]: suits and ranks *)

Inductive Suit : Type := HEARTS | DIAMONDS | CLUBS | SPADES.
Inductive Rank : Type :=
  | TWO | THREE | FOUR | FIVE | SIX | SEVEN | EIGHT | NINE | TEN
  | JACK | QUEEN | KING | ACE.

#[global] Instance Suit_eq_dec : EqDecision Suit.
Proof. solve_decision. Defined.
#[global] Instance Rank_eq_dec : EqDecision Rank.
Proof. solve_decision. Defined.

(** The members in definition order, which is the order [for s in Suit]
    iterates in. *)
Definition Suit_members : list Suit := [HEARTS; DIAMONDS; CLUBS; SPADES].
Definition Rank_members : list Rank :=
  [TWO; THREE; FOUR; FIVE; SIX; SEVEN; EIGHT; NINE; TEN; JACK; QUEEN; KING; ACE].

Definition Suit_value (s : Suit) : string :=
  match s with
  | HEARTS => "Hearts" | DIAMONDS => "Diamonds"
  | CLUBS => "Clubs" | SPADES => "Spades"
  end.
Definition Rank_value (r : Rank) : string :=
  match r with
  | TWO => "2" | THREE => "3" | FOUR => "4" | FIVE => "5" | SIX => "6"
  | SEVEN => "7" | EIGHT => "8" | NINE => "9" | TEN => "10"
  | JACK => "J" | QUEEN => "Q" | KING => "K" | ACE => "A"
  end.

(** ** [logic_game.py]: cards *)

Record Card : Type := { suit : Suit; rank : Rank }.

#[global] Instance Card_eq_dec : EqDecision Card.
Proof. solve_decision. Defined.

(** [RANK_TO_ASSET_NAME.get(rank, rank.value)]. *)
Definition RANK_TO_ASSET_NAME (r : Rank) : option string :=
  match r with
  | ACE => Some "ace" | JACK => Some "jack"
  | QUEEN => Some "queen" | KING => Some "king"
  | _ => None
  end.
Definition _image_filename (c : Card) : string :=
  let rank_name := default (Rank_value (rank c)) (RANK_TO_ASSET_NAME (rank c)) in
  let suit_name := py_lower (Suit_value (suit c)) in
  rank_name +:+ "_of_" +:+ suit_name +:+ ".png".

(** [Card.__repr__]. *)
Definition __repr__ (c : Card) : string :=
  Rank_value (rank c) +:+ " of " +:+ Suit_value (suit c).

(** [l[i]] for a Python integer index: a negative index counts from the end. *)
Definition index_Z {A} (l : list A) (i : Z) : res A :=
  if 0 <=? i then index l (Z.to_nat i)
  else if - Z.of_nat (length l) <=? i then index l (Z.to_nat (Z.of_nat (length l) + i))
  else Raise IndexError.

(** [l.pop()]: remove and return the last element. *)
Definition pop {A} : M (list A) A :=
  λ l, match last l with
       | Some x => (Ok x, removelast l)
       | None => (Raise IndexError, l)
       end.

(** Run a computation on the [i]-th object of a list. *)
Definition at_index {A X} (i : nat) (c : M A X) : M (list A) X :=
  λ l, match l !! i with
       | Some a => let '(r, a') := c a in (r, <[i:=a']> l)
       | None => (Raise IndexError, l)
       end.

(** ** [logic_game.py]: players *)

Module Player.

Record t : Type := mk {
  name : string;
  hand : list Card;
  score : Z;
  is_dealer : bool;
  result : string
}.

Definition set_name (v : string) (self : t) : t :=
  mk v (hand self) (score self) (is_dealer self) (result self).
Definition set_hand (v : list Card) (self : t) : t :=
  mk (name self) v (score self) (is_dealer self) (result self).
Definition set_score (v : Z) (self : t) : t :=
  mk (name self) (hand self) v (is_dealer self) (result self).
Definition set_result (v : string) (self : t) : t :=
  mk (name self) (hand self) (score self) (is_dealer self) v.

Definition __init__ (name : string) (is_dealer : bool) : t :=
  mk name [] 0 is_dealer "".

(** The first loop of [calculate_score]: one card's contribution to
    [(base_score, num_aces)]. *)
Definition count_card (acc : Z * nat) (card : Card) : res (Z * nat) :=
  let '(base_score, num_aces) := acc in
  if bool_decide (rank card ∈ [JACK; QUEEN; KING]) then
    Ok (base_score + 10, num_aces)
  else if bool_decide (rank card = ACE) then
    Ok (base_score, (num_aces + 1)%nat)
  else
    val v <- py_int (Rank_value (rank card));
    Ok (base_score + v, num_aces).

Fixpoint count_hand (acc : Z * nat) (cards : list Card) : res (Z * nat) :=
  match cards with
  | [] => Ok acc
  | card :: cards' => val acc' <- count_card acc card; count_hand acc' cards'
  end.

(** The inner [generate_scores(current_total, ace_index)], returning what it
    appends to [possible_scores], in order.  The recursion is on
    [remaining = num_aces - ace_index], which is 0 exactly when
    [ace_index == num_aces]. *)
Fixpoint generate_scores (remaining : nat) (current_total : Z) : list Z :=
  match remaining with
  | O => [current_total]
  | S remaining' =>
      flat_map (λ ace_value, generate_scores remaining' (current_total + ace_value))
               [1; 10; 11]
  end.

Definition calculate_score : M t unit :=
  do self <- get;
  do '(base_score, num_aces) <- lift (count_hand (0, 0%nat) (hand self));
  let possible_scores := generate_scores num_aces base_score in
  let threshold := if is_dealer self then 15 else 16 in
  let valid_scores :=
    filter (λ score, threshold ≤ score ∧ score ≤ 21) possible_scores in
  if bool_decide (valid_scores ≠ []) then
    do s <- lift (py_max valid_scores);
    modify (set_score s)
  else
    let fallback_scores := filter (λ score, score ≤ 21) possible_scores in
    do s <- lift (if bool_decide (fallback_scores ≠ [])
                  then py_max fallback_scores
                  else py_min possible_scores);
    modify (set_score s).

Definition add_card (card : Card) : M t unit :=
  modify (λ self, set_hand (hand self ++ [card]) self) ;;
  calculate_score.

Definition reset_hand (self : t) : t := set_score 0 (set_hand [] self).

End Player.

(** ** [logic_game.py]: the round engine *)

Module Game.

Record t : Type := mk {
  n_players : Z;
  players : list Player.t;
  dealer : Player.t;
  deck : list Card
}.

Definition set_players (v : list Player.t) (self : t) : t :=
  mk (n_players self) v (dealer self) (deck self).
Definition set_dealer (v : Player.t) (self : t) : t :=
  mk (n_players self) (players self) v (deck self).
Definition set_deck (v : list Card) (self : t) : t :=
  mk (n_players self) (players self) (dealer self) v.

(** The state a method that may reshuffle runs on: the engine and the
    process's entropy. *)
Definition st : Type := t * Entropy.

Definition on_self {A} (c : M t A) : M st A :=
  zoom fst (λ g s, (g, snd s)) c.
Definition on_entropy {A} (c : M Entropy A) : M st A :=
  zoom snd (λ e s, (fst s, e)) c.
Definition on_deck {A} (c : M (list Card) A) : M t A := zoom deck set_deck c.
Definition on_dealer {A} (c : M Player.t A) : M t A := zoom dealer set_dealer c.
Definition on_players {A} (c : M (list Player.t) A) : M t A :=
  zoom players set_players c.

(** [[Card(suit, rank) for suit in Suit for rank in Rank]]. *)
Definition ordered_deck : list Card :=
  flat_map (λ s, map (λ r, Build_Card s r) Rank_members) Suit_members.

Definition create_deck : M Entropy (list Card) := random_shuffle ordered_deck.

Definition __init__ (n_players : Z) : M Entropy t :=
  if n_players <? 1 then
    raise (ValueError "Number of players must be at least 1")
  else if n_players >? 8 then
    raise (ValueError "Number of players cannot exceed 8")
  else
    do deck <- create_deck;
    ret (mk n_players [] (Player.__init__ "Dealer" true) deck).

Definition draw_card : M st Card :=
  do self <- get;
  (if bool_decide (deck (fst self) = []) then
     do d <- on_entropy create_deck;
     on_self (modify (set_deck d))
   else ret tt) ;;
  on_self (on_deck pop).

Definition add_players (self : t) : t :=
  foldl (λ g i,
           let player_name := "Player " +:+ pretty (i + 1)%nat in
           set_players (players g ++ [Player.__init__ player_name false]) g)
        self (seq 0 (Z.to_nat (n_players self))).

(** One pass of the outer loop of [deal_initial_cards]. *)
Definition deal_pass : M st unit :=
  do self <- get;
  for_each (seq 0 (length (players (fst self))))
    (λ i, do card <- draw_card;
          on_self (on_players (at_index i (Player.add_card card)))) ;;
  do card <- draw_card;
  on_self (on_dealer (Player.add_card card)).

Definition deal_initial_cards : M st unit := deal_pass ;; deal_pass.

Definition reset_game : M st unit :=
  do d <- on_entropy create_deck;
  on_self (modify (λ g,
    set_players (map Player.reset_hand (players g))
      (set_dealer (Player.reset_hand (dealer g)) (set_deck d g)))).

Definition is_blackjack (player : Player.t) : bool :=
  bool_decide (length (Player.hand player) = 2%nat) &&
  bool_decide (Player.score player = 21).
Definition is_golden_blackjack (player : Player.t) : bool :=
  bool_decide (length (Player.hand player) = 2%nat) &&
  forallb (λ card, bool_decide (rank card = ACE)) (Player.hand player).
Definition is_spirit (player : Player.t) : bool :=
  bool_decide (length (Player.hand player) = 5%nat) &&
  bool_decide (Player.score player ≤ 21).

Definition evaluate_winner (self : t) (player_index : Z) : res string :=
  let dealer := dealer self in
  val player <- index_Z (players self) player_index;
  let player_score := Player.score player in
  let dealer_score := Player.score dealer in
  let player_golden := is_golden_blackjack player in
  let dealer_golden := is_golden_blackjack dealer in
  let player_blackjack := is_blackjack player in
  let dealer_blackjack := is_blackjack dealer in
  Ok (if player_golden && dealer_golden then "Draw (both Golden Blackjack)"
      else if player_golden then "Player wins with Golden Blackjack"
      else if dealer_golden then "Dealer wins with Golden Blackjack"
      else if player_blackjack && dealer_blackjack then "Draw (both Blackjack)"
      else if dealer_blackjack then "Dealer wins with Blackjack"
      else if player_blackjack then "Player wins with Blackjack"
      else if is_spirit player && is_spirit dealer then "Draw (both Di Linh)"
      else if is_spirit player then "Player wins with Di Linh"
      else if is_spirit dealer then "Dealer wins with Di Linh"
      else if player_score >? 21 then "Player busted - Dealer wins"
      else if dealer_score >? 21 then "Dealer busted - Player wins"
      else if player_score >? dealer_score then "Player wins"
      else if player_score <? dealer_score then "Dealer wins"
      else "Draw").

Definition check_player (player_index : Z) : M t unit :=
  do self <- get;
  if (player_index <? 0) || (player_index >=? Z.of_nat (length (players self))) then
    raise (ValueError ("Player index " +:+ pretty player_index +:+ " is out of range."))
  else
    do result <- lift (evaluate_winner self player_index);
    on_players (at_index (Z.to_nat player_index) (modify (Player.set_result result))).

End Game.

(** ** [app/main.py]: seats and rooms *)

(** Run a computation with a local object [l] that is not yet part of the
    state; the object is returned with the result and dropped on a raise. *)
Definition with_local {S L A} (l : L) (c : M (L * S) A) : M S (A * L) :=
  λ s, match c (l, s) with
       | (Ok a, (l', s')) => (Ok (a, l'), s')
       | (Raise e, (_, s')) => (Raise e, s')
       end.

(** The module-level helpers [_is_blackjack] and [_is_golden_blackjack]. *)
Definition _is_blackjack (player : Player.t) : bool :=
  bool_decide (length (Player.hand player) = 2%nat) &&
  bool_decide (Player.score player = 21).
Definition _is_golden_blackjack (player : Player.t) : bool :=
  bool_decide (length (Player.hand player) = 2%nat) &&
  forallb (λ card, bool_decide (Rank_value (rank card) = "A")) (Player.hand player).

Module PlayerSeat.

Record t : Type := mk {
  player_id : string;
  name : string;
  stood : bool;
  resolved : bool;
  result : string
}.

Definition set_stood (v : bool) (self : t) : t :=
  mk (player_id self) (name self) v (resolved self) (result self).
Definition set_resolved (v : bool) (self : t) : t :=
  mk (player_id self) (name self) (stood self) v (result self).
Definition set_result (v : string) (self : t) : t :=
  mk (player_id self) (name self) (stood self) (resolved self) v.

(** [PlayerSeat(player_id=..., name=...)] with the dataclass defaults. *)
Definition __init__ (player_id name : string) : t :=
  mk player_id name false false "".

End PlayerSeat.

(** The four literals [Room.phase] is ever assigned. *)
Inductive Phase : Type := waiting | player_turns | dealer_turn | results.

#[global] Instance Phase_eq_dec : EqDecision Phase.
Proof. solve_decision. Defined.

Definition Phase_str (p : Phase) : string :=
  match p with
  | waiting => "waiting" | player_turns => "player_turns"
  | dealer_turn => "dealer_turn" | results => "results"
  end.

Module Room.

Record t : Type := mk {
  room_id : string;
  host_id : string;
  seats : list PlayerSeat.t;
  max_players : Z;
  phase : Phase;
  current_player_index : Z;
  game : option Game.t
}.

Definition set_seats (v : list PlayerSeat.t) (self : t) : t :=
  mk (room_id self) (host_id self) v (max_players self) (phase self)
     (current_player_index self) (game self).
Definition set_phase (v : Phase) (self : t) : t :=
  mk (room_id self) (host_id self) (seats self) (max_players self) v
     (current_player_index self) (game self).
Definition set_current_player_index (v : Z) (self : t) : t :=
  mk (room_id self) (host_id self) (seats self) (max_players self) (phase self)
     v (game self).
Definition set_game (v : option Game.t) (self : t) : t :=
  mk (room_id self) (host_id self) (seats self) (max_players self) (phase self)
     (current_player_index self) v.

(** [Room(room_id=..., host_id=..., seats=..., max_players=...)]. *)
Definition __init__ (room_id host_id : string) (seats : list PlayerSeat.t)
    (max_players : Z) : t :=
  mk room_id host_id seats max_players waiting 0 None.

Fixpoint find_from (idx : nat) (seats : list PlayerSeat.t) (player_id : string) : Z :=
  match seats with
  | [] => -1
  | seat :: seats' =>
      if bool_decide (PlayerSeat.player_id seat = player_id) then Z.of_nat idx
      else find_from (S idx) seats' player_id
  end.
Definition find_player_index (self : t) (player_id : string) : Z :=
  find_from 0 (seats self) player_id.

(** The state of the helpers that may draw cards: the room and the entropy. *)
Definition st : Type := t * Entropy.

Definition on_self {A} (c : M t A) : M st A := zoom fst (λ r s, (r, snd s)) c.
Definition on_seats {A} (c : M (list PlayerSeat.t) A) : M t A :=
  zoom seats set_seats c.

(** [room.game.<method>]: on [None] the attribute access raises. *)
Definition on_game {A} (c : M Game.t A) : M t A :=
  λ r, match game r with
       | Some g => let '(x, g') := c g in (x, set_game (Some g') r)
       | None => (Raise AttributeError, r)
       end.
Definition on_game_st {A} (c : M Game.st A) : M st A :=
  λ s, match game (fst s) with
       | Some g => let '(x, (g', e')) := c (g, snd s) in
                   (x, (set_game (Some g') (fst s), e'))
       | None => (Raise AttributeError, s)
       end.

(** [room.game.players[idx]]. *)
Definition player_at (self : t) (idx : nat) : res Player.t :=
  match game self with
  | Some g => index (Game.players g) idx
  | None => Raise AttributeError
  end.

(** [room.game.dealer]. *)
Definition dealer_of (self : t) : res Player.t :=
  match game self with
  | Some g => Ok (Game.dealer g)
  | None => Raise AttributeError
  end.

End Room.

(** ** [app/main.py]: the state response *)

(** [_card_asset_url(card.image_path)]: the file name of the path under
    [/assets/]. *)
Definition _card_asset_url (card : Card) : string :=
  "/assets/" +:+ _image_filename card.

(** The values a score field holds: [None], the string ["?"], or an integer. *)
Inductive PyVal : Type := PyNone | PyStr (s : string) | PyInt (z : Z).

(** A card as [get_state] shows it: [{"hidden": True}] or the open card. *)
Inductive CardView : Type :=
  | HiddenCard
  | ShownCard (rank suit image_url : string).

(** An entry of [players]; in the waiting phase the dictionary has no
    ["result"] key. *)
Record PlayerView : Type := {
  pv_name : string;
  pv_score : PyVal;
  pv_cards : list CardView;
  pv_stood : bool;
  pv_resolved : bool;
  pv_result : option string
}.

Record DealerView : Type := {
  dv_score : PyVal;
  dv_cards : list CardView
}.

Record RoomStateResponse : Type := {
  rs_room_id : string;
  rs_phase : string;
  rs_current_player_index : Z;
  rs_your_player_index : option Z;
  rs_players : list PlayerView;
  rs_dealer : DealerView;
  rs_can_start : bool;
  rs_can_act : bool;
  rs_results : list (string * string)
}.

(** ** [app/main.py]: the room manager *)

Module RoomManager.

(** [self.rooms] and the entropy of the process; the lock makes every method
    below atomic and is not represented. *)
Record t : Type := mk {
  rooms : gmap string Room.t;
  entropy : Entropy
}.

Definition __init__ (e : Entropy) : t := mk ∅ e.

Definition on_entropy {A} (c : M Entropy A) : M t A :=
  zoom entropy (λ e w, mk (rooms w) e) c.

(** Run [c] on the room object found under [room_id]; the object is mutated
    in place, so what [c] did to it stays in the table even if [c] raises. *)
Definition on_room {A} (room_id : string) (room : Room.t) (c : M Room.st A) : M t A :=
  λ w, let '(x, (room', e')) := c (room, entropy w) in
       (x, mk (<[room_id := room']> (rooms w)) e').

Definition _new_player_id : M Entropy string :=
  do h <- uuid4_hex; ret (py_prefix 12 h).
Definition _new_room_id : M Entropy string :=
  do h <- uuid4_hex; ret (py_upper (py_prefix 6 h)).

Definition create_room (player_name : string) (max_players : Z) : M t (string * string) :=
  do room_id <- on_entropy _new_room_id;
  do player_id <- on_entropy _new_player_id;
  let room :=
    Room.__init__ room_id player_id
      [PlayerSeat.__init__ player_id (py_strip player_name)] max_players in
  modify (λ w, mk (<[room_id := room]> (rooms w)) (entropy w)) ;;
  ret (room_id, player_id).

Definition join_room (room_id player_name : string) : M t (string * string) :=
  do self <- get;
  match rooms self !! room_id with
  | None => raise (HTTPException 404 "Room not found")
  | Some room =>
      if bool_decide (Room.phase room ≠ waiting) then
        raise (HTTPException 400 "Game already started")
      else if Z.of_nat (length (Room.seats room)) >=? Room.max_players room then
        raise (HTTPException 400 "Room is full")
      else
        do player_id <- on_entropy _new_player_id;
        on_room room_id room (Room.on_self (Room.on_seats (modify (λ seats : list PlayerSeat.t,
          seats ++ [PlayerSeat.__init__ player_id (py_strip player_name)])))) ;;
        ret (room_id, player_id)
  end.

Definition _is_finished (room : Room.t) (player_index : nat) : res bool :=
  val seat <- index (Room.seats room) player_index;
  val player <- Room.player_at room player_index;
  Ok (PlayerSeat.resolved seat || PlayerSeat.stood seat
      || (Player.score player >? 21)
      || (Z.of_nat (length (Player.hand player)) >=? 5)).

(** The shape shared by the loops of [_move_to_next_playable] and
    [_advance_after]: the first index of [idxs] that is not finished. *)
Fixpoint first_playable (room : Room.t) (idxs : list nat) : res (option nat) :=
  match idxs with
  | [] => Ok None
  | idx :: idxs' =>
      val finished <- _is_finished room idx;
      if negb finished then Ok (Some idx) else first_playable room idxs'
  end.

Definition _move_to_next_playable : M Room.t unit :=
  do room <- get;
  do found <- lift (first_playable room (seq 0 (length (Room.seats room))));
  match found with
  | Some idx =>
      modify (Room.set_current_player_index (Z.of_nat idx)) ;;
      modify (Room.set_phase player_turns)
  | None => modify (Room.set_phase dealer_turn)
  end.

Definition _advance_after (from_index : nat) : M Room.t unit :=
  do room <- get;
  do found <- lift (first_playable room
                      (seq (from_index + 1)
                           (length (Room.seats room) - (from_index + 1))));
  match found with
  | Some idx => modify (Room.set_current_player_index (Z.of_nat idx))
  | None => _move_to_next_playable
  end.

(** The body shared by the loops of [_resolve_initial_naturals] and
    [_run_dealer_and_finalize]: evaluate seat [idx] and record the result. *)
Definition settle_seat (idx : nat) : M Room.t unit :=
  Room.on_game (Game.check_player (Z.of_nat idx)) ;;
  do room <- get;
  do player <- lift (Room.player_at room idx);
  Room.on_seats (at_index idx (modify (PlayerSeat.set_result (Player.result player)))) ;;
  Room.on_seats (at_index idx (modify (PlayerSeat.set_resolved true))).

Definition _resolve_initial_naturals : M Room.t unit :=
  do room <- get;
  for_each (seq 0 (length (Room.seats room)))
    (λ idx,
       do room <- get;
       do player <- lift (Room.player_at room idx);
       if _is_blackjack player || _is_golden_blackjack player
       then settle_seat idx
       else ret tt).

(** The [while] loop of [_run_dealer_and_finalize]; [fuel] bounds the number
    of iterations. *)
Fixpoint dealer_draws (fuel : nat) : M Game.st unit :=
  do self <- get;
  let dealer := Game.dealer (fst self) in
  if (Z.of_nat (length (Player.hand dealer)) <? 5) && (Player.score dealer <? 15) then
    match fuel with
    | O => raise FuelExhausted
    | S fuel' =>
        do card <- Game.draw_card;
        Game.on_self (Game.on_dealer (Player.add_card card)) ;;
        dealer_draws fuel'
    end
  else ret tt.

(** A hand grows by one card per iteration and the loop stops at 5 cards. *)
Definition dealer_draws_bound : nat := 5.

Definition _run_dealer_and_finalize : M Room.st unit :=
  Room.on_game_st (dealer_draws dealer_draws_bound) ;;
  do self <- get;
  Room.on_self (for_each (seq 0 (length (Room.seats (fst self)))) settle_seat) ;;
  Room.on_self (modify (Room.set_phase results)).

(** Lines 179-183 of [start_game]: the engine for the seats of [room], with
    the seat names copied and the initial cards dealt; it is still a local
    variable, and becomes [room.game] (the same object) right after. *)
Definition deal_round (room : Room.t) : M Entropy Game.t :=
  do game <- Game.__init__ (Z.of_nat (length (Room.seats room)));
  let game := Game.add_players game in
  do '(_, game) <- with_local game (Game.on_self (Game.on_players
       (for_each (imap (λ idx seat, (idx, seat)) (Room.seats room))
          (λ '(idx, seat), at_index idx (modify (Player.set_name (PlayerSeat.name seat)))))));
  do '(_, game) <- with_local game Game.deal_initial_cards;
  ret game.

Definition reset_seat (seat : PlayerSeat.t) : PlayerSeat.t :=
  PlayerSeat.set_result "" (PlayerSeat.set_resolved false (PlayerSeat.set_stood false seat)).

(** [start_game] from line 179 on, as a computation on the room object. *)
Definition start_round : M Room.st unit :=
  do self <- get;
  do game <- zoom snd (λ e s, (fst s, e)) (deal_round (fst self));
  Room.on_self (modify (Room.set_game (Some game))) ;;
  Room.on_self (modify (Room.set_phase player_turns)) ;;
  Room.on_self (modify (Room.set_current_player_index 0)) ;;
  Room.on_self (Room.on_seats (modify (map reset_seat))) ;;
  Room.on_self _resolve_initial_naturals ;;
  do self <- get;
  do dealer <- lift (Room.dealer_of (fst self));
  if _is_blackjack dealer || _is_golden_blackjack dealer then
    _run_dealer_and_finalize
  else
    Room.on_self _move_to_next_playable ;;
    do self <- get;
    if bool_decide (Room.phase (fst self) = dealer_turn)
    then _run_dealer_and_finalize
    else ret tt.

Definition start_game (room_id player_id : string) : M t unit :=
  do self <- get;
  match rooms self !! room_id with
  | None => raise (HTTPException 404 "Room not found")
  | Some room =>
      if bool_decide (Room.host_id room ≠ player_id) then
        raise (HTTPException 403 "Only host can start the game")
      else if bool_decide (Room.phase room ≠ waiting) then
        raise (HTTPException 400 "Game already started")
      else on_room room_id room start_round
  end.

(** [player_action] from line 220 on. *)
Definition play (idx : nat) (action : string) : M Room.st unit :=
  do self <- get;
  do _ <- lift (Room.player_at (fst self) idx);
  do _ <- lift (index (Room.seats (fst self)) idx);
  (if bool_decide (action = "hit") then
     do card <- Room.on_game_st Game.draw_card;
     Room.on_self (Room.on_game (Game.on_players (at_index idx (Player.add_card card))))
   else
     Room.on_self (Room.on_seats (at_index idx (modify (PlayerSeat.set_stood true))))) ;;
  do self <- get;
  do finished <- lift (_is_finished (fst self) idx);
  (if finished then Room.on_self (_advance_after idx) else ret tt) ;;
  do self <- get;
  if bool_decide (Room.phase (fst self) = dealer_turn)
  then _run_dealer_and_finalize
  else ret tt.

Definition player_action (room_id player_id action : string) : M t unit :=
  do self <- get;
  match rooms self !! room_id with
  | None => raise (HTTPException 404 "Room not found")
  | Some room =>
      if bool_decide (Room.phase room ≠ player_turns) then
        raise (HTTPException 400 "Not in player turns")
      else
        let idx := Room.find_player_index room player_id in
        if bool_decide (idx = -1) then
          raise (HTTPException 403 "Player not in room")
        else if bool_decide (idx ≠ Room.current_player_index room) then
          raise (HTTPException 400 "Not your turn")
        else
          do seat <- lift (index_Z (Room.seats room) idx);
          if PlayerSeat.resolved seat then
            raise (HTTPException 400 "Player already resolved")
          else
            let action := py_strip (py_lower action) in
            if bool_decide (action ∉ ["hit"; "stand"]) then
              raise (HTTPException 400 "Action must be hit or stand")
            else on_room room_id room (play (Z.to_nat idx) action)
  end.

(** [get_state]: a read-only projection of one room. *)
Definition card_view (hide : bool) (card : Card) : CardView :=
  if hide then HiddenCard
  else ShownCard (Rank_value (rank card)) (Suit_value (suit card))
                 (_card_asset_url card).

Definition player_view (room : Room.t) (idx : nat) (seat : PlayerSeat.t)
    : res PlayerView :=
  val player <- Room.player_at room idx;
  let hide :=
    bool_decide (Room.phase room = player_turns)
    && bool_decide (Z.of_nat idx ≠ Room.current_player_index room)
    && negb (PlayerSeat.resolved seat) in
  Ok {| pv_name := PlayerSeat.name seat;
        pv_score := if hide then PyStr "?" else PyInt (Player.score player);
        pv_cards := map (card_view hide) (Player.hand player);
        pv_stood := PlayerSeat.stood seat;
        pv_resolved := PlayerSeat.resolved seat;
        pv_result := Some (PlayerSeat.result seat) |}.

Fixpoint player_views (room : Room.t) (idx : nat) (seats : list PlayerSeat.t)
    : res (list PlayerView) :=
  match seats with
  | [] => Ok []
  | seat :: seats' =>
      val v <- player_view room idx seat;
      val vs <- player_views room (S idx) seats';
      Ok (v :: vs)
  end.

Definition get_state (self : t) (room_id : string) (player_id : option string)
    : res RoomStateResponse :=
  match rooms self !! room_id with
  | None => Raise (HTTPException 404 "Room not found")
  | Some room =>
      let your_idx :=
        match player_id with
        | Some pid => if bool_decide (pid ≠ "") then Room.find_player_index room pid else -1
        | None => -1
        end in
      let your_idx := if your_idx <? 0 then None else Some your_idx in
      if bool_decide (Room.phase room = waiting) then
        Ok {| rs_room_id := Room.room_id room;
              rs_phase := Phase_str (Room.phase room);
              rs_current_player_index := Room.current_player_index room;
              rs_your_player_index := your_idx;
              rs_players :=
                map (λ seat, {| pv_name := PlayerSeat.name seat;
                                pv_score := PyNone;
                                pv_cards := [];
                                pv_stood := PlayerSeat.stood seat;
                                pv_resolved := PlayerSeat.resolved seat;
                                pv_result := None |})
                    (Room.seats room);
              rs_dealer := {| dv_score := PyNone; dv_cards := [] |};
              rs_can_start := bool_decide (player_id = Some (Room.host_id room));
              rs_can_act := false;
              rs_results := [] |}
      else
        val players <- player_views room 0 (Room.seats room);
        let hide_dealer := bool_decide (Room.phase room = player_turns) in
        val dealer <- Room.dealer_of room;
        let dealer_cards := map (card_view hide_dealer) (Player.hand dealer) in
        let results :=
          if bool_decide (Room.phase room = results)
          then map (λ seat, (PlayerSeat.name seat, PlayerSeat.result seat))
                   (Room.seats room)
          else [] in
        Ok {| rs_room_id := Room.room_id room;
              rs_phase := Phase_str (Room.phase room);
              rs_current_player_index := Room.current_player_index room;
              rs_your_player_index := your_idx;
              rs_players := players;
              rs_dealer := {| dv_score := if hide_dealer then PyStr "?"
                                          else PyInt (Player.score dealer);
                              dv_cards := dealer_cards |};
              rs_can_start := false;
              rs_can_act :=
                bool_decide (your_idx = Some (Room.current_player_index room))
                && bool_decide (Room.phase room = player_turns);
              rs_results := results |}
  end.

End RoomManager.

(** ** Reference definitions

    What the specification says, written independently of the code above. *)

Module Reference.

(** Scoring (section 4.2): face cards and 10 count 10, number cards their
    face value; aces are counted apart. *)
Definition face_value (r : Rank) : Z :=
  match r with
  | TWO => 2 | THREE => 3 | FOUR => 4 | FIVE => 5 | SIX => 6
  | SEVEN => 7 | EIGHT => 8 | NINE => 9 | TEN => 10
  | JACK => 10 | QUEEN => 10 | KING => 10
  | ACE => 0
  end.

Definition is_ace (card : Card) : bool := bool_decide (rank card = ACE).

Definition non_ace_sum (cards : list Card) : Z :=
  foldr Z.add 0 (map (λ card, face_value (rank card))
                     (filter (λ card, is_ace card = false) cards)).

Definition num_aces (cards : list Card) : nat :=
  length (filter (λ card, is_ace card = true) cards).

(** Every way of giving each of [k] aces one of the values 1, 10, 11. *)
Fixpoint ace_assignments (k : nat) : list (list Z) :=
  match k with
  | O => [[]]
  | S k' => flat_map (λ v, map (cons v) (ace_assignments k')) [1; 10; 11]
  end.

Definition candidate_totals (cards : list Card) : list Z :=
  map (λ assignment, non_ace_sum cards + foldr Z.add 0 assignment)
      (ace_assignments (num_aces cards)).

Definition threshold (is_dealer : bool) : Z := if is_dealer then 15 else 16.

(** [s] is the greatest candidate that satisfies [P]. *)
Definition greatest (P : Z → Prop) (candidates : list Z) (s : Z) : Prop :=
  s ∈ candidates ∧ P s ∧ ∀ c, c ∈ candidates → P c → c ≤ s.
Definition least (candidates : list Z) (s : Z) : Prop :=
  s ∈ candidates ∧ ∀ c, c ∈ candidates → s ≤ c.

(** Steps 3 to 5: the greatest candidate in [[threshold, 21]]; failing
    that, the greatest candidate that is at most 21; failing that, the
    least candidate. *)
Definition is_score (cards : list Card) (is_dealer : bool) (s : Z) : Prop :=
  let candidates := candidate_totals cards in
  let in_window c := threshold is_dealer ≤ c ∧ c ≤ 21 in
  (greatest in_window candidates s)
  ∨ ((∀ c, c ∈ candidates → ¬ in_window c)
     ∧ greatest (λ c, c ≤ 21) candidates s)
  ∨ ((∀ c, c ∈ candidates → 21 < c) ∧ least candidates s).

(** The win ladder (section 4.3): the rungs in priority order, each a
    condition on the two participants and the tag it yields; the first rung
    whose condition holds decides. *)
Definition golden (p : Player.t) : bool :=
  match Player.hand p with
  | [c1; c2] => bool_decide (rank c1 = ACE) && bool_decide (rank c2 = ACE)
  | _ => false
  end.
Definition blackjack (p : Player.t) : bool :=
  bool_decide (length (Player.hand p) = 2%nat ∧ Player.score p = 21).
Definition spirit (p : Player.t) : bool :=
  bool_decide (length (Player.hand p) = 5%nat ∧ Player.score p ≤ 21).

Definition ladder (player dealer : Player.t) : list (bool * string) :=
  [ (golden player && golden dealer, "Draw (both Golden Blackjack)");
    (golden player && negb (golden dealer), "Player wins with Golden Blackjack");
    (golden dealer && negb (golden player), "Dealer wins with Golden Blackjack");
    (blackjack player && blackjack dealer, "Draw (both Blackjack)");
    (blackjack dealer && negb (blackjack player), "Dealer wins with Blackjack");
    (blackjack player && negb (blackjack dealer), "Player wins with Blackjack");
    (spirit player && spirit dealer, "Draw (both Di Linh)");
    (spirit player && negb (spirit dealer), "Player wins with Di Linh");
    (spirit dealer && negb (spirit player), "Dealer wins with Di Linh");
    (bool_decide (Player.score player > 21), "Player busted - Dealer wins");
    (bool_decide (Player.score dealer > 21), "Dealer busted - Player wins");
    (bool_decide (Player.score player > Player.score dealer), "Player wins");
    (bool_decide (Player.score dealer > Player.score player), "Dealer wins");
    (bool_decide (Player.score player = Player.score dealer), "Draw") ].

Fixpoint first_match (rungs : list (bool * string)) : option string :=
  match rungs with
  | [] => None
  | (cond, tag) :: rungs' => if cond then Some tag else first_match rungs'
  end.

End Reference.

(** ** Notions used in the statements and in the proofs *)

(** The player after [add_card] and after [calculate_score]. *)
Definition scored (p : Player.t) : Player.t := snd (Player.calculate_score p).
Definition dealt (card : Card) (p : Player.t) : Player.t :=
  scored (Player.set_hand (Player.hand p ++ [card]) p).

(** A participant whose score is the one its hand gives. *)
Definition sound (p : Player.t) : Prop :=
  Reference.is_score (Player.hand p) (Player.is_dealer p) (Player.score p).

(** The players after the cards [cs] went, one each, to the seats from [i] on. *)
Fixpoint deal_to (i : nat) (cs : list Card) (ps : list Player.t) : list Player.t :=
  match cs with
  | [] => ps
  | c :: cs' => deal_to (S i) cs' (alter (dealt c) i ps)
  end.

(** The body of the inner loop of [deal_pass]: one card to player [i]. *)
Definition deal_body (i : nat) : M Game.st unit :=
  do card <- Game.draw_card;
  Game.on_self (Game.on_players (at_index i (Player.add_card card))).

(** The cards a list of participants holds, seat by seat. *)
Definition hands (ps : list Player.t) : list (list Card) := map Player.hand ps.

(** The tag [evaluate_winner] returns for a player against a dealer. *)
Definition tag_of (player dealer : Player.t) : string :=
  if Game.is_golden_blackjack player && Game.is_golden_blackjack dealer
  then "Draw (both Golden Blackjack)"
  else if Game.is_golden_blackjack player then "Player wins with Golden Blackjack"
  else if Game.is_golden_blackjack dealer then "Dealer wins with Golden Blackjack"
  else if Game.is_blackjack player && Game.is_blackjack dealer
  then "Draw (both Blackjack)"
  else if Game.is_blackjack dealer then "Dealer wins with Blackjack"
  else if Game.is_blackjack player then "Player wins with Blackjack"
  else if Game.is_spirit player && Game.is_spirit dealer then "Draw (both Di Linh)"
  else if Game.is_spirit player then "Player wins with Di Linh"
  else if Game.is_spirit dealer then "Dealer wins with Di Linh"
  else if Player.score player >? 21 then "Player busted - Dealer wins"
  else if Player.score dealer >? 21 then "Dealer busted - Player wins"
  else if Player.score player >? Player.score dealer then "Player wins"
  else if Player.score player <? Player.score dealer then "Dealer wins"
  else "Draw".

(** A room whose engine has one participant per seat. *)
Definition aligned (r : Room.t) (g : Game.t) : Prop :=
  Room.game r = Some g ∧ length (Room.seats r) = length (Game.players g).

(** What [_is_finished] computes from a seat and its participant. *)
Definition done_flag (seat : PlayerSeat.t) (p : Player.t) : bool :=
  PlayerSeat.resolved seat || PlayerSeat.stood seat
  || (Player.score p >? 21) || (Z.of_nat (length (Player.hand p)) >=? 5).

(** A seat after [settle_seat] wrote the tag [t]. *)
Definition settled (t : string) (seat : PlayerSeat.t) : PlayerSeat.t :=
  PlayerSeat.set_resolved true (PlayerSeat.set_result t seat).

(** Participants that differ at most in name and result. *)
Definition same_cards (p p' : Player.t) : Prop :=
  Player.hand p' = Player.hand p ∧ Player.score p' = Player.score p.

(** The room [r'] reached from [r] (whose engine is [g]) by settling the seats
    of [done] that [sel] selects: nothing but results and resolved flags has
    changed. *)
Definition settles (sel : Player.t → bool) (r : Room.t) (g : Game.t)
    (done : list nat) (r' : Room.t) : Prop :=
  Room.room_id r' = Room.room_id r
  ∧ Room.host_id r' = Room.host_id r
  ∧ Room.max_players r' = Room.max_players r
  ∧ Room.phase r' = Room.phase r
  ∧ Room.current_player_index r' = Room.current_player_index r
  ∧ length (Room.seats r') = length (Room.seats r)
  ∧ ∃ g', Room.game r' = Some g'
          ∧ Game.dealer g' = Game.dealer g
          ∧ Game.deck g' = Game.deck g
          ∧ length (Game.players g') = length (Game.players g)
          ∧ ∀ i seat p,
              Room.seats r !! i = Some seat → Game.players g !! i = Some p →
              ∃ p', Game.players g' !! i = Some p' ∧ same_cards p p'
                    ∧ Room.seats r' !! i
                      = Some (if bool_decide (i ∈ done) && sel p
                              then settled (tag_of p (Game.dealer g)) seat
                              else seat).

(** The natural test of [app/main.py]. *)
Definition natural (p : Player.t) : bool :=
  _is_blackjack p || _is_golden_blackjack p.

(** The dealer after the drawing loop: untouched, or it was below 15 and now
    holds more cards. *)
Definition dealer_played (d d' : Player.t) : Prop :=
  d' = d
  ∨ (Player.score d < 15 ∧ (length (Player.hand d) < length (Player.hand d'))%nat).

(** The room [r'] after [_run_dealer_and_finalize] on [r] (engine [g]), the
    dealer having ended as [d']. *)
Definition finalized (r : Room.t) (g : Game.t) (d' : Player.t) (r' : Room.t) : Prop :=
  Room.room_id r' = Room.room_id r
  ∧ Room.host_id r' = Room.host_id r
  ∧ Room.max_players r' = Room.max_players r
  ∧ Room.phase r' = results
  ∧ Room.current_player_index r' = Room.current_player_index r
  ∧ length (Room.seats r') = length (Room.seats r)
  ∧ ∃ g', Room.game r' = Some g'
          ∧ Game.dealer g' = d'
          ∧ length (Game.players g') = length (Game.players g)
          ∧ ∀ i seat p,
              Room.seats r !! i = Some seat → Game.players g !! i = Some p →
              ∃ p', Game.players g' !! i = Some p' ∧ same_cards p p'
                    ∧ Room.seats r' !! i = Some (settled (tag_of p d') seat).

(** What [deal_round] guarantees of the engine it returns. *)
Definition dealt_ok (n : nat) (g0 : Game.t) : Prop :=
  length (Game.players g0) = n
  ∧ length (Player.hand (Game.dealer g0)) = 2%nat
  ∧ sound (Game.dealer g0)
  ∧ ∀ i p, Game.players g0 !! i = Some p →
           length (Player.hand p) = 2%nat ∧ sound p.

(** The room of [start_game] at line 191: engine attached, flags reset. *)
Definition armed (r : Room.t) (g0 : Game.t) : Room.t :=
  Room.set_seats (map RoomManager.reset_seat (Room.seats r))
    (Room.set_current_player_index 0
       (Room.set_phase player_turns (Room.set_game (Some g0) r))).

(** The invariant of a round whose dealt engine was [g0]: the room is in
    [player_turns] or [results]; seats and participants correspond; while
    players act the dealer's hand is the dealt one, the turn index points to an
    unfinished seat and every seat before it is finished; the seats dealt a
    natural are resolved with the tag of deal time. *)
Definition in_round (g0 : Game.t) (r : Room.t) : Prop :=
  length (Player.hand (Game.dealer g0)) = 2%nat
  ∧ sound (Game.dealer g0)
  ∧ (Room.phase r = player_turns ∨ Room.phase r = results)
  ∧ ∃ g, aligned r g
         ∧ length (Game.players g0) = length (Game.players g)
         ∧ (Room.phase r = player_turns → Game.dealer g = Game.dealer g0)
         ∧ (∀ i p0, Game.players g0 !! i = Some p0 → natural p0 = true →
              ∃ seat p, Room.seats r !! i = Some seat
                        ∧ Game.players g !! i = Some p
                        ∧ PlayerSeat.resolved seat = true
                        ∧ PlayerSeat.result seat = tag_of p0 (Game.dealer g0)
                        ∧ same_cards p0 p)
         ∧ (Room.phase r = player_turns →
              ∃ cur, Room.current_player_index r = Z.of_nat cur
                     ∧ RoomManager._is_finished r cur = Ok false
                     ∧ ∀ i, (i < cur)%nat → RoomManager._is_finished r i = Ok true)
         ∧ (Room.phase r = results →
              ∀ i seat, Room.seats r !! i = Some seat →
                        PlayerSeat.resolved seat = true).

(** Fields no method of the manager writes after the room is created, and the
    number of seats, which changes in the waiting phase only. *)
Definition same_frame (r r' : Room.t) : Prop :=
  Room.room_id r' = Room.room_id r
  ∧ Room.host_id r' = Room.host_id r
  ∧ Room.max_players r' = Room.max_players r
  ∧ length (Room.seats r') = length (Room.seats r).

(** The room [r1] after the hit or stand of seat [idx] in [r]: only that seat
    and its participant (and the deck) have changed. *)
Definition acted (idx : nat) (r : Room.t) (g : Game.t) (r1 : Room.t) (g1 : Game.t)
    : Prop :=
  same_frame r r1
  ∧ Room.phase r1 = Room.phase r
  ∧ Room.current_player_index r1 = Room.current_player_index r
  ∧ aligned r1 g1
  ∧ Game.dealer g1 = Game.dealer g
  ∧ length (Game.players g1) = length (Game.players g)
  ∧ ∀ i, i ≠ idx → Room.seats r1 !! i = Room.seats r !! i
                    ∧ Game.players g1 !! i = Game.players g !! i.

(** One successful [player_action], on any room and by any caller. *)
Definition action_step (m m' : RoomManager.t) : Prop :=
  ∃ room_id player_id action,
    RoomManager.player_action room_id player_id action m = (Ok tt, m').

(** The condition under which the code treats a seat as finished. *)
Definition seat_finished (r : Room.t) (i : nat) : Prop :=
  ∃ seat g p,
    Room.seats r !! i = Some seat ∧ Room.game r = Some g
    ∧ Game.players g !! i = Some p
    ∧ (PlayerSeat.resolved seat = true ∨ PlayerSeat.stood seat = true
       ∨ Player.score p > 21 ∨ (5 ≤ length (Player.hand p))%nat).

(** The causes of refusal the interface lists, per method. *)
Definition join_refused (m : RoomManager.t) (room_id : string) : Prop :=
  match RoomManager.rooms m !! room_id with
  | None => True
  | Some r =>
      Room.phase r ≠ waiting
      ∨ Room.max_players r ≤ Z.of_nat (length (Room.seats r))
  end.

Definition start_refused (m : RoomManager.t) (room_id player_id : string) : Prop :=
  match RoomManager.rooms m !! room_id with
  | None => True
  | Some r => Room.host_id r ≠ player_id ∨ Room.phase r ≠ waiting
  end.

Definition action_refused (m : RoomManager.t) (room_id player_id action : string)
    : Prop :=
  match RoomManager.rooms m !! room_id with
  | None => True
  | Some r =>
      Room.phase r ≠ player_turns
      ∨ (∀ seat, seat ∈ Room.seats r → PlayerSeat.player_id seat ≠ player_id)
      ∨ Room.find_player_index r player_id ≠ Room.current_player_index r
      ∨ (∃ seat, Room.seats r !! Z.to_nat (Room.find_player_index r player_id)
                 = Some seat
                 ∧ PlayerSeat.resolved seat = true)
      ∨ (py_strip (py_lower action) ≠ "hit" ∧ py_strip (py_lower action) ≠ "stand")
  end.

(** The identifiers the next [create_room] will generate. *)
Definition next_room_id (m : RoomManager.t) : string :=
  py_upper (py_prefix 6 (uuid_hex (RoomManager.entropy m)
                                  (uuids_used (RoomManager.entropy m)))).
Definition next_host_id (m : RoomManager.t) : string :=
  py_prefix 12 (uuid_hex (RoomManager.entropy m)
                         (S (uuids_used (RoomManager.entropy m)))).

(** A sequence of [create_room] calls; the list collects the identifiers
    returned. *)
Inductive creates : RoomManager.t → list string → RoomManager.t → Prop :=
  | creates_nil m : creates m [] m
  | creates_cons m player_name max_players room_id player_id m1 ids m2 :
      RoomManager.create_room player_name max_players m
      = (Ok (room_id, player_id), m1) →
      creates m1 ids m2 →
      creates m (room_id :: ids) m2.

(** An entropy whose UUIDs all start with the same six digits. *)
Definition colliding_entropy : Entropy :=
  {| shuffle_picks := λ _, [];
     shuffles_used := 0;
     uuid_hex := λ k, "c0ffee" +:+ pretty k +:+ "00000000000000000000000000";
     uuids_used := 0 |}.

Definition collision_first : res (string * string) * RoomManager.t :=
  RoomManager.create_room "Ann" 2 (RoomManager.__init__ colliding_entropy).
Definition collision_second : res (string * string) * RoomManager.t :=
  RoomManager.create_room "Bob" 3 (snd collision_first).

(** The states of the manager: a fresh one, and whatever a call of one of the
    four mutating methods leaves behind, whether it returned or raised. *)
Inductive reachable : RoomManager.t → Prop :=
  | reachable_init e : reachable (RoomManager.__init__ e)
  | reachable_create m player_name max_players x m' :
      reachable m →
      RoomManager.create_room player_name max_players m = (x, m') →
      reachable m'
  | reachable_join m room_id player_name x m' :
      reachable m →
      RoomManager.join_room room_id player_name m = (x, m') →
      reachable m'
  | reachable_start m room_id player_id x m' :
      reachable m →
      RoomManager.start_game room_id player_id m = (x, m') →
      reachable m'
  | reachable_action m room_id player_id action x m' :
      reachable m →
      RoomManager.player_action room_id player_id action m = (x, m') →
      reachable m'.

(** A room between calls: waiting, or in a round and keeping its invariant. *)
Definition room_ok (r : Room.t) : Prop :=
  Room.phase r = waiting ∨ ∃ g0, in_round g0 r.

Definition rooms_ok (m : RoomManager.t) : Prop :=
  ∀ room_id r, RoomManager.rooms m !! room_id = Some r → room_ok r.

(** Every card of the engine: the deck, the dealer's hand, the players'
    hands. *)
Definition pack (g : Game.t) : list Card :=
  Game.deck g ++ Player.hand (Game.dealer g) ++ concat (hands (Game.players g)).

(** A participant of a round under way: between two and five cards, and a
    score that is the one its hand gives. *)
Definition in_play (p : Player.t) : Prop :=
  (2 ≤ length (Player.hand p) ≤ 5)%nat ∧ sound p.

(** An engine whose cards are the 52 of one deck, each once. *)
Definition fair (g : Game.t) : Prop :=
  pack g ≡ₚ Game.ordered_deck
  ∧ (length (Game.players g) ≤ 8)%nat
  ∧ in_play (Game.dealer g)
  ∧ ∀ i p, Game.players g !! i = Some p → in_play p.

(** The dealer has stopped drawing. *)
Definition dealer_done (d : Player.t) : Prop :=
  length (Player.hand d) = 5%nat ∨ 15 ≤ Player.score d.

(** Every seat carries the verdict of the engine as it stands. *)
Definition verdicts (r : Room.t) (g : Game.t) : Prop :=
  dealer_done (Game.dealer g)
  ∧ ∀ i seat, Room.seats r !! i = Some seat →
              PlayerSeat.resolved seat = true
              ∧ Game.evaluate_winner g (Z.of_nat i) = Ok (PlayerSeat.result seat).

(** The same people at the same seats. *)
Definition same_people (r r' : Room.t) : Prop :=
  map PlayerSeat.player_id (Room.seats r') = map PlayerSeat.player_id (Room.seats r)
  ∧ map PlayerSeat.name (Room.seats r') = map PlayerSeat.name (Room.seats r).

(** A started room: seats and participants correspond, the engine is fair,
    and in the results phase the verdicts are in. *)
Definition fair_room (r : Room.t) : Prop :=
  ∃ g, aligned r g ∧ fair g ∧ (Room.phase r = results → verdicts r g).

(** What holds of the room stored under [room_id] between calls. *)
Definition seated (room_id : string) (r : Room.t) : Prop :=
  Room.room_id r = room_id
  ∧ (∃ seat, Room.seats r !! 0%nat = Some seat
             ∧ PlayerSeat.player_id seat = Room.host_id r)
  ∧ Z.of_nat (length (Room.seats r)) ≤ Z.max 1 (Room.max_players r)
  ∧ (Room.phase r = waiting →
     Room.game r = None ∧ Room.current_player_index r = 0
     ∧ ∀ seat, seat ∈ Room.seats r →
         PlayerSeat.stood seat = false ∧ PlayerSeat.resolved seat = false
         ∧ PlayerSeat.result seat = "")
  ∧ (Room.phase r ≠ waiting → fair_room r).

Definition rooms_seated (m : RoomManager.t) : Prop :=
  ∀ room_id r, RoomManager.rooms m !! room_id = Some r → seated room_id r.

(** One call of [join_room], [start_game] or [player_action], whatever it
    returned. *)
Definition call_step (m m' : RoomManager.t) : Prop :=
  (∃ room_id player_name x,
     RoomManager.join_room room_id player_name m = (x, m'))
  ∨ (∃ room_id player_id x,
       RoomManager.start_game room_id player_id m = (x, m'))
  ∨ (∃ room_id player_id action x,
       RoomManager.player_action room_id player_id action m = (x, m')).

(** The identifier the next [join_room] will hand out. *)
Definition next_player_id (m : RoomManager.t) : string :=
  py_prefix 12 (uuid_hex (RoomManager.entropy m) (uuids_used (RoomManager.entropy m))).

(** The states of the manager behind the HTTP interface: as [reachable], but
    [create_room] is only ever called with a [max_players] that
    [CreateRoomRequest] admits ([Field(ge=1, le=8)]). *)
Inductive served : RoomManager.t → Prop :=
  | served_init e : served (RoomManager.__init__ e)
  | served_create m player_name max_players x m' :
      served m → 1 ≤ max_players ≤ 8 →
      RoomManager.create_room player_name max_players m = (x, m') →
      served m'
  | served_join m room_id player_name x m' :
      served m →
      RoomManager.join_room room_id player_name m = (x, m') →
      served m'
  | served_start m room_id player_id x m' :
      served m →
      RoomManager.start_game room_id player_id m = (x, m') →
      served m'
  | served_action m room_id player_id action x m' :
      served m →
      RoomManager.player_action room_id player_id action m = (x, m') →
      served m'.

(** Every room's capacity is one the interface admits. *)
Definition rooms_bounded (m : RoomManager.t) : Prop :=
  ∀ room_id r, RoomManager.rooms m !! room_id = Some r → 1 ≤ Room.max_players r ≤ 8.

(** UUIDs for the examples, as [uuid4().hex] strings. *)
Definition example_uuid (k : nat) : string :=
  default "f0e1d2c3b4a5968778695a4b3c2d1e0f"
    (["0a1b2c3d4e5f60718293a4b5c6d7e8f9"; "1b2c3d4e5f60718293a4b5c6d7e8f90a";
      "2c3d4e5f60718293a4b5c6d7e8f90a1b"; "3d4e5f60718293a4b5c6d7e8f90a1b2c"] !! k).

(** Shuffles that leave the deck in order: the ace of spades is drawn first. *)
Definition plain_entropy : Entropy :=
  {| shuffle_picks := λ _, [];
     shuffles_used := 0;
     uuid_hex := example_uuid;
     uuids_used := 0 |}.

(** Shuffles after which the deck ends with J♠ A♣ Q♠ A♠ K♠: with one player
    the dealer is dealt A♠ A♣ and the player K♠ Q♠. *)
Definition golden_entropy : Entropy :=
  {| shuffle_picks :=
       λ _, replicate 38 0%nat ++ [10%nat] ++ replicate 11 0%nat ++ [1%nat];
     shuffles_used := 0;
     uuid_hex := example_uuid;
     uuids_used := 0 |}.

Definition no_room : Room.t := Room.__init__ "" "" [] 0.
Definition no_game : Game.t := Game.mk 0 [] (Player.__init__ "" true) [].

(** Two seats: Ann creates the room, Bob joins, Ann starts, Bob stands. *)
Definition lobby : RoomManager.t :=
  snd (RoomManager.join_room "0A1B2C" "Bob"
         (snd (RoomManager.create_room "Ann" 2 (RoomManager.__init__ plain_entropy)))).
Definition lobby_room : Room.t :=
  default no_room (RoomManager.rooms lobby !! "0A1B2C").
Definition lobby_deal : res Game.t * Entropy :=
  RoomManager.deal_round lobby_room (RoomManager.entropy lobby).
Definition lobby_game : Game.t :=
  match fst lobby_deal with Ok g => g | Raise _ => no_game end.
Definition lobby_snapshot : Room.t :=
  snd (RoomManager._resolve_initial_naturals (armed lobby_room lobby_game)).
Definition table_dealt : RoomManager.t :=
  snd (RoomManager.start_game "0A1B2C" "1b2c3d4e5f60" lobby).
Definition table_dealt_room : Room.t :=
  default no_room (RoomManager.rooms table_dealt !! "0A1B2C").
Definition table_done : RoomManager.t :=
  snd (RoomManager.player_action "0A1B2C" "2c3d4e5f6071" "stand" table_dealt).
Definition table_done_room : Room.t :=
  default no_room (RoomManager.rooms table_done !! "0A1B2C").

(** One seat, and a dealer dealt two aces. *)
Definition golden_lobby : RoomManager.t :=
  snd (RoomManager.create_room "Ann" 1 (RoomManager.__init__ golden_entropy)).
Definition golden_room : Room.t :=
  default no_room (RoomManager.rooms golden_lobby !! "0A1B2C").
Definition golden_deal : res Game.t * Entropy :=
  RoomManager.deal_round golden_room (RoomManager.entropy golden_lobby).
Definition golden_game : Game.t :=
  match fst golden_deal with Ok g => g | Raise _ => no_game end.
Definition golden_done : RoomManager.t :=
  snd (RoomManager.start_game "0A1B2C" "1b2c3d4e5f60" golden_lobby).

(** U+00A0, a space to [str.strip] that is not an ASCII one. *)
Definition no_break_space : string :=
  String (ascii_of_nat 194) (String (ascii_of_nat 160) EmptyString).

(** Three seats: Ann is dealt a blackjack, the turn is Bob's, Cid waits. *)
Definition trio_lobby : RoomManager.t :=
  snd (RoomManager.join_room "0A1B2C" "Cid"
         (snd (RoomManager.join_room "0A1B2C" "Bob"
                 (snd (RoomManager.create_room "Ann" 3
                         (RoomManager.__init__ plain_entropy)))))).
Definition trio_dealt : RoomManager.t :=
  snd (RoomManager.start_game "0A1B2C" "1b2c3d4e5f60" trio_lobby).
Definition trio_dealt_room : Room.t :=
  default no_room (RoomManager.rooms trio_dealt !! "0A1B2C").

(** Two aces against an ace and a king. *)
Definition golden_duel : Game.t :=
  Game.mk 1
    [Player.mk "Ann" [Build_Card SPADES ACE; Build_Card DIAMONDS ACE] 21 false ""]
    (Player.mk "Dealer" [Build_Card CLUBS ACE; Build_Card DIAMONDS KING] 21 true "")
    [].

(** A soft seventeen, for either role and in either order. *)
Definition soft_hand : list Card := [Build_Card SPADES ACE; Build_Card HEARTS SIX].
Definition soft_player : Player.t := Player.mk "Ann" soft_hand 0 false "".
Definition soft_dealer : Player.t := Player.mk "Dealer" soft_hand 0 true "".
Definition soft_reversed : Player.t :=
  Player.mk "Bob" [Build_Card HEARTS SIX; Build_Card SPADES ACE] 0 false "".

(** King, queen and five against a dealer on nineteen. *)
Definition busted_hand : list Card :=
  [Build_Card SPADES KING; Build_Card SPADES QUEEN; Build_Card HEARTS FIVE].
Definition busted_duel : Game.t :=
  Game.mk 1 [Player.mk "Ann" busted_hand 25 false "won earlier"]
    (Player.mk "Dealer" [Build_Card CLUBS TEN; Build_Card DIAMONDS NINE] 19 true "")
    [Build_Card HEARTS TWO].

(** Ann alone in her room. *)
Definition solo_lobby : RoomManager.t :=
  snd (RoomManager.create_room "Ann" 2 (RoomManager.__init__ plain_entropy)).
Definition solo_room : Room.t :=
  default no_room (RoomManager.rooms solo_lobby !! "0A1B2C").

(** The engine of the dealt table, and the table after Bob hits. *)
Definition table_dealt_game : Game.t := default no_game (Room.game table_dealt_room).
Definition table_hit : RoomManager.t :=
  snd (RoomManager.player_action "0A1B2C" "2c3d4e5f6071" " Hit " table_dealt).

(** * Proofs *)

(** ** The monad *)

Lemma bind_ok {S A B} (c : M S A) (k : A → M S B) s a s' :
  c s = (Ok a, s') → bind c k s = k a s'.
Proof. unfold bind. intros ->. reflexivity. Qed.

Lemma bind_raise {S A B} (c : M S A) (k : A → M S B) s e s' :
  c s = (Raise e, s') → bind c k s = (Raise e, s').
Proof. unfold bind. intros ->. reflexivity. Qed.

(** ** C1: the score *)

Section score.

Import Reference.

Lemma count_card_spec b a card :
  Player.count_card (b, a) card
  = Ok (b + non_ace_sum [card], (a + num_aces [card])%nat).
Proof.
  unfold Player.count_card, non_ace_sum, num_aces, is_ace.
  destruct card as [s r]; simpl.
  destruct r; vm_compute bool_decide; simpl; f_equal; f_equal; lia.
Qed.

Lemma non_ace_sum_cons card cards :
  non_ace_sum (card :: cards) = non_ace_sum [card] + non_ace_sum cards.
Proof.
  unfold non_ace_sum. rewrite !filter_cons.
  destruct (decide (is_ace card = false)); simpl; lia.
Qed.

Lemma num_aces_cons card cards :
  num_aces (card :: cards) = (num_aces [card] + num_aces cards)%nat.
Proof.
  unfold num_aces. rewrite !filter_cons.
  destruct (decide (is_ace card = true)); simpl; lia.
Qed.

Lemma count_hand_spec cards : ∀ b a,
  Player.count_hand (b, a) cards
  = Ok (b + non_ace_sum cards, (a + num_aces cards)%nat).
Proof.
  induction cards as [|card cards IH]; intros b a.
  - simpl. unfold non_ace_sum, num_aces. simpl. f_equal. f_equal; lia.
  - cbn [Player.count_hand]. rewrite count_card_spec. cbn [rbind].
    rewrite IH, (non_ace_sum_cons card cards), (num_aces_cons card cards).
    f_equal. f_equal; lia.
Qed.

(** The depth-first enumeration lists the totals of the assignments, in the
    order of [ace_assignments]. *)
Lemma generate_scores_spec k : ∀ b,
  Player.generate_scores k b
  = map (λ assignment, b + foldr Z.add 0 assignment) (ace_assignments k).
Proof.
  induction k as [|k IH]; intros b.
  - simpl. f_equal. lia.
  - cbn [Player.generate_scores ace_assignments flat_map].
    rewrite !IH, !map_app, !app_nil_r, !map_map.
    f_equal; [|f_equal]; apply map_ext; intros a; simpl; lia.
Qed.

Lemma ace_assignments_length k : length (ace_assignments k) = (3 ^ k)%nat.
Proof.
  induction k as [|k IH]; [reflexivity|].
  cbn [ace_assignments flat_map]. rewrite !length_app, !length_map, IH.
  simpl. lia.
Qed.

Lemma foldl_max_spec l : ∀ x,
  foldl Z.max x l ∈ x :: l ∧ ∀ c, c ∈ x :: l → c ≤ foldl Z.max x l.
Proof.
  induction l as [|y l IH]; intros x; simpl.
  - split; [left|]. intros c Hc. apply list_elem_of_singleton in Hc. lia.
  - destruct (IH (Z.max x y)) as [Hin Hub]. split.
    + apply elem_of_cons in Hin as [Hin|Hin]; [|by do 2 right].
      rewrite Hin. destruct (Z.max_spec x y) as [[_ ->]|[_ ->]];
        [right; left | left].
    + assert (Z.max x y ≤ foldl Z.max (Z.max x y) l) as Hm
        by (apply Hub; left).
      intros c Hc. apply elem_of_cons in Hc as [->|Hc]; [lia|].
      apply elem_of_cons in Hc as [->|Hc]; [lia|].
      apply Hub. by right.
Qed.

Lemma foldl_min_spec l : ∀ x,
  foldl Z.min x l ∈ x :: l ∧ ∀ c, c ∈ x :: l → foldl Z.min x l ≤ c.
Proof.
  induction l as [|y l IH]; intros x; simpl.
  - split; [left|]. intros c Hc. apply list_elem_of_singleton in Hc. lia.
  - destruct (IH (Z.min x y)) as [Hin Hlb]. split.
    + apply elem_of_cons in Hin as [Hin|Hin]; [|by do 2 right].
      rewrite Hin. destruct (Z.min_spec x y) as [[_ ->]|[_ ->]];
        [left | right; left].
    + assert (foldl Z.min (Z.min x y) l ≤ Z.min x y) as Hm
        by (apply Hlb; left).
      intros c Hc. apply elem_of_cons in Hc as [->|Hc]; [lia|].
      apply elem_of_cons in Hc as [->|Hc]; [lia|].
      apply Hlb. by right.
Qed.

Lemma py_max_filter (P : Z → Prop) `{∀ c, Decision (P c)} (l : list Z) :
  filter P l ≠ [] → ∃ s, py_max (filter P l) = Ok s ∧ greatest P l s.
Proof.
  intros Hne. destruct (filter P l) as [|x l'] eqn:E; [done|].
  eexists; split; [reflexivity|].
  destruct (foldl_max_spec l' x) as [Hin Hub]. rewrite <- E in Hin, Hub.
  apply list_elem_of_filter in Hin as [HP Hin]. repeat split; [done..|].
  intros c Hc HPc. apply Hub. apply list_elem_of_filter. done.
Qed.

Lemma py_min_nonempty (l : list Z) :
  l ≠ [] → ∃ s, py_min l = Ok s ∧ least l s.
Proof.
  intros Hne. destruct l as [|x l']; [done|].
  eexists; split; [reflexivity|]. apply foldl_min_spec.
Qed.

Lemma filter_nil_none (P : Z → Prop) `{∀ c, Decision (P c)} (l : list Z) :
  filter P l = [] → ∀ c, c ∈ l → ¬ P c.
Proof.
  intros E c Hc HP.
  assert (c ∈ filter P l) as Hf by (apply list_elem_of_filter; done).
  rewrite E in Hf. set_solver.
Qed.

Lemma candidate_totals_nonempty cards : candidate_totals cards ≠ [].
Proof.
  unfold candidate_totals. intros E. apply (f_equal length) in E.
  rewrite length_map, ace_assignments_length in E. simpl in E.
  pose proof (Nat.pow_nonzero 3 (num_aces cards)). lia.
Qed.

(** What [calculate_score] stores, as a function of the hand and the role. *)
Lemma calculate_score_run (p : Player.t) :
  ∃ s, Player.calculate_score p = (Ok tt, Player.set_score s p)
       ∧ is_score (Player.hand p) (Player.is_dealer p) s.
Proof.
  unfold Player.calculate_score.
  rewrite (bind_ok _ _ p p p) by reflexivity.
  unfold lift at 1. 
  rewrite (bind_ok _ _ p (0 + non_ace_sum (Player.hand p),
                          (0 + num_aces (Player.hand p))%nat) p)
    by (by rewrite count_hand_spec).
  rewrite generate_scores_spec, Z.add_0_l, Nat.add_0_l.
  fold (candidate_totals (Player.hand p)).
  set (cands := candidate_totals (Player.hand p)).
  fold (threshold (Player.is_dealer p)).
  case_bool_decide as Hv.
  - destruct (py_max_filter _ cands Hv) as (s & Hs & Hg).
    exists s. split.
    + unfold lift. erewrite bind_ok by (rewrite Hs; reflexivity). reflexivity.
    + left. exact Hg.
  - pose proof (filter_nil_none _ _ Hv) as Hnone.
    case_bool_decide as Hf.
    + destruct (py_max_filter _ cands Hf) as (s & Hs & Hg).
      exists s. split.
      * unfold lift. erewrite bind_ok by (rewrite Hs; reflexivity). reflexivity.
      * right; left. split; [exact Hnone | exact Hg].
    + pose proof (filter_nil_none _ _ Hf) as Hbust.
      destruct (py_min_nonempty cands (candidate_totals_nonempty _)) as (s & Hs & Hl).
      exists s. split.
      * unfold lift. erewrite bind_ok by (rewrite Hs; reflexivity). reflexivity.
      * right; right. split; [|exact Hl]. intros c Hc. specialize (Hbust c Hc). simpl in Hbust. lia.
Qed.

Lemma is_score_unique cards d s s' :
  is_score cards d s → is_score cards d s' → s = s'.
Proof.
  unfold is_score, greatest, least. cbv zeta.
  intros [(Hin & HP & Hub)|[(Hno & Hin & HP & Hub)|(Hall & Hin & Hlb)]]
         [(Hin' & HP' & Hub')|[(Hno' & Hin' & HP' & Hub')|(Hall' & Hin' & Hlb')]].
  - specialize (Hub _ Hin' HP'). specialize (Hub' _ Hin HP). lia.
  - exfalso. exact (Hno' _ Hin HP).
  - specialize (Hall' _ Hin). lia.
  - exfalso. exact (Hno _ Hin' HP').
  - specialize (Hub _ Hin' HP'). specialize (Hub' _ Hin HP). lia.
  - specialize (Hall' _ Hin). lia.
  - specialize (Hall _ Hin'). lia.
  - specialize (Hall _ Hin'). lia.
  - specialize (Hlb _ Hin'). specialize (Hlb' _ Hin). lia.
Qed.

End score.

(** C1. For every hand and both roles, [calculate_score] stores the score of
    the reference definition: the candidates are the 3^k totals of the non-ace
    sum plus one of 1, 10, 11 per ace; the score is the greatest candidate in
    [[threshold, 21]] (threshold 15 for the dealer, 16 for a player), else the
    greatest candidate that is at most 21, else the least candidate.  The
    reference determines the score uniquely, and with no ace it is the
    face-value sum. *)
Theorem calculate_score_is_reference_score (p : Player.t) :
  ∃ s, Player.calculate_score p = (Ok tt, Player.set_score s p)
       ∧ Reference.is_score (Player.hand p) (Player.is_dealer p) s
       ∧ (∀ s', Reference.is_score (Player.hand p) (Player.is_dealer p) s' → s' = s)
       ∧ length (Reference.candidate_totals (Player.hand p))
         = (3 ^ Reference.num_aces (Player.hand p))%nat
       ∧ (Reference.num_aces (Player.hand p) = 0%nat
          → s = Reference.non_ace_sum (Player.hand p)).
Proof.
  destruct (calculate_score_run p) as (s & Hrun & Hs).
  exists s. split; [exact Hrun|]. split; [exact Hs|]. split; [|split].
  - intros s' Hs'. exact (is_score_unique _ _ _ _ Hs' Hs).
  - unfold Reference.candidate_totals.
    by rewrite length_map, ace_assignments_length.
  - intros Hk.
    assert (s ∈ Reference.candidate_totals (Player.hand p)) as Hin.
    { destruct Hs as [(H & _)|[(_ & H & _)|(_ & H & _)]]; exact H. }
    unfold Reference.candidate_totals in Hin. rewrite Hk in Hin. simpl in Hin.
    apply list_elem_of_singleton in Hin. lia.
Qed.

(** A player holding the ace of spades and the seven of hearts scores 18. *)
Lemma calculate_score_is_reference_score_witness :
  ∃ s, Player.calculate_score
         (Player.mk "Ann" [Build_Card SPADES ACE; Build_Card HEARTS SEVEN] 0 false "")
       = (Ok tt, Player.set_score s
                   (Player.mk "Ann" [Build_Card SPADES ACE; Build_Card HEARTS SEVEN]
                              0 false ""))
       ∧ (∀ s', Reference.is_score [Build_Card SPADES ACE; Build_Card HEARTS SEVEN]
                                   false s' → s' = s).
Proof.
  destruct (calculate_score_is_reference_score
              (Player.mk "Ann" [Build_Card SPADES ACE; Build_Card HEARTS SEVEN]
                         0 false "")) as (s & H1 & _ & H3 & _).
  exists s. split; [exact H1 | exact H3].
Defined.

(** ** Running computations *)

Lemma zoom_run {S T A} (rd : S → T) (wr : T → S → S) (c : M T A) s x t :
  c (rd s) = (x, t) → zoom rd wr c s = (x, wr t s).
Proof. unfold zoom. intros ->. reflexivity. Qed.

Lemma at_index_run {A X} (i : nat) (c : M A X) (l : list A) a x a' :
  l !! i = Some a → c a = (x, a') → at_index i c l = (x, <[i:=a']> l).
Proof. unfold at_index. intros -> ->. reflexivity. Qed.

Lemma index_lookup {A} (l : list A) i x : l !! i = Some x → index l i = Ok x.
Proof. unfold index. intros ->. reflexivity. Qed.

Lemma index_Z_of_nat {A} (l : list A) (i : nat) : index_Z l (Z.of_nat i) = index l i.
Proof.
  unfold index_Z. destruct (Z.leb_spec 0 (Z.of_nat i)); [|lia].
  by rewrite Nat2Z.id.
Qed.

Lemma pop_snoc {A} (l : list A) x : pop (l ++ [x]) = (Ok x, l).
Proof. unfold pop. by rewrite last_snoc, removelast_last. Qed.

Lemma for_each_cons {S A} (body : A → M S unit) x xs s s' :
  body x s = (Ok tt, s') → for_each (x :: xs) body s = for_each xs body s'.
Proof. intros H. cbn [for_each]. by rewrite (bind_ok _ _ _ _ _ H). Qed.

(** A loop whose body keeps an invariant and never raises. *)
Lemma for_each_inv {S A} (I : list A → S → Prop) (body : A → M S unit) :
  ∀ xs done s,
    I done s →
    (∀ x done' s', x ∈ xs → I done' s' →
       ∃ s'', body x s' = (Ok tt, s'') ∧ I (done' ++ [x]) s'') →
    ∃ s', for_each xs body s = (Ok tt, s') ∧ I (done ++ xs) s'.
Proof.
  induction xs as [|x xs IH]; intros done s HI Hbody.
  - exists s. rewrite app_nil_r. done.
  - destruct (Hbody x done s) as (s1 & Hrun & HI1); [left|done|].
    destruct (IH (done ++ [x]) s1 HI1) as (s' & Hrun' & HI').
    { intros y done' s2 Hy. apply Hbody. by right. }
    exists s'. rewrite (for_each_cons _ _ _ _ _ Hrun).
    by rewrite <- app_assoc in HI'.
Qed.

(** ** Shuffling *)

Lemma insert_at_Permutation {A} k (x : A) l : insert_at k x l ≡ₚ x :: l.
Proof.
  revert k. induction l as [|y l IH]; intros [|k]; simpl; try done.
  rewrite IH. apply Permutation_swap.
Qed.

Lemma shuffle_by_Permutation {A} picks (l : list A) : shuffle_by picks l ≡ₚ l.
Proof.
  revert picks. induction l as [|x l IH]; intros picks; simpl; [done|].
  by rewrite insert_at_Permutation, IH.
Qed.

Lemma ordered_deck_NoDup : NoDup Game.ordered_deck.
Proof. apply (bool_decide_unpack (NoDup Game.ordered_deck)). vm_compute. exact I. Qed.

Lemma create_deck_run e :
  ∃ d e', Game.create_deck e = (Ok d, e') ∧ d ≡ₚ Game.ordered_deck.
Proof.
  eexists _, _. split; [reflexivity|]. apply shuffle_by_Permutation.
Qed.

(** ** Players *)

Lemma calculate_score_scored p : Player.calculate_score p = (Ok tt, scored p).
Proof.
  unfold scored. destruct (calculate_score_run p) as (s & -> & _). reflexivity.
Qed.

Lemma add_card_dealt card p : Player.add_card card p = (Ok tt, dealt card p).
Proof.
  unfold Player.add_card, dealt.
  rewrite (bind_ok _ _ p tt (Player.set_hand (Player.hand p ++ [card]) p))
    by reflexivity.
  apply calculate_score_scored.
Qed.

Lemma scored_spec p :
  Player.name (scored p) = Player.name p
  ∧ Player.hand (scored p) = Player.hand p
  ∧ Player.is_dealer (scored p) = Player.is_dealer p
  ∧ Player.result (scored p) = Player.result p
  ∧ sound (scored p).
Proof.
  unfold scored, sound. destruct (calculate_score_run p) as (s & -> & Hs).
  simpl. done.
Qed.

Lemma dealt_spec card p :
  Player.name (dealt card p) = Player.name p
  ∧ Player.hand (dealt card p) = Player.hand p ++ [card]
  ∧ Player.is_dealer (dealt card p) = Player.is_dealer p
  ∧ Player.result (dealt card p) = Player.result p
  ∧ sound (dealt card p).
Proof.
  unfold dealt.
  destruct (scored_spec (Player.set_hand (Player.hand p ++ [card]) p))
    as (-> & -> & -> & -> & Hs).
  done.
Qed.

(** ** Drawing and dealing *)

Lemma snoc_inv {A} (l : list A) : l ≠ [] → ∃ l' x, l = l' ++ [x].
Proof.
  induction l as [|x l' _] using rev_ind; [done|]. intros _. by exists l', x.
Qed.

Lemma insert_as_alter {A} (f : A → A) (l : list A) i a :
  l !! i = Some a → <[i:=f a]> l = alter f i l.
Proof.
  intros H. apply list_eq. intros j. destruct (decide (i = j)) as [->|Hne].
  - rewrite list_lookup_alter_eq, H. apply list_lookup_insert_eq.
    by eapply lookup_lt_Some.
  - by rewrite list_lookup_insert_ne, list_lookup_alter_ne.
Qed.

Lemma draw_card_snoc g e rest c :
  Game.deck g = rest ++ [c] →
  Game.draw_card (g, e) = (Ok c, (Game.set_deck rest g, e)).
Proof.
  intros Hd. unfold Game.draw_card.
  rewrite (bind_ok _ _ _ (g, e) (g, e)) by reflexivity. cbn [fst].
  case_bool_decide as Hnil.
  { rewrite Hd in Hnil. by destruct rest. }
  rewrite (bind_ok _ _ _ tt (g, e)) by reflexivity.
  unfold Game.on_self, Game.on_deck. 
  erewrite zoom_run; [reflexivity|]. cbn [fst].
  erewrite zoom_run; [reflexivity|]. rewrite Hd. apply pop_snoc.
Qed.

(** Drawing never raises: an empty deck is replaced by a fresh one first. *)
Lemma draw_card_total g e :
  ∃ c d e', Game.draw_card (g, e) = (Ok c, (Game.set_deck d g, e')).
Proof.
  destruct (decide (Game.deck g = [])) as [Hnil|Hne].
  - destruct (create_deck_run e) as (d & e' & Hd & Hp).
    assert (d ≠ []) as Hdne.
    { intros ->. apply Permutation_nil_l in Hp. discriminate Hp. }
    destruct (snoc_inv d Hdne) as (d' & c & ->).
    exists c, d', e'. unfold Game.draw_card.
    rewrite (bind_ok _ _ _ (g, e) (g, e)) by reflexivity. cbn [fst].
    rewrite bool_decide_true by done.
    erewrite (bind_ok _ _ (g, e) tt (Game.set_deck (d' ++ [c]) g, e')).
    + unfold Game.on_self, Game.on_deck.
      erewrite zoom_run; [reflexivity|]. cbn [fst].
      erewrite zoom_run; [reflexivity|]. apply pop_snoc.
    + erewrite bind_ok.
      2:{ unfold Game.on_entropy. erewrite zoom_run; [reflexivity|]. exact Hd. }
      reflexivity.
  - destruct (snoc_inv _ Hne) as (d' & c & Hd).
    exists c, d', e. by apply draw_card_snoc.
Qed.

Lemma deal_to_length cs : ∀ i ps, length (deal_to i cs ps) = length ps.
Proof.
  induction cs as [|c cs IH]; intros i ps; simpl; [done|].
  by rewrite IH, length_alter.
Qed.

Lemma deal_to_lookup_lt cs : ∀ i ps j, (j < i)%nat → deal_to i cs ps !! j = ps !! j.
Proof.
  induction cs as [|c cs IH]; intros i ps j Hj; simpl; [done|].
  rewrite IH by lia. apply list_lookup_alter_ne. lia.
Qed.

Lemma deal_to_lookup cs : ∀ i ps k c,
  cs !! k = Some c → deal_to i cs ps !! (i + k)%nat = dealt c <$> ps !! (i + k)%nat.
Proof.
  induction cs as [|c' cs IH]; intros i ps k c Hk; [done|].
  destruct k as [|k]; simpl in *.
  - injection Hk as ->. rewrite Nat.add_0_r, deal_to_lookup_lt by lia.
    apply list_lookup_alter_eq.
  - replace (i + S k)%nat with (S i + k)%nat by lia.
    rewrite (IH _ _ _ _ Hk). by rewrite list_lookup_alter_ne by lia.
Qed.

Lemma deal_body_run g e rest c i :
  Game.deck g = rest ++ [c] → (i < length (Game.players g))%nat →
  deal_body i (g, e)
  = (Ok tt, (Game.set_players (alter (dealt c) i (Game.players g))
               (Game.set_deck rest g), e)).
Proof.
  intros Hd Hi. unfold deal_body.
  rewrite (bind_ok _ _ _ _ _ (draw_card_snoc g e rest c Hd)).
  destruct (lookup_lt_is_Some_2 _ _ Hi) as [p Hp].
  unfold Game.on_self, Game.on_players.
  erewrite zoom_run.
  2:{ erewrite zoom_run; [reflexivity|].
      eapply at_index_run; [exact Hp | apply add_card_dealt]. }
  cbn. by rewrite (insert_as_alter _ _ _ _ Hp).
Qed.

Lemma deal_loop cs : ∀ start g e rest,
  Game.deck g = rest ++ rev cs →
  (start + length cs ≤ length (Game.players g))%nat →
  for_each (seq start (length cs)) deal_body (g, e)
  = (Ok tt, (Game.set_deck rest
               (Game.set_players (deal_to start cs (Game.players g)) g), e)).
Proof.
  induction cs as [|c cs IH]; intros start g e rest Hd Hlen.
  - simpl in *. rewrite app_nil_r in Hd. subst rest. by destruct g.
  - simpl in Hd, Hlen. rewrite app_assoc in Hd. cbn [length seq].
    rewrite (for_each_cons _ _ _ _ _ (deal_body_run g e _ c start Hd ltac:(lia))).
    rewrite IH with (rest := rest).
    + reflexivity.
    + reflexivity.
    + cbn. rewrite length_alter. lia.
Qed.

Lemma deal_pass_run g e rest cs cd :
  Game.deck g = rest ++ rev (cs ++ [cd]) →
  length cs = length (Game.players g) →
  Game.deal_pass (g, e)
  = (Ok tt, (Game.set_deck rest
               (Game.set_dealer (dealt cd (Game.dealer g))
                  (Game.set_players (deal_to 0 cs (Game.players g)) g)), e)).
Proof.
  intros Hd Hlen. unfold Game.deal_pass.
  rewrite (bind_ok _ _ _ (g, e) (g, e)) by reflexivity. cbn [fst].
  rewrite rev_app_distr in Hd. simpl in Hd.
  rewrite <- Hlen. fold deal_body.
  change (λ i, do card <- Game.draw_card;
               Game.on_self (Game.on_players (at_index i (Player.add_card card))))
    with deal_body.
  erewrite bind_ok.
  2:{ apply deal_loop with (rest := rest ++ [cd]); [by rewrite <- app_assoc | lia]. }
  erewrite bind_ok.
  2:{ apply draw_card_snoc. reflexivity. }
  unfold Game.on_self, Game.on_dealer.
  erewrite zoom_run.
  2:{ erewrite zoom_run; [reflexivity|]. apply add_card_dealt. }
  reflexivity.
Qed.

Lemma deal_initial_cards_run g e rest cs1 d1 cs2 d2 :
  Game.deck g = rest ++ rev (cs1 ++ [d1] ++ cs2 ++ [d2]) →
  length cs1 = length (Game.players g) →
  length cs2 = length (Game.players g) →
  Game.deal_initial_cards (g, e)
  = (Ok tt, (Game.set_deck rest
               (Game.set_dealer (dealt d2 (dealt d1 (Game.dealer g)))
                  (Game.set_players
                     (deal_to 0 cs2 (deal_to 0 cs1 (Game.players g))) g)), e)).
Proof.
  intros Hd H1 H2. unfold Game.deal_initial_cards.
  erewrite bind_ok.
  2:{ apply deal_pass_run with (rest := rest ++ rev (cs2 ++ [d2])) (cs := cs1) (cd := d1);
        [|done].
      rewrite Hd, !rev_app_distr. simpl. by rewrite <- !app_assoc. }
  erewrite deal_pass_run with (rest := rest) (cs := cs2) (cd := d2).
  - reflexivity.
  - reflexivity.
  - cbn. by rewrite deal_to_length.
Qed.

(** A list of [2k+2] cards read as two passes: [k] cards and one more, twice. *)
Lemma two_passes {A} (l : list A) k :
  length l = (2 * k + 2)%nat →
  ∃ cs1 d1 cs2 d2,
    l = cs1 ++ [d1] ++ cs2 ++ [d2] ∧ length cs1 = k ∧ length cs2 = k.
Proof.
  intros Hl.
  destruct (lookup_lt_is_Some_2 l k) as [d1 H1]; [lia|].
  destruct (lookup_lt_is_Some_2 l (2 * k + 1)) as [d2 H2]; [lia|].
  exists (take k l), d1, (take k (drop (S k) l)), d2.
  split; [|split; rewrite ?length_take, ?length_drop; lia].
  apply list_eq. intros i.
  destruct (decide (i < k)%nat).
  { rewrite lookup_app_l by (rewrite length_take; lia). by rewrite lookup_take_lt. }
  rewrite lookup_app_r by (rewrite length_take; lia).
  rewrite length_take, Nat.min_l by lia.
  destruct (decide (i = k)) as [->|].
  { by rewrite Nat.sub_diag. }
  destruct (i - k)%nat as [|j] eqn:Ej; [lia|]. simpl.
  destruct (decide (j < k)%nat).
  { rewrite lookup_app_l by (rewrite length_take, length_drop; lia).
    rewrite lookup_take_lt, lookup_drop by lia. f_equal. lia. }
  rewrite lookup_app_r by (rewrite length_take, length_drop; lia).
  rewrite length_take, length_drop, Nat.min_l by lia.
  destruct (decide (j = k)) as [->|].
  { rewrite Nat.sub_diag. simpl. rewrite <- H2. f_equal. lia. }
  destruct (j - k)%nat eqn:Ej'; [lia|]. simpl.
  apply lookup_ge_None. lia.
Qed.

Lemma deal_initial_cards_spec g e drawn rest :
  Game.deck g = rest ++ rev drawn →
  length drawn = (2 * length (Game.players g) + 2)%nat →
  ∃ g', Game.deal_initial_cards (g, e) = (Ok tt, (g', e))
        ∧ Game.deck g' = rest
        ∧ Game.n_players g' = Game.n_players g
        ∧ length (Game.players g') = length (Game.players g)
        ∧ (∀ i p, Game.players g !! i = Some p →
             ∃ c1 c2, drawn !! i = Some c1
                      ∧ drawn !! (length (Game.players g) + 1 + i)%nat = Some c2
                      ∧ Game.players g' !! i = Some (dealt c2 (dealt c1 p)))
        ∧ (∃ c1 c2, drawn !! length (Game.players g) = Some c1
                    ∧ drawn !! (2 * length (Game.players g) + 1)%nat = Some c2
                    ∧ Game.dealer g' = dealt c2 (dealt c1 (Game.dealer g))).
Proof.
  intros Hd Hlen. set (k := length (Game.players g)) in *.
  destruct (two_passes drawn k Hlen) as (cs1 & d1 & cs2 & d2 & -> & H1 & H2).
  eexists. split; [by apply deal_initial_cards_run|].
  cbn. rewrite !deal_to_length. repeat split.
  - intros i p Hp.
    assert (i < k)%nat as Hi by (by eapply lookup_lt_Some).
    destruct (lookup_lt_is_Some_2 cs1 i) as [c1 Hc1]; [lia|].
    destruct (lookup_lt_is_Some_2 cs2 i) as [c2 Hc2]; [lia|].
    exists c1, c2. split; [|split].
    + by apply lookup_app_l_Some.
    + rewrite lookup_app_r by lia.
      match goal with |- _ !! ?x = _ => replace x with (S i) by lia end. simpl.
      by apply lookup_app_l_Some.
    + pose proof (deal_to_lookup cs2 0 (deal_to 0 cs1 (Game.players g)) i c2 Hc2) as E2.
      pose proof (deal_to_lookup cs1 0 (Game.players g) i c1 Hc1) as E1.
      simpl in E1, E2. by rewrite E2, E1, Hp.
  - exists d1, d2. split; [|split; [|done]].
    + rewrite lookup_app_r by lia. by rewrite H1, Nat.sub_diag.
    + rewrite lookup_app_r by lia.
      match goal with |- _ !! ?x = _ => replace x with (S k) by lia end. simpl.
      rewrite lookup_app_r by lia. by rewrite H2, Nat.sub_diag.
Qed.

Lemma add_players_from n : ∀ s g,
  let g' :=
    foldl (λ g i,
             let player_name := "Player " +:+ pretty (i + 1)%nat in
             Game.set_players (Game.players g ++ [Player.__init__ player_name false]) g)
          g (seq s n) in
  Game.players g'
  = Game.players g
    ++ map (λ i, Player.__init__ ("Player " +:+ pretty (i + 1)%nat) false) (seq s n)
  ∧ Game.dealer g' = Game.dealer g
  ∧ Game.deck g' = Game.deck g
  ∧ Game.n_players g' = Game.n_players g.
Proof.
  induction n as [|n IH]; intros s g; cbn [seq foldl map]; cbv zeta.
  - by rewrite app_nil_r.
  - specialize (IH (S s) (Game.set_players
       (Game.players g ++ [Player.__init__ ("Player " +:+ pretty (s + 1)%nat) false]) g)).
    cbv zeta in IH. destruct IH as (-> & -> & -> & ->).
    cbn [Game.players Game.dealer Game.deck Game.n_players Game.set_players].
    by rewrite <- app_assoc.
Qed.

Lemma add_players_spec g :
  Game.players (Game.add_players g)
  = Game.players g
    ++ map (λ i, Player.__init__ ("Player " +:+ pretty (i + 1)%nat) false)
           (seq 0 (Z.to_nat (Game.n_players g)))
  ∧ Game.dealer (Game.add_players g) = Game.dealer g
  ∧ Game.deck (Game.add_players g) = Game.deck g
  ∧ Game.n_players (Game.add_players g) = Game.n_players g.
Proof. apply add_players_from. Qed.

Lemma Game_init_run n e :
  1 ≤ n ≤ 8 →
  ∃ d e', Game.__init__ n e
          = (Ok (Game.mk n [] (Player.__init__ "Dealer" true) d), e')
          ∧ d ≡ₚ Game.ordered_deck.
Proof.
  intros Hn. unfold Game.__init__.
  destruct (Z.ltb_spec n 1); [lia|]. destruct (Z.gtb_spec n 8); [lia|].
  destruct (create_deck_run e) as (d & e' & Hd & Hp).
  exists d, e'. split; [|done]. by rewrite (bind_ok _ _ _ _ _ Hd).
Qed.

Lemma ordered_deck_length : length Game.ordered_deck = 52%nat.
Proof. reflexivity. Qed.

(** C6. For every [n] from 1 to 8, [Game(n)], [add_players()] and
    [deal_initial_cards()] on a fresh engine succeed; with [drawn] the cards
    in the order they left the deck, [drawn] has [2n+2] pairwise distinct
    cards, player [i] holds exactly the cards number [i] and [n+1+i] and the
    dealer exactly the cards number [n] and [2n+1]: two passes, each over the
    players in index order and then the dealer. *)
Theorem deal_initial_cards_two_passes (n : Z) (e : Entropy) :
  1 ≤ n ≤ 8 →
  ∃ g0 e' g drawn,
    Game.__init__ n e = (Ok g0, e')
    ∧ Game.deal_initial_cards (Game.add_players g0, e') = (Ok tt, (g, e'))
    ∧ Game.deck g0 = Game.deck g ++ rev drawn
    ∧ length drawn = (2 * Z.to_nat n + 2)%nat
    ∧ NoDup drawn
    ∧ length (Game.players g) = Z.to_nat n
    ∧ (∀ i p, Game.players g !! i = Some p →
         ∃ c1 c2, drawn !! i = Some c1
                  ∧ drawn !! (Z.to_nat n + 1 + i)%nat = Some c2
                  ∧ Player.hand p = [c1; c2])
    ∧ (∃ c1 c2, drawn !! Z.to_nat n = Some c1
                ∧ drawn !! (2 * Z.to_nat n + 1)%nat = Some c2
                ∧ Player.hand (Game.dealer g) = [c1; c2]).
Proof.
  intros Hn. destruct (Game_init_run n e Hn) as (d & e' & Hinit & Hperm).
  set (g0 := Game.mk n [] (Player.__init__ "Dealer" true) d) in *.
  destruct (add_players_spec g0) as (Hps & Hdl & Hdk & Hnp).
  assert (length (Game.players (Game.add_players g0)) = Z.to_nat n) as Hk.
  { rewrite Hps. cbn. by rewrite length_map, length_seq. }
  assert (length d = 52%nat) as Hd52.
  { by rewrite Hperm, ordered_deck_length. }
  set (m := (52 - (2 * Z.to_nat n + 2))%nat).
  set (drawn := rev (drop m d)).
  assert (Game.deck (Game.add_players g0) = take m d ++ rev drawn) as Hsplit.
  { rewrite Hdk. unfold drawn. by rewrite rev_involutive, take_drop. }
  assert (length drawn = (2 * length (Game.players (Game.add_players g0)) + 2)%nat)
    as Hlen.
  { unfold drawn, m. rewrite length_rev, length_drop, Hk. lia. }
  destruct (deal_initial_cards_spec _ e' drawn _ Hsplit Hlen)
    as (g & Hrun & Hdeck & _ & Hlenp & Hplayers & Hdealer).
  exists g0, e', g, drawn. split; [done|]. split; [done|].
  split; [by rewrite Hdeck, <- Hsplit, Hdk|].
  split; [by rewrite Hlen, Hk|].
  split.
  { unfold drawn. rewrite <- Permutation_rev.
    assert (NoDup d) as Hnd by (rewrite Hperm; apply ordered_deck_NoDup).
    rewrite <- (take_drop m d) in Hnd. by apply NoDup_app in Hnd as (_ & _ & ?). }
  split; [by rewrite Hlenp|].
  rewrite Hk in Hplayers, Hdealer. split.
  - intros i p Hp.
    assert (i < Z.to_nat n)%nat as Hi.
    { rewrite <- Hk, <- Hlenp. by eapply lookup_lt_Some. }
    destruct (lookup_lt_is_Some_2 (Game.players (Game.add_players g0)) i)
      as [p0 Hp0]; [lia|].
    destruct (Hplayers i p0 Hp0) as (c1 & c2 & H1 & H2 & H3).
    exists c1, c2. split; [done|]. split; [done|].
    rewrite Hp in H3. injection H3 as ->.
    destruct (dealt_spec c2 (dealt c1 p0)) as (_ & -> & _).
    destruct (dealt_spec c1 p0) as (_ & -> & _).
    rewrite Hps in Hp0. cbn in Hp0. 
    apply list_lookup_fmap_Some_1 in Hp0 as (j & -> & _). done.
  - destruct Hdealer as (c1 & c2 & H1 & H2 & H3).
    exists c1, c2. split; [done|]. split; [done|].
    rewrite H3, Hdl.
    destruct (dealt_spec c2 (dealt c1 (Game.dealer g0))) as (_ & -> & _).
    by destruct (dealt_spec c1 (Game.dealer g0)) as (_ & -> & _).
Qed.

(** ** C2: the win ladder *)

Lemma is_golden_blackjack_golden p :
  Game.is_golden_blackjack p = Reference.golden p.
Proof.
  unfold Game.is_golden_blackjack, Reference.golden.
  destruct (Player.hand p) as [|c1 [|c2 [|c3 l]]]; try reflexivity.
  simpl. by rewrite andb_true_r.
Qed.

Lemma is_blackjack_blackjack p : Game.is_blackjack p = Reference.blackjack p.
Proof.
  unfold Game.is_blackjack, Reference.blackjack.
  repeat case_bool_decide; try reflexivity; exfalso; tauto.
Qed.

Lemma is_spirit_spirit p : Game.is_spirit p = Reference.spirit p.
Proof.
  unfold Game.is_spirit, Reference.spirit.
  repeat case_bool_decide; try reflexivity; exfalso; tauto.
Qed.

Lemma evaluate_winner_tag g idx player :
  Game.players g !! idx = Some player →
  Game.evaluate_winner g (Z.of_nat idx) = Ok (tag_of player (Game.dealer g)).
Proof.
  intros Hp. unfold Game.evaluate_winner.
  by rewrite index_Z_of_nat, (index_lookup _ _ _ Hp).
Qed.

Lemma tag_of_first_match player dealer :
  Reference.first_match (Reference.ladder player dealer)
  = Some (tag_of player dealer).
Proof.
  unfold tag_of, Reference.ladder.
  rewrite !is_golden_blackjack_golden, !is_blackjack_blackjack, !is_spirit_spirit.
  destruct (Reference.golden player), (Reference.golden dealer); try reflexivity.
  destruct (Reference.blackjack player), (Reference.blackjack dealer);
    try reflexivity.
  destruct (Reference.spirit player), (Reference.spirit dealer); try reflexivity.
  cbn [Reference.first_match andb negb].
  destruct (Z.gtb_spec (Player.score player) 21);
    [by rewrite bool_decide_true by lia | rewrite bool_decide_false by lia].
  destruct (Z.gtb_spec (Player.score dealer) 21);
    [by rewrite bool_decide_true by lia | rewrite bool_decide_false by lia].
  destruct (Z.gtb_spec (Player.score player) (Player.score dealer));
    [by rewrite bool_decide_true by lia | rewrite bool_decide_false by lia].
  destruct (Z.ltb_spec (Player.score player) (Player.score dealer));
    [by rewrite bool_decide_true by lia | rewrite bool_decide_false by lia].
  by rewrite bool_decide_true by lia.
Qed.

(** C2. [evaluate_winner] returns the tag of the first rung of the priority
    ladder whose condition holds: golden blackjack (both: draw, player only,
    dealer only), then blackjack (both: draw, dealer only, player only), then
    the five-card hand (both: draw, player only, dealer only), then the busts
    (player first), then the higher score, a draw on equal scores.  A player
    with both golden blackjack and blackjack against a dealer with blackjack
    only wins with golden blackjack. *)
Theorem evaluate_winner_first_rung (g : Game.t) (idx : nat) (player : Player.t) :
  Game.players g !! idx = Some player →
  ∃ tag,
    Game.evaluate_winner g (Z.of_nat idx) = Ok tag
    ∧ Reference.first_match (Reference.ladder player (Game.dealer g)) = Some tag
    ∧ (Reference.golden player = true → Reference.blackjack player = true →
       Reference.golden (Game.dealer g) = false →
       Reference.blackjack (Game.dealer g) = true →
       tag = "Player wins with Golden Blackjack").
Proof.
  intros Hp. exists (tag_of player (Game.dealer g)).
  split; [by apply evaluate_winner_tag|]. split; [apply tag_of_first_match|].
  intros Hpg _ Hdg _. unfold tag_of.
  by rewrite !is_golden_blackjack_golden, Hpg, Hdg.
Qed.

(** ** Seats and turns *)

Lemma player_at_lookup r g i p :
  Room.game r = Some g → Game.players g !! i = Some p → Room.player_at r i = Ok p.
Proof. unfold Room.player_at. intros -> Hp. by apply index_lookup. Qed.

Lemma is_finished_run r g i seat p :
  Room.game r = Some g → Room.seats r !! i = Some seat →
  Game.players g !! i = Some p →
  RoomManager._is_finished r i = Ok (done_flag seat p).
Proof.
  intros Hg Hs Hp. unfold RoomManager._is_finished.
  by rewrite (index_lookup _ _ _ Hs), (player_at_lookup _ _ _ _ Hg Hp).
Qed.

Lemma is_finished_inv r i b :
  RoomManager._is_finished r i = Ok b →
  ∃ g seat p, Room.game r = Some g ∧ Room.seats r !! i = Some seat
              ∧ Game.players g !! i = Some p ∧ b = done_flag seat p.
Proof.
  unfold RoomManager._is_finished, index, Room.player_at, index.
  destruct (Room.seats r !! i) as [seat|] eqn:Hs; [|done]. cbn [rbind].
  destruct (Room.game r) as [g|] eqn:Hg; [|done].
  destruct (Game.players g !! i) as [p|] eqn:Hp; [|done]. cbn [rbind].
  intros [= <-]. exists g, seat, p. done.
Qed.

Lemma is_finished_total r g i :
  aligned r g → (i < length (Room.seats r))%nat →
  ∃ b, RoomManager._is_finished r i = Ok b.
Proof.
  intros [Hg Hlen] Hi.
  destruct (lookup_lt_is_Some_2 (Room.seats r) i Hi) as [seat Hs].
  destruct (lookup_lt_is_Some_2 (Game.players g) i) as [p Hp]; [lia|].
  eexists. by eapply is_finished_run.
Qed.

(** [_is_finished] reads the seats and the engine only. *)
Lemma is_finished_ext r r' i :
  Room.seats r' = Room.seats r → Room.game r' = Room.game r →
  RoomManager._is_finished r' i = RoomManager._is_finished r i.
Proof.
  intros Hs Hg. unfold RoomManager._is_finished, Room.player_at.
  by rewrite Hs, Hg.
Qed.

(** The search over a range: it stops at the first seat that is not finished,
    having found every seat before it finished. *)
Lemma first_playable_seq r g : ∀ len start,
  aligned r g → (start + len ≤ length (Room.seats r))%nat →
  (∃ j, RoomManager.first_playable r (seq start len) = Ok (Some j)
        ∧ (start ≤ j < start + len)%nat
        ∧ RoomManager._is_finished r j = Ok false
        ∧ ∀ i, (start ≤ i < j)%nat → RoomManager._is_finished r i = Ok true)
  ∨ (RoomManager.first_playable r (seq start len) = Ok None
     ∧ ∀ i, (start ≤ i < start + len)%nat → RoomManager._is_finished r i = Ok true).
Proof.
  induction len as [|len IH]; intros start Hal Hlen.
  - right. split; [done|]. intros i Hi. lia.
  - cbn [seq RoomManager.first_playable].
    destruct (is_finished_total r g start Hal) as [b Hb]; [lia|].
    rewrite Hb. cbn [rbind]. destruct b; cbn [negb].
    + destruct (IH (S start) Hal) as [(j & Hj & Hr & Hf & Hpre)|[Hn Hall]]; [lia|..].
      * left. exists j. split; [done|]. split; [lia|]. split; [done|].
        intros i Hi. destruct (decide (i = start)) as [->|]; [done|].
        apply Hpre. lia.
      * right. split; [done|]. intros i Hi.
        destruct (decide (i = start)) as [->|]; [done|]. apply Hall. lia.
    + left. exists start. split; [done|]. split; [lia|]. split; [done|].
      intros i Hi. lia.
Qed.

(** ** Settling seats *)

Lemma tag_of_same_cards p p' d : same_cards p p' → tag_of p' d = tag_of p d.
Proof.
  intros [Hh Hs]. unfold tag_of, Game.is_golden_blackjack, Game.is_blackjack,
    Game.is_spirit. by rewrite Hh, Hs.
Qed.

Lemma check_player_run g idx p :
  Game.players g !! idx = Some p →
  Game.check_player (Z.of_nat idx) g
  = (Ok tt, Game.set_players
              (<[idx := Player.set_result (tag_of p (Game.dealer g)) p]> (Game.players g))
              g).
Proof.
  intros Hp. unfold Game.check_player.
  rewrite (bind_ok _ _ g g g) by reflexivity.
  assert (idx < length (Game.players g))%nat as Hi by (by eapply lookup_lt_Some).
  destruct (Z.ltb_spec (Z.of_nat idx) 0); [lia|].
  destruct (Z.geb_spec (Z.of_nat idx) (Z.of_nat (length (Game.players g)))); [lia|].
  cbn [orb].
  erewrite bind_ok by (unfold lift; by rewrite (evaluate_winner_tag _ _ _ Hp)).
  unfold Game.on_players. rewrite Nat2Z.id.
  erewrite zoom_run; [reflexivity|].
  eapply at_index_run; [exact Hp | reflexivity].
Qed.

Lemma on_game_run {A} (c : M Game.t A) r g x g' :
  Room.game r = Some g → c g = (x, g') →
  Room.on_game c r = (x, Room.set_game (Some g') r).
Proof. unfold Room.on_game. intros -> ->. reflexivity. Qed.

Lemma on_game_st_run {A} (c : M Game.st A) r e g x g' e' :
  Room.game r = Some g → c (g, e) = (x, (g', e')) →
  Room.on_game_st c (r, e) = (x, (Room.set_game (Some g') r, e')).
Proof. unfold Room.on_game_st. cbn [fst snd]. intros -> ->. reflexivity. Qed.

Lemma on_self_run {A} (c : M Room.t A) r e x r' :
  c r = (x, r') → Room.on_self c (r, e) = (x, (r', e)).
Proof. intros H. unfold Room.on_self. erewrite zoom_run; [reflexivity|exact H]. Qed.

Lemma settle_seat_run r g idx seat p :
  Room.game r = Some g → Room.seats r !! idx = Some seat →
  Game.players g !! idx = Some p →
  RoomManager.settle_seat idx r
  = (Ok tt,
     Room.set_seats (<[idx := settled (tag_of p (Game.dealer g)) seat]> (Room.seats r))
       (Room.set_game
          (Some (Game.set_players
                   (<[idx := Player.set_result (tag_of p (Game.dealer g)) p]>
                      (Game.players g)) g)) r)).
Proof.
  intros Hg Hs Hp. unfold RoomManager.settle_seat.
  assert (idx < length (Game.players g))%nat as Hi by (by eapply lookup_lt_Some).
  assert (idx < length (Room.seats r))%nat as Hi' by (by eapply lookup_lt_Some).
  erewrite bind_ok by (eapply on_game_run; [exact Hg | by apply check_player_run]).
  erewrite bind_ok by reflexivity.
  erewrite bind_ok.
  2:{ unfold lift. erewrite player_at_lookup; [reflexivity|reflexivity|].
      cbn. by apply list_lookup_insert_eq. }
  erewrite bind_ok.
  2:{ unfold Room.on_seats. erewrite zoom_run; [reflexivity|].
      eapply at_index_run; [exact Hs | reflexivity]. }
  unfold Room.on_seats. erewrite zoom_run.
  2:{ eapply at_index_run; [|reflexivity]. cbn. by apply list_lookup_insert_eq. }
  cbn. by rewrite list_insert_insert_eq.
Qed.

Lemma settles_refl sel r g : Room.game r = Some g → settles sel r g [] r.
Proof.
  intros Hg. repeat (split; [reflexivity|]). exists g. repeat (split; [done|]).
  intros i seat p Hs Hp. exists p. repeat split; [done|].
  rewrite bool_decide_false; [done|]. apply not_elem_of_nil.
Qed.

Lemma settled_idemp t t' seat : settled t (settled t' seat) = settled t seat.
Proof. by destruct seat. Qed.

Lemma bool_decide_elem_of_snoc_ne (i idx : nat) (done : list nat) :
  i ≠ idx → bool_decide (i ∈ done ++ [idx]) = bool_decide (i ∈ done).
Proof.
  intros Hne. apply bool_decide_ext.
  rewrite elem_of_app, list_elem_of_singleton. tauto.
Qed.

Lemma settles_skip sel r g done r' idx p :
  Game.players g !! idx = Some p → sel p = false →
  settles sel r g done r' → settles sel r g (done ++ [idx]) r'.
Proof.
  intros Hp Hsel (H1 & H2 & H3 & H4 & H5 & H6 & g' & Hg' & Hd & Hk & Hl & Hall).
  repeat (split; [done|]). exists g'. repeat (split; [done|]).
  intros i seat q Hs Hq. destruct (Hall i seat q Hs Hq) as (q' & Hq' & Hsc & Hseat).
  exists q'. repeat (split; [done|]). rewrite Hseat. f_equal.
  destruct (decide (i = idx)) as [->|Hne].
  - rewrite Hp in Hq. injection Hq as <-. by rewrite Hsel, !andb_false_r.
  - by rewrite (bool_decide_elem_of_snoc_ne _ _ _ Hne).
Qed.

Lemma settles_step sel r g done r' idx :
  aligned r g → (idx < length (Room.seats r))%nat →
  settles sel r g done r' →
  (∀ p, Game.players g !! idx = Some p → sel p = true) →
  ∃ r'', RoomManager.settle_seat idx r' = (Ok tt, r'')
         ∧ settles sel r g (done ++ [idx]) r''.
Proof.
  intros [Hg Hlen] Hidx (H1 & H2 & H3 & H4 & H5 & H6 & g' & Hg' & Hd & Hk & Hl & Hall) Hsel.
  destruct (lookup_lt_is_Some_2 (Room.seats r) idx Hidx) as [seat Hs].
  destruct (lookup_lt_is_Some_2 (Game.players g) idx) as [p Hp]; [lia|].
  destruct (Hall idx seat p Hs Hp) as (p' & Hp' & Hsc & Hseat').
  eexists. split; [by eapply settle_seat_run|].
  unfold settles. cbn. repeat (split; [done|]). split; [by rewrite length_insert|].
  eexists. split; [reflexivity|]. cbn. repeat (split; [done|]).
  split; [by rewrite length_insert|].
  intros i seat_i q Hsi Hq.
  destruct (decide (i = idx)) as [->|Hne].
  - rewrite Hs in Hsi. injection Hsi as <-. rewrite Hp in Hq. injection Hq as <-.
    eexists. split.
    { apply list_lookup_insert_eq. rewrite Hl. by eapply lookup_lt_Some. }
    split; [exact Hsc|].
    rewrite list_lookup_insert_eq by (rewrite H6; done).
    rewrite (bool_decide_true (idx ∈ done ++ [idx]))
      by (apply elem_of_app; right; by left).
    rewrite (Hsel p Hp). cbn [andb]. rewrite Hd, (tag_of_same_cards _ _ _ Hsc).
    f_equal. destruct (bool_decide (idx ∈ done)); [apply settled_idemp|done].
  - destruct (Hall i seat_i q Hsi Hq) as (q' & Hq' & Hqsc & Hseat).
    exists q'. rewrite !list_lookup_insert_ne by done.
    repeat (split; [done|]). by rewrite Hseat, (bool_decide_elem_of_snoc_ne _ _ _ Hne).
Qed.

(** The [for] loop of [_run_dealer_and_finalize] settles every seat. *)
Lemma settle_all_run r g :
  aligned r g →
  ∃ r', for_each (seq 0 (length (Room.seats r))) RoomManager.settle_seat r
        = (Ok tt, r')
        ∧ settles (λ _, true) r g (seq 0 (length (Room.seats r))) r'.
Proof.
  intros Hal.
  destruct (for_each_inv (settles (λ _, true) r g) RoomManager.settle_seat
              (seq 0 (length (Room.seats r))) [] r) as (r' & Hrun & Hinv).
  - apply settles_refl, Hal.
  - intros idx done' r1 Hidx Hinv. apply elem_of_seq in Hidx.
    eapply settles_step; [done|lia|done|done].
  - by exists r'.
Qed.

(** [_resolve_initial_naturals] settles exactly the seats with a natural. *)
Lemma resolve_initial_naturals_run r g :
  aligned r g →
  ∃ r', RoomManager._resolve_initial_naturals r = (Ok tt, r')
        ∧ settles natural r g (seq 0 (length (Room.seats r))) r'.
Proof.
  intros Hal. unfold RoomManager._resolve_initial_naturals.
  rewrite (bind_ok _ _ r r r) by reflexivity.
  match goal with |- context [for_each _ ?b] => set (body := b) end.
  destruct (for_each_inv (settles natural r g) body
              (seq 0 (length (Room.seats r))) [] r) as (r' & Hrun & Hinv).
  - apply settles_refl, Hal.
  - intros idx done' r1 Hidx Hinv. apply elem_of_seq in Hidx.
    destruct Hal as [Hg Hlen].
    destruct (lookup_lt_is_Some_2 (Room.seats r) idx) as [seat Hs]; [lia|].
    destruct (lookup_lt_is_Some_2 (Game.players g) idx) as [p Hp]; [lia|].
    pose proof Hinv as (_ & _ & _ & _ & _ & _ & g' & Hg' & _ & _ & _ & Hall).
    destruct (Hall idx seat p Hs Hp) as (p' & Hp' & [Hh Hsc] & _).
    unfold body. rewrite (bind_ok _ _ r1 r1 r1) by reflexivity.
    erewrite bind_ok by (unfold lift; by erewrite player_at_lookup).
    assert (natural p' = natural p) as Hnat.
    { unfold natural, _is_blackjack, _is_golden_blackjack. by rewrite Hh, Hsc. }
    fold (natural p'). rewrite Hnat. destruct (natural p) eqn:Hn.
    + eapply settles_step; [done|lia|done|].
      intros q Hq. rewrite Hp in Hq. by injection Hq as <-.
    + exists r1. split; [done|]. by eapply settles_skip.
  - by exists r'.
Qed.

(** ** The dealer's turn *)

Lemma dealer_draws_run fuel : ∀ g e,
  (5 ≤ fuel + length (Player.hand (Game.dealer g)))%nat →
  ∃ d' deck' e',
    RoomManager.dealer_draws fuel (g, e)
    = (Ok tt, (Game.set_dealer d' (Game.set_deck deck' g), e'))
    ∧ dealer_played (Game.dealer g) d'.
Proof.
  induction fuel as [|fuel IH]; intros g e Hfuel.
  - exists (Game.dealer g), (Game.deck g), e. split; [|by left].
    cbn [RoomManager.dealer_draws].
    rewrite (bind_ok _ _ _ (g, e) (g, e)) by reflexivity. cbn [fst].
    destruct (Z.ltb_spec (Z.of_nat (length (Player.hand (Game.dealer g)))) 5); [lia|].
    cbn [andb]. by destruct g.
  - cbn [RoomManager.dealer_draws].
    rewrite (bind_ok _ _ _ (g, e) (g, e)) by reflexivity. cbn [fst].
    destruct (Z.ltb_spec (Z.of_nat (length (Player.hand (Game.dealer g)))) 5) as [Hlt|];
      [|exists (Game.dealer g), (Game.deck g), e; split; [by destruct g|by left]].
    destruct (Z.ltb_spec (Player.score (Game.dealer g)) 15) as [Hsc|];
      [|exists (Game.dealer g), (Game.deck g), e; split; [by destruct g|by left]].
    cbn [andb].
    destruct (draw_card_total g e) as (c & d1 & e1 & Hdraw).
    rewrite (bind_ok _ _ _ _ _ Hdraw).
    erewrite bind_ok.
    2:{ unfold Game.on_self, Game.on_dealer.
        erewrite zoom_run; [reflexivity|]. cbn [fst].
        erewrite zoom_run; [reflexivity|]. apply add_card_dealt. }
    cbn [fst snd Game.dealer Game.set_deck].
    destruct (dealt_spec c (Game.dealer g)) as (_ & Hh & _).
    edestruct (IH (Game.set_dealer (dealt c (Game.dealer g)) (Game.set_deck d1 g)) e1)
      as (d' & deck' & e' & Hrun & Hplayed).
    { cbn. rewrite Hh, length_app. simpl. lia. }
    exists d', deck', e'. split; [exact Hrun|].
    right. split; [done|]. cbn in Hplayed.
    destruct Hplayed as [->|[_ Hl]].
    + rewrite Hh, length_app. simpl. lia.
    + rewrite Hh, length_app in Hl. simpl in Hl. lia.
Qed.

(** Two aces score 21 for either role. *)
Lemma golden_score p :
  sound p → _is_golden_blackjack p = true → Player.score p = 21.
Proof.
  unfold sound, _is_golden_blackjack. intros Hs Hg.
  apply andb_true_iff in Hg as [Hlen Hall].
  destruct (Player.hand p) as [|[s1 r1] [|[s2 r2] [|c3 l]]] eqn:Hh;
    try (by apply bool_decide_eq_true in Hlen).
  simpl in Hall. rewrite andb_true_r in Hall.
  apply andb_true_iff in Hall as [Hr1 Hr2].
  assert (r1 = ACE) as -> by (by destruct r1).
  assert (r2 = ACE) as -> by (by destruct r2).
  set (q := Player.mk "" [Build_Card s1 ACE; Build_Card s2 ACE] 0 (Player.is_dealer p) "").
  destruct (calculate_score_run q) as (s & Hrun & Hq).
  assert (s = 21) as ->.
  { unfold q in Hrun. destruct (Player.is_dealer p); vm_compute in Hrun; congruence. }
  exact (is_score_unique _ _ _ _ Hs Hq).
Qed.

Lemma natural_score p : sound p → natural p = true → Player.score p = 21.
Proof.
  intros Hs Hn. apply orb_true_iff in Hn as [Hb|Hg]; [|by apply golden_score].
  apply andb_true_iff in Hb as [_ Hb]. by apply bool_decide_eq_true in Hb.
Qed.

(** Drawing never makes or unmakes a natural of a two-card dealer hand. *)
Lemma dealer_played_flags d d' :
  sound d → length (Player.hand d) = 2%nat → dealer_played d d' →
  _is_blackjack d' = _is_blackjack d
  ∧ _is_golden_blackjack d' = _is_golden_blackjack d.
Proof.
  intros Hs Hlen [->|[Hsc Hl]]; [done|].
  assert (natural d = false) as Hn.
  { destruct (natural d) eqn:E; [|done]. pose proof (natural_score d Hs E). lia. }
  apply orb_false_iff in Hn as [-> ->].
  unfold _is_blackjack, _is_golden_blackjack.
  rewrite (bool_decide_false (length (Player.hand d') = 2%nat)) by lia. done.
Qed.

Lemma is_golden_blackjack_main p :
  _is_golden_blackjack p = Game.is_golden_blackjack p.
Proof.
  unfold _is_golden_blackjack, Game.is_golden_blackjack. f_equal.
  induction (Player.hand p) as [|[s r] l IH]; [done|]. simpl. rewrite IH. f_equal.
  by destruct r.
Qed.

(** The tag of a natural depends on the dealer through its two flags only. *)
Lemma tag_of_natural p d d' :
  natural p = true →
  _is_blackjack d' = _is_blackjack d →
  _is_golden_blackjack d' = _is_golden_blackjack d →
  tag_of p d' = tag_of p d.
Proof.
  unfold natural. rewrite !is_golden_blackjack_main. unfold _is_blackjack.
  fold (Game.is_blackjack p) (Game.is_blackjack d) (Game.is_blackjack d').
  intros Hn Hb Hg. unfold tag_of. rewrite Hb, Hg.
  destruct (Game.is_golden_blackjack p), (Game.is_golden_blackjack d);
    try reflexivity.
  destruct (Game.is_blackjack p), (Game.is_blackjack d); try reflexivity.
  discriminate Hn.
Qed.

Lemma run_dealer_and_finalize_run r g e :
  aligned r g →
  ∃ r' e' d',
    RoomManager._run_dealer_and_finalize (r, e) = (Ok tt, (r', e'))
    ∧ dealer_played (Game.dealer g) d'
    ∧ finalized r g d' r'.
Proof.
  intros [Hg Hlen]. unfold RoomManager._run_dealer_and_finalize.
  destruct (dealer_draws_run RoomManager.dealer_draws_bound g e)
    as (d' & deck' & e' & Hdraws & Hplayed).
  { unfold RoomManager.dealer_draws_bound. lia. }
  set (g1 := Game.set_dealer d' (Game.set_deck deck' g)) in *.
  set (r1 := Room.set_game (Some g1) r).
  erewrite bind_ok by (by eapply on_game_st_run).
  fold r1. rewrite (bind_ok _ _ _ (r1, e') (r1, e')) by reflexivity. cbn [fst].
  destruct (settle_all_run r1 g1) as (r2 & Hloop & Hset).
  { split; [reflexivity|]. cbn. done. }
  erewrite bind_ok by (apply on_self_run; exact Hloop).
  erewrite on_self_run by reflexivity.
  exists (Room.set_phase results r2), e', d'. split; [reflexivity|]. split; [done|].
  destruct Hset as (H1 & H2 & H3 & H4 & H5 & H6 & g' & Hg' & Hd & Hk & Hl & Hall).
  unfold finalized. cbn. repeat (split; [done|]).
  exists g'. repeat (split; [done|]).
  intros i seat p Hs Hp. destruct (Hall i seat p Hs Hp) as (p' & Hp' & Hsc & Hseat).
  exists p'. repeat (split; [done|]). rewrite Hseat.
  rewrite bool_decide_true; [done|].
  apply elem_of_seq. apply lookup_lt_Some in Hs. cbn. lia.
Qed.

(** ** Starting a round *)

Lemma copy_names_run (seats : list PlayerSeat.t) (ps : list Player.t) :
  length ps = length seats →
  ∃ ps',
    for_each (imap (λ idx seat, (idx, seat)) seats)
      (λ '(idx, seat),
         at_index idx (modify (Player.set_name (PlayerSeat.name seat)))) ps
    = (Ok tt, ps')
    ∧ length ps' = length ps
    ∧ ∀ i p', ps' !! i = Some p' →
        ∃ p, ps !! i = Some p ∧ Player.hand p' = Player.hand p
             ∧ Player.is_dealer p' = Player.is_dealer p.
Proof.
  intros Hlen.
  match goal with |- context [for_each ?l ?b] => set (body := b); set (xs := l) end.
  destruct (for_each_inv
              (λ _ ps', length ps' = length ps
                        ∧ ∀ i p', ps' !! i = Some p' →
                            ∃ p, ps !! i = Some p ∧ Player.hand p' = Player.hand p
                                 ∧ Player.is_dealer p' = Player.is_dealer p)
              body xs [] ps) as (ps' & Hrun & Hinv).
  - split; [done|]. intros i p' Hp'. by exists p'.
  - intros [idx seat] _ ps1 Hin [Hl1 Hall].
    apply list_elem_of_lookup in Hin as [j Hj].
    apply list_lookup_imap_Some in Hj as (seat' & Hs & [= -> ->]).
    apply lookup_lt_Some in Hs.
    destruct (lookup_lt_is_Some_2 ps1 j) as [p1 Hp1]; [lia|].
    eexists. split.
    { unfold body. eapply at_index_run; [exact Hp1 | reflexivity]. }
    split; [by rewrite length_insert|].
    intros i p' Hp'. destruct (decide (i = j)) as [->|Hne].
    + rewrite list_lookup_insert_eq in Hp' by lia. injection Hp' as <-.
      destruct (Hall j p1 Hp1) as (p & Hp & Hh & Hd). by exists p.
    + rewrite list_lookup_insert_ne in Hp' by done. by apply Hall.
  - by exists ps'.
Qed.

Lemma with_local_run {S L A} (l : L) (c : M (L * S) A) s a l' s' :
  c (l, s) = (Ok a, (l', s')) → with_local l c s = (Ok (a, l'), s').
Proof. unfold with_local. intros ->. reflexivity. Qed.

Lemma deal_round_run r e :
  (1 ≤ length (Room.seats r) ≤ 8)%nat →
  ∃ g0 e', RoomManager.deal_round r e = (Ok g0, e')
           ∧ dealt_ok (length (Room.seats r)) g0.
Proof.
  intros Hn. set (n := length (Room.seats r)) in *.
  destruct (Game_init_run (Z.of_nat n) e) as (d & e' & Hinit & Hperm); [lia|].
  set (g0 := Game.mk (Z.of_nat n) [] (Player.__init__ "Dealer" true) d) in *.
  destruct (add_players_spec g0) as (Hps & Hdl & Hdk & Hnp).
  assert (length (Game.players (Game.add_players g0)) = n) as Hk.
  { rewrite Hps. cbn. by rewrite length_map, length_seq, Nat2Z.id. }
  destruct (copy_names_run (Room.seats r) (Game.players (Game.add_players g0)))
    as (ps & Hnames & Hlps & Hfresh); [done|].
  set (g1 := Game.set_players ps (Game.add_players g0)).
  assert (length d = 52%nat) as Hd52 by (by rewrite Hperm, ordered_deck_length).
  set (m := (52 - (2 * n + 2))%nat).
  set (drawn := rev (drop m d)).
  assert (Game.deck g1 = take m d ++ rev drawn) as Hsplit.
  { cbn. rewrite Hdk. unfold drawn. by rewrite rev_involutive, take_drop. }
  assert (length drawn = (2 * length (Game.players g1) + 2)%nat) as Hlen.
  { cbn. unfold drawn, m. rewrite length_rev, length_drop, Hlps, Hk. lia. }
  destruct (deal_initial_cards_spec g1 e' drawn _ Hsplit Hlen)
    as (g & Hrun & _ & _ & Hlenp & Hplayers & Hdealer).
  exists g, e'. split.
  - unfold RoomManager.deal_round. fold n.
    rewrite (bind_ok _ _ _ _ _ Hinit). fold g0.
    erewrite bind_ok.
    2:{ apply with_local_run. unfold Game.on_self, Game.on_players.
        erewrite zoom_run; [reflexivity|]. cbn [fst].
        erewrite zoom_run; [reflexivity|]. exact Hnames. }
    cbn [fst snd]. fold g1.
    erewrite bind_ok by (apply with_local_run; exact Hrun).
    reflexivity.
  - cbn in Hlenp, Hplayers, Hdealer. split; [by rewrite Hlenp, Hlps|].
    destruct Hdealer as (c1 & c2 & _ & _ & ->). split; [|split].
    + destruct (dealt_spec c2 (dealt c1 (Game.dealer (Game.add_players g0))))
        as (_ & -> & _).
      destruct (dealt_spec c1 (Game.dealer (Game.add_players g0))) as (_ & -> & _).
      by rewrite Hdl.
    + apply dealt_spec.
    + intros i p Hp.
      assert (i < length ps)%nat as Hi by (rewrite <- Hlenp; by eapply lookup_lt_Some).
      destruct (lookup_lt_is_Some_2 ps i Hi) as [p1 Hp1].
      destruct (Hplayers i p1 Hp1) as (k1 & k2 & _ & _ & Hp').
      rewrite Hp in Hp'. injection Hp' as ->.
      destruct (Hfresh i p1 Hp1) as (p0 & Hp0 & Hh & _).
      rewrite Hps in Hp0. cbn in Hp0.
      apply list_lookup_fmap_Some_1 in Hp0 as (j & -> & _). cbn in Hh.
      split; [|apply dealt_spec].
      destruct (dealt_spec k2 (dealt k1 p1)) as (_ & -> & _).
      destruct (dealt_spec k1 p1) as (_ & -> & _). by rewrite Hh.
Qed.

Lemma deal_round_refused r e :
  ¬ (1 ≤ length (Room.seats r) ≤ 8)%nat →
  ∃ msg, RoomManager.deal_round r e = (Raise (ValueError msg), e).
Proof.
  intros Hn. unfold RoomManager.deal_round, Game.__init__.
  destruct (Z.ltb_spec (Z.of_nat (length (Room.seats r))) 1).
  { eexists. reflexivity. }
  destruct (Z.gtb_spec (Z.of_nat (length (Room.seats r))) 8).
  { eexists. reflexivity. }
  lia.
Qed.

Lemma finalized_in_round g0 r g d' r' :
  length (Player.hand (Game.dealer g0)) = 2%nat → sound (Game.dealer g0) →
  aligned r g → length (Game.players g0) = length (Game.players g) →
  Game.dealer g = Game.dealer g0 →
  (∀ i p0, Game.players g0 !! i = Some p0 → natural p0 = true →
     ∃ p, Game.players g !! i = Some p ∧ same_cards p0 p) →
  dealer_played (Game.dealer g) d' → finalized r g d' r' →
  in_round g0 r'.
Proof.
  intros Hl2 Hsound [Hg Hlen] Hlen0 Hdl Hnat Hplayed
    (H1 & H2 & H3 & H4 & H5 & H6 & g' & Hg' & Hd & Hl & Hall).
  rewrite Hdl in Hplayed.
  destruct (dealer_played_flags _ _ Hsound Hl2 Hplayed) as [Hfb Hfg].
  split; [done|]. split; [done|]. split; [by right|].
  exists g'. split; [split; [done|lia]|]. split; [lia|].
  split; [rewrite H4; discriminate|]. split; [|split; [rewrite H4; discriminate|]].
  - intros i p0 Hp0 Hn. destruct (Hnat i p0 Hp0 Hn) as (p & Hp & Hsc).
    destruct (lookup_lt_is_Some_2 (Room.seats r) i) as [seat Hs].
    { rewrite Hlen. by eapply lookup_lt_Some. }
    destruct (Hall i seat p Hs Hp) as (p' & Hp' & Hsc' & Hseat).
    exists (settled (tag_of p d') seat), p'. repeat (split; [done|]).
    split; [|destruct Hsc, Hsc'; split; congruence].
    cbn. rewrite (tag_of_same_cards _ _ _ Hsc). by apply tag_of_natural.
  - intros _ i seat' Hs'.
    destruct (lookup_lt_is_Some_2 (Room.seats r) i) as [seat Hs].
    { rewrite <- H6. by eapply lookup_lt_Some. }
    destruct (lookup_lt_is_Some_2 (Game.players g) i) as [p Hp].
    { rewrite <- Hlen. by eapply lookup_lt_Some. }
    destruct (Hall i seat p Hs Hp) as (p' & _ & _ & Hseat).
    rewrite Hs' in Hseat. by injection Hseat as ->.
Qed.

Lemma move_to_next_playable_run r g :
  aligned r g →
  (∃ j, RoomManager._move_to_next_playable r
        = (Ok tt, Room.set_phase player_turns
                    (Room.set_current_player_index (Z.of_nat j) r))
        ∧ RoomManager._is_finished r j = Ok false
        ∧ ∀ i, (i < j)%nat → RoomManager._is_finished r i = Ok true)
  ∨ (RoomManager._move_to_next_playable r = (Ok tt, Room.set_phase dealer_turn r)
     ∧ ∀ i, (i < length (Room.seats r))%nat → RoomManager._is_finished r i = Ok true).
Proof.
  intros Hal. unfold RoomManager._move_to_next_playable.
  rewrite (bind_ok _ _ r r r) by reflexivity.
  destruct (first_playable_seq r g (length (Room.seats r)) 0 Hal)
    as [(j & Hj & Hr & Hf & Hpre)|[Hn Hall]]; [lia|..].
  - left. exists j. rewrite (bind_ok _ _ r (Some j) r) by (unfold lift; by rewrite Hj).
    split; [reflexivity|]. split; [done|]. intros i Hi. apply Hpre. lia.
  - right. rewrite (bind_ok _ _ r None r) by (unfold lift; by rewrite Hn).
    split; [reflexivity|]. intros i Hi. apply Hall. lia.
Qed.

Lemma settles_naturals r g0 n rs :
  length (Room.seats r) = length (Game.players g0) →
  settles natural (armed r g0) g0 (seq 0 n) rs →
  (n = length (Room.seats r)) →
  ∃ gs, aligned rs gs
        ∧ Game.dealer gs = Game.dealer g0
        ∧ length (Game.players g0) = length (Game.players gs)
        ∧ ∀ i p0, Game.players g0 !! i = Some p0 →
            ∃ seat p, Room.seats rs !! i = Some seat
                      ∧ Game.players gs !! i = Some p
                      ∧ same_cards p0 p
                      ∧ (natural p0 = true →
                         PlayerSeat.resolved seat = true
                         ∧ PlayerSeat.result seat = tag_of p0 (Game.dealer g0))
                      ∧ (natural p0 = false → PlayerSeat.resolved seat = false).
Proof.
  intros Hlen (H1 & H2 & H3 & H4 & H5 & H6 & gs & Hgs & Hd & Hk & Hl & Hall) ->.
  cbn in H6. rewrite length_map in H6.
  exists gs. split; [split; [done|lia]|]. split; [done|]. split; [done|].
  intros i p0 Hp0.
  assert (i < length (Room.seats r))%nat as Hi.
  { rewrite Hlen. by eapply lookup_lt_Some. }
  destruct (lookup_lt_is_Some_2 (Room.seats r) i Hi) as [seat Hs].
  destruct (Hall i (RoomManager.reset_seat seat) p0) as (p & Hp & Hsc & Hseat);
    [cbn; by rewrite list_lookup_fmap, Hs|done|].
  rewrite bool_decide_true in Hseat by (apply elem_of_seq; lia). cbn [andb] in Hseat.
  eexists _, p. split; [exact Hseat|]. split; [done|]. split; [done|].
  split; intros ->; done.
Qed.

Lemma start_round_run r e g0 e1 :
  RoomManager.deal_round r e = (Ok g0, e1) →
  dealt_ok (length (Room.seats r)) g0 →
  ∃ rs gs r' e',
    RoomManager._resolve_initial_naturals (armed r g0) = (Ok tt, rs)
    ∧ settles natural (armed r g0) g0 (seq 0 (length (Room.seats r))) rs
    ∧ Room.game rs = Some gs
    ∧ RoomManager.start_round (r, e) = (Ok tt, (r', e'))
    ∧ in_round g0 r'
    ∧ same_frame r r'
    ∧ (natural (Game.dealer g0) = true → finalized rs gs (Game.dealer g0) r').
Proof.
  intros Hdeal (Hn & Hl2 & Hsound & _).
  destruct (resolve_initial_naturals_run (armed r g0) g0) as (rs & Hres & Hset).
  { split; [reflexivity|]. cbn. by rewrite length_map. }
  cbn [armed Room.seats Room.set_seats] in Hset. rewrite length_map in Hset.
  destruct (settles_naturals r g0 _ rs (eq_sym Hn) Hset eq_refl)
    as (gs & Hal & Hdl & Hlen0 & Hnat).
  pose proof Hset as (F1 & F2 & F3 & F4 & F5 & F6 & _).
  cbn in F1, F2, F3, F4, F5, F6. rewrite length_map in F6.
  assert (∀ i p0, Game.players g0 !! i = Some p0 → natural p0 = true →
            ∃ p, Game.players gs !! i = Some p ∧ same_cards p0 p) as Hnat'.
  { intros i p0 Hp0 _. destruct (Hnat i p0 Hp0) as (_ & p & _ & Hp & Hsc & _).
    by exists p. }
  assert (RoomManager.start_round (r, e)
          = if natural (Game.dealer g0)
            then RoomManager._run_dealer_and_finalize (rs, e1)
            else
              (Room.on_self RoomManager._move_to_next_playable ;;
               do self <- get;
               if bool_decide (Room.phase (fst self) = dealer_turn)
               then RoomManager._run_dealer_and_finalize
               else ret tt) (rs, e1)) as Hunfold.
  { unfold RoomManager.start_round.
    rewrite (bind_ok _ _ _ (r, e) (r, e)) by reflexivity. cbn [fst].
    erewrite bind_ok by (erewrite zoom_run; [reflexivity|exact Hdeal]).
    do 4 (erewrite bind_ok by (apply on_self_run; reflexivity)).
    erewrite bind_ok by (apply on_self_run; exact Hres).
    rewrite (bind_ok _ _ _ (rs, e1) (rs, e1)) by reflexivity. cbn [fst].
    erewrite bind_ok.
    2:{ unfold lift, Room.dealer_of. destruct Hal as [-> _]. reflexivity. }
    rewrite Hdl. fold (natural (Game.dealer g0)).
    by destruct (natural (Game.dealer g0)). }
  exists rs, gs.
  destruct (natural (Game.dealer g0)) eqn:Hnd.
  - destruct (run_dealer_and_finalize_run rs gs e1 Hal) as (r' & e' & d' & Hrun & Hplayed & Hfin).
    assert (d' = Game.dealer g0) as ->.
    { rewrite Hdl in Hplayed. destruct Hplayed as [->|[Hsc _]]; [done|].
      pose proof (natural_score _ Hsound Hnd). lia. }
    exists r', e'. split; [done|]. split; [done|]. split; [apply Hal|].
    split; [by rewrite Hunfold|]. split.
    { apply (finalized_in_round g0 rs gs (Game.dealer g0) r' Hl2 Hsound Hal Hlen0 Hdl Hnat');
        [rewrite Hdl; by left | exact Hfin]. }
    split; [|done].
    destruct Hfin as (G1 & G2 & G3 & _ & _ & G6 & _).
    unfold same_frame. rewrite G1, G2, G3, G6. done.
  - destruct (move_to_next_playable_run rs gs Hal)
      as [(j & Hmove & Hf & Hpre)|[Hmove Hall]].
    + eexists _, e1. split; [done|]. split; [done|]. split; [apply Hal|].
      split.
      { rewrite Hunfold. erewrite bind_ok by (apply on_self_run; exact Hmove).
        erewrite bind_ok by reflexivity. reflexivity. }
      split; [|by unfold same_frame; cbn; rewrite F1, F2, F3, F6].
      split; [done|]. split; [done|]. split; [by left|].
      exists gs. split; [exact Hal|]. split; [done|]. split; [done|].
      split; [|split; [|discriminate]].
      * intros i p0 Hp0 Hn0.
        destruct (Hnat i p0 Hp0) as (seat & p & Hs & Hp & Hsc & Hres' & _).
        destruct (Hres' Hn0) as [? ?]. by exists seat, p.
      * intros _. exists j. split; [reflexivity|]. split; [exact Hf|exact Hpre].
    + destruct (run_dealer_and_finalize_run (Room.set_phase dealer_turn rs) gs e1)
        as (r' & e' & d' & Hrun & Hplayed & Hfin); [exact Hal|].
      exists r', e'. split; [done|]. split; [done|]. split; [apply Hal|].
      split.
      { rewrite Hunfold. erewrite bind_ok by (apply on_self_run; exact Hmove).
        erewrite bind_ok by reflexivity. exact Hrun. }
      split; [|split; [|discriminate]].
      { exact (finalized_in_round g0 _ gs d' r' Hl2 Hsound Hal Hlen0 Hdl Hnat' Hplayed Hfin). }
      destruct Hfin as (G1 & G2 & G3 & _ & _ & G6 & _).
      unfold same_frame. rewrite G1, G2, G3, G6. done.
Qed.

(** ** A player's action *)

Lemma act_run r g e idx action seat p :
  aligned r g → Room.seats r !! idx = Some seat → Game.players g !! idx = Some p →
  ∃ r1 g1 e1,
    (if bool_decide (action = "hit") then
       do card <- Room.on_game_st Game.draw_card;
       Room.on_self (Room.on_game (Game.on_players (at_index idx (Player.add_card card))))
     else
       Room.on_self (Room.on_seats (at_index idx (modify (PlayerSeat.set_stood true)))))
      (r, e) = (Ok tt, (r1, e1))
    ∧ acted idx r g r1 g1.
Proof.
  intros [Hg Hlen] Hs Hp. case_bool_decide.
  - destruct (draw_card_total g e) as (c & d1 & e1 & Hdraw).
    eexists _, (Game.set_players (<[idx := dealt c p]> (Game.players g))
                  (Game.set_deck d1 g)), e1. split.
    + erewrite bind_ok by (by eapply on_game_st_run).
      apply on_self_run. eapply on_game_run; [reflexivity|].
      unfold Game.on_players. erewrite zoom_run; [reflexivity|].
      eapply at_index_run; [exact Hp|apply add_card_dealt].
    + unfold acted, same_frame, aligned. cbn. rewrite length_insert.
      do 6 (split; [done|]). intros i Hne.
      by rewrite list_lookup_insert_ne.
  - eexists _, g, e. split.
    + apply on_self_run. unfold Room.on_seats. erewrite zoom_run; [reflexivity|].
      eapply at_index_run; [exact Hs|reflexivity].
    + unfold acted, same_frame, aligned. cbn. rewrite length_insert.
      do 6 (split; [done|]). intros i Hne.
      by rewrite list_lookup_insert_ne.
Qed.

Lemma acted_is_finished idx r g r1 g1 i :
  Room.game r = Some g → acted idx r g r1 g1 → i ≠ idx →
  RoomManager._is_finished r1 i = RoomManager._is_finished r i.
Proof.
  intros Hg (_ & _ & _ & [Hg1 _] & _ & _ & Hsame) Hne.
  destruct (Hsame i Hne) as [Hs Hp].
  unfold RoomManager._is_finished, Room.player_at, index.
  by rewrite Hg, Hg1, Hs, Hp.
Qed.

Lemma finalized_is_finished r g d' r' i :
  aligned r g → finalized r g d' r' → (i < length (Room.seats r))%nat →
  RoomManager._is_finished r' i = Ok true.
Proof.
  intros [Hg Hlen] (_ & _ & _ & _ & _ & _ & g' & Hg' & _ & _ & Hall) Hi.
  destruct (lookup_lt_is_Some_2 (Room.seats r) i Hi) as [seat Hs].
  destruct (lookup_lt_is_Some_2 (Game.players g) i) as [p Hp]; [lia|].
  destruct (Hall i seat p Hs Hp) as (p' & Hp' & _ & Hseat).
  by rewrite (is_finished_run _ _ _ _ _ Hg' Hseat Hp').
Qed.

Lemma advance_after_run r g idx :
  aligned r g → (idx < length (Room.seats r))%nat →
  RoomManager._is_finished r idx = Ok true →
  (∀ i, (i < idx)%nat → RoomManager._is_finished r i = Ok true) →
  (∃ j, RoomManager._advance_after idx r
        = (Ok tt, Room.set_current_player_index (Z.of_nat j) r)
        ∧ (idx < j)%nat
        ∧ RoomManager._is_finished r j = Ok false
        ∧ ∀ i, (i < j)%nat → RoomManager._is_finished r i = Ok true)
  ∨ (RoomManager._advance_after idx r = (Ok tt, Room.set_phase dealer_turn r)).
Proof.
  intros Hal Hidx Hfin Hpre. unfold RoomManager._advance_after.
  rewrite (bind_ok _ _ r r r) by reflexivity.
  destruct (first_playable_seq r g (length (Room.seats r) - (idx + 1)) (idx + 1) Hal)
    as [(j & Hj & Hr & Hf & Hmid)|[Hn Hall]]; [lia|..].
  - left. exists j. rewrite (bind_ok _ _ r (Some j) r) by (unfold lift; by rewrite Hj).
    split; [reflexivity|]. split; [lia|]. split; [done|].
    intros i Hi. destruct (decide (i < idx)%nat); [by apply Hpre|].
    destruct (decide (i = idx)) as [->|]; [done|]. apply Hmid. lia.
  - right. rewrite (bind_ok _ _ r None r) by (unfold lift; by rewrite Hn).
    destruct (move_to_next_playable_run r g Hal) as [(j & _ & Hf & Hlt)|[Hmove _]];
      [|done].
    exfalso.
    assert (RoomManager._is_finished r j = Ok true) as Ht; [|congruence].
    destruct (decide (j < idx)%nat); [by apply Hpre|].
    destruct (decide (j = idx)) as [->|]; [done|].
    apply Hall. apply is_finished_inv in Hf as (_ & seat & _ & _ & Hs & _).
    apply lookup_lt_Some in Hs. lia.
Qed.

Lemma resolved_is_finished r g i seat p :
  Room.game r = Some g → Room.seats r !! i = Some seat →
  Game.players g !! i = Some p → PlayerSeat.resolved seat = true →
  RoomManager._is_finished r i = Ok true.
Proof.
  intros Hg Hs Hp Hr. rewrite (is_finished_run _ _ _ _ _ Hg Hs Hp).
  unfold done_flag. by rewrite Hr.
Qed.

(** After the action of seat [idx], a room that is still in [player_turns]
    with the turn at an unfinished seat [j], every seat before it finished,
    keeps the invariant. *)
Lemma acted_in_round g0 r g r1 g1 r' idx j :
  in_round g0 r → Room.phase r = player_turns → aligned r g →
  RoomManager._is_finished r idx = Ok false →
  acted idx r g r1 g1 →
  Room.seats r' = Room.seats r1 → Room.game r' = Room.game r1 →
  Room.phase r' = player_turns →
  Room.current_player_index r' = Z.of_nat j →
  RoomManager._is_finished r1 j = Ok false →
  (∀ i, (i < j)%nat → RoomManager._is_finished r1 i = Ok true) →
  in_round g0 r'.
Proof.
  intros (Hl2 & Hsound & _ & g' & [Hg' _] & Hlen0 & Hdl & Hnat & _ & _) Hphase
    [Hg Hlen] Hf Hact Hs' Hgame' Hph' Hcur' Hfj Hpre.
  assert (g' = g) as -> by congruence.
  pose proof Hact as (_ & _ & _ & [Hg1 Hlen1] & Hd1 & Hl1 & Hsame).
  split; [done|]. split; [done|]. split; [by left|].
  exists g1. split; [split; congruence|]. split; [lia|].
  split; [intros _; rewrite Hd1; by apply Hdl|].
  split; [|split; [|rewrite Hph'; discriminate]].
  - intros i p0 Hp0 Hn0.
    destruct (Hnat i p0 Hp0 Hn0) as (seat & p & Hs & Hp & Hr & Hres & Hsc).
    assert (i ≠ idx) as Hne.
    { intros ->. rewrite (resolved_is_finished _ _ _ _ _ Hg Hs Hp Hr) in Hf.
      discriminate Hf. }
    destruct (Hsame i Hne) as [Hs1 Hp1].
    exists seat, p. rewrite Hs', Hs1, Hp1. done.
  - intros _. exists j. split; [done|].
    split; [by rewrite (is_finished_ext r1 r' j Hs' Hgame')|].
    intros i Hi. rewrite (is_finished_ext r1 r' i Hs' Hgame'). by apply Hpre.
Qed.

Lemma play_run g0 r e idx action :
  in_round g0 r → Room.phase r = player_turns →
  Room.current_player_index r = Z.of_nat idx →
  ∃ r' e',
    RoomManager.play idx action (r, e) = (Ok tt, (r', e'))
    ∧ in_round g0 r'
    ∧ same_frame r r'
    ∧ Room.current_player_index r ≤ Room.current_player_index r'
    ∧ ∀ i, RoomManager._is_finished r i = Ok true →
           RoomManager._is_finished r' i = Ok true.
Proof.
  intros Hround Hphase Hcur.
  pose proof Hround as (Hl2 & Hsound & _ & g & Hal & Hlen0 & Hdl & Hnat & Hturn & _).
  specialize (Hdl Hphase). destruct (Hturn Hphase) as (cur & Hcur' & Hf & Hpre).
  assert (cur = idx) as -> by lia. clear Hcur' Hturn.
  destruct (is_finished_inv _ _ _ Hf) as (g' & seat & p & Hg' & Hs & Hp & _).
  assert (g' = g) as -> by (destruct Hal; congruence).
  destruct (act_run r g e idx action seat p Hal Hs Hp) as (r1 & g1 & e1 & Hactrun & Hact).
  pose proof Hact as ((A1 & A2 & A3 & A4) & Hph1 & Hcur1 & Hal1 & Hd1 & Hl1 & Hsame).
  assert (idx < length (Room.seats r1))%nat as Hidx1.
  { rewrite A4. by eapply lookup_lt_Some. }
  assert (∀ i, (i < idx)%nat → RoomManager._is_finished r1 i = Ok true) as Hpre1.
  { intros i Hi. rewrite (acted_is_finished idx r g r1 g1 i Hg' Hact) by lia.
    by apply Hpre. }
  assert (∀ i, RoomManager._is_finished r i = Ok true →
               RoomManager._is_finished r1 i = Ok true) as Hmono1.
  { intros i Hi. assert (i ≠ idx) as Hne by (intros ->; congruence).
    by rewrite (acted_is_finished idx r g r1 g1 i Hg' Hact Hne). }
  destruct (is_finished_total r1 g1 idx Hal1 Hidx1) as [b Hb].
  assert (∀ x, (do self <- get;
                do finished <- lift (RoomManager._is_finished (fst self) idx);
                (if finished then Room.on_self (RoomManager._advance_after idx)
                 else ret tt) ;;
                do self <- get;
                if bool_decide (Room.phase (fst self) = dealer_turn)
                then RoomManager._run_dealer_and_finalize
                else ret tt) (r1, e1) = x →
               RoomManager.play idx action (r, e) = x) as Hunfold.
  { intros x <-. unfold RoomManager.play.
    rewrite (bind_ok _ _ _ (r, e) (r, e)) by reflexivity. cbn [fst].
    erewrite bind_ok by (unfold lift; erewrite player_at_lookup; done).
    erewrite bind_ok by (unfold lift; erewrite index_lookup; done).
    erewrite bind_ok by exact Hactrun. reflexivity. }
  destruct b.
  - destruct (advance_after_run r1 g1 idx Hal1 Hidx1 Hb Hpre1)
      as [(j & Hadv & Hlt & Hfj & Hprej)|Hadv].
    + exists (Room.set_current_player_index (Z.of_nat j) r1), e1. split.
      { apply Hunfold. rewrite (bind_ok _ _ _ (r1, e1) (r1, e1)) by reflexivity.
        cbn [fst]. erewrite bind_ok by (unfold lift; by rewrite Hb).
        erewrite bind_ok by (apply on_self_run; exact Hadv).
        erewrite bind_ok by reflexivity. cbn [fst].
        rewrite bool_decide_false; [reflexivity|]. cbn. rewrite Hph1, Hphase. done. }
      split.
      { eapply (acted_in_round g0 r g r1 g1 _ idx j); try done.
        cbn. by rewrite Hph1. }
      split; [done|]. split; [cbn; lia|].
      intros i Hi. rewrite (is_finished_ext r1 _ i) by done. by apply Hmono1.
    + destruct (run_dealer_and_finalize_run (Room.set_phase dealer_turn r1) g1 e1)
        as (r' & e' & d' & Hrun & Hplayed & Hfin); [exact Hal1|].
      exists r', e'. split.
      { apply Hunfold. rewrite (bind_ok _ _ _ (r1, e1) (r1, e1)) by reflexivity.
        cbn [fst]. erewrite bind_ok by (unfold lift; by rewrite Hb).
        erewrite bind_ok by (apply on_self_run; exact Hadv).
        erewrite bind_ok by reflexivity. cbn [fst].
        rewrite bool_decide_true by reflexivity. exact Hrun. }
      split.
      { apply (finalized_in_round g0 (Room.set_phase dealer_turn r1) g1 d' r');
          try done; [lia|congruence|].
        intros i p0 Hp0 Hn0.
        destruct (Hnat i p0 Hp0 Hn0) as (seat_i & p_i & Hsi & Hpi & Hr & _ & Hsc).
        assert (i ≠ idx) as Hne.
        { intros ->. rewrite (resolved_is_finished _ _ _ _ _ Hg' Hsi Hpi Hr) in Hf.
          discriminate Hf. }
        exists p_i. split; [|done]. destruct (Hsame i Hne) as [_ ->]. done. }
      pose proof Hfin as (G1 & G2 & G3 & _ & G5 & G6 & _). cbn in G1, G2, G3, G5, G6.
      split; [unfold same_frame; by rewrite G1, G2, G3, G6|].
      split; [rewrite G5, Hcur1; lia|].
      intros i Hi. eapply finalized_is_finished; [exact Hal1|exact Hfin|].
      apply is_finished_inv in Hi as (_ & seat_i & _ & _ & Hsi & _).
      apply lookup_lt_Some in Hsi. cbn. lia.
  - exists r1, e1. split.
    { apply Hunfold. rewrite (bind_ok _ _ _ (r1, e1) (r1, e1)) by reflexivity.
      cbn [fst]. erewrite bind_ok by (unfold lift; by rewrite Hb).
      erewrite bind_ok by reflexivity.
      erewrite bind_ok by reflexivity. cbn [fst].
      rewrite bool_decide_false; [reflexivity|]. rewrite Hph1, Hphase. done. }
    split.
    { eapply (acted_in_round g0 r g r1 g1 r1 idx idx); try done; congruence. }
    split; [done|]. split; [lia|]. done.
Qed.

(** ** The manager's methods *)

Lemma on_room_run {A} room_id room (c : M Room.st A) m x r' e' :
  c (room, RoomManager.entropy m) = (x, (r', e')) →
  RoomManager.on_room room_id room c m
  = (x, RoomManager.mk (<[room_id := r']> (RoomManager.rooms m)) e').
Proof. unfold RoomManager.on_room. intros ->. reflexivity. Qed.

Lemma find_from_range seats player_id : ∀ i,
  Room.find_from i seats player_id = -1
  ∨ ∃ k, Room.find_from i seats player_id = Z.of_nat k
         ∧ (i ≤ k < i + length seats)%nat.
Proof.
  induction seats as [|seat seats IH]; intros i; [by left|].
  cbn [Room.find_from]. case_bool_decide.
  - right. exists i. simpl. split; [done|lia].
  - destruct (IH (S i)) as [->|(k & -> & Hk)]; [by left|].
    right. exists k. simpl. split; [done|lia].
Qed.

(** A call of [player_action] on an existing room either fails one of its
    checks, leaving the manager as it was, or runs [play] for the seat whose
    turn it is. *)
Lemma player_action_unfold room_id player_id action m r :
  RoomManager.rooms m !! room_id = Some r →
  (∃ code detail,
     RoomManager.player_action room_id player_id action m
     = (Raise (HTTPException code detail), m))
  ∨ (Room.phase r = player_turns
     ∧ ∃ idx, Room.current_player_index r = Z.of_nat idx
              ∧ RoomManager.player_action room_id player_id action m
                = RoomManager.on_room room_id r
                    (RoomManager.play idx (py_strip (py_lower action))) m).
Proof.
  intros Hr. unfold RoomManager.player_action.
  rewrite (bind_ok _ _ m m m) by reflexivity. rewrite Hr.
  case_bool_decide as Hph; [left; by eexists _, _|].
  case_bool_decide as Hidx; [left; by eexists _, _|].
  case_bool_decide as Hcur; [left; by eexists _, _|].
  destruct (find_from_range (Room.seats r) player_id 0) as [Hm1|(k & Hk & Hrange)];
    [by unfold Room.find_player_index in Hidx|].
  unfold Room.find_player_index in *. rewrite Hk in *.
  destruct (lookup_lt_is_Some_2 (Room.seats r) k) as [seat Hs]; [lia|].
  erewrite bind_ok.
  2:{ unfold lift. by rewrite index_Z_of_nat, (index_lookup _ _ _ Hs). }
  destruct (PlayerSeat.resolved seat); [left; by eexists _, _|].
  case_bool_decide as Hact; [left; by eexists _, _|].
  right. split; [done|]. exists k. split; [done|]. by rewrite Nat2Z.id.
Qed.

Lemma player_action_missing room_id player_id action m :
  RoomManager.rooms m !! room_id = None →
  RoomManager.player_action room_id player_id action m
  = (Raise (HTTPException 404 "Room not found"), m).
Proof.
  intros Hr. unfold RoomManager.player_action.
  rewrite (bind_ok _ _ m m m) by reflexivity. by rewrite Hr.
Qed.

(** [player_action] touches no room but the one it names. *)
Lemma player_action_other room_id player_id action m x m' rid :
  RoomManager.player_action room_id player_id action m = (x, m') →
  rid ≠ room_id →
  RoomManager.rooms m' !! rid = RoomManager.rooms m !! rid.
Proof.
  intros Hrun Hne.
  destruct (RoomManager.rooms m !! room_id) as [r|] eqn:Hr.
  - destruct (player_action_unfold room_id player_id action m r Hr)
      as [(code & detail & E)|(_ & idx & _ & E)]; rewrite E in Hrun.
    + by injection Hrun as _ <-.
    + unfold RoomManager.on_room in Hrun.
      destruct (RoomManager.play idx _ _) as [y [r' e']].
      injection Hrun as _ <-. cbn. by rewrite lookup_insert_ne.
  - rewrite (player_action_missing _ _ _ _ Hr) in Hrun. by injection Hrun as _ <-.
Qed.

(** One successful action on the room of a round. *)
Lemma player_action_step g0 room_id player_id action m m' r :
  RoomManager.rooms m !! room_id = Some r → in_round g0 r →
  RoomManager.player_action room_id player_id action m = (Ok tt, m') →
  ∃ r', RoomManager.rooms m' !! room_id = Some r'
        ∧ in_round g0 r'
        ∧ same_frame r r'
        ∧ Room.current_player_index r ≤ Room.current_player_index r'
        ∧ ∀ i, RoomManager._is_finished r i = Ok true →
               RoomManager._is_finished r' i = Ok true.
Proof.
  intros Hr Hround Hrun.
  destruct (player_action_unfold room_id player_id action m r Hr)
    as [(code & detail & E)|(Hph & idx & Hcur & E)]; rewrite E in Hrun; [done|].
  destruct (play_run g0 r (RoomManager.entropy m) idx (py_strip (py_lower action))
              Hround Hph Hcur) as (r' & e' & Hplay & Hround' & Hframe & Hle & Hmono).
  rewrite (on_room_run _ _ _ _ _ _ _ Hplay) in Hrun. injection Hrun as <-.
  exists r'. cbn. by rewrite lookup_insert_eq.
Qed.

(** A call of [player_action] on a room that keeps the invariant never fails
    otherwise than by one of its checks. *)
Lemma player_action_total g0 room_id player_id action m r :
  RoomManager.rooms m !! room_id = Some r → in_round g0 r →
  (∃ code detail,
     RoomManager.player_action room_id player_id action m
     = (Raise (HTTPException code detail), m))
  ∨ (∃ m', RoomManager.player_action room_id player_id action m = (Ok tt, m')).
Proof.
  intros Hr Hround.
  destruct (player_action_unfold room_id player_id action m r Hr)
    as [?|(Hph & idx & Hcur & E)]; [by left|]. right.
  destruct (play_run g0 r (RoomManager.entropy m) idx (py_strip (py_lower action))
              Hround Hph Hcur) as (r' & e' & Hplay & _).
  rewrite E, (on_room_run _ _ _ _ _ _ _ Hplay). by eexists.
Qed.

Lemma start_game_unfold room_id player_id m r :
  RoomManager.rooms m !! room_id = Some r →
  (∃ code detail,
     RoomManager.start_game room_id player_id m
     = (Raise (HTTPException code detail), m))
  ∨ (Room.host_id r = player_id ∧ Room.phase r = waiting
     ∧ RoomManager.start_game room_id player_id m
       = RoomManager.on_room room_id r RoomManager.start_round m).
Proof.
  intros Hr. unfold RoomManager.start_game.
  rewrite (bind_ok _ _ m m m) by reflexivity. rewrite Hr.
  case_bool_decide as Hhost; [left; by eexists _, _|].
  case_bool_decide as Hph; [left; by eexists _, _|].
  by right.
Qed.

Lemma start_game_missing room_id player_id m :
  RoomManager.rooms m !! room_id = None →
  RoomManager.start_game room_id player_id m
  = (Raise (HTTPException 404 "Room not found"), m).
Proof.
  intros Hr. unfold RoomManager.start_game.
  rewrite (bind_ok _ _ m m m) by reflexivity. by rewrite Hr.
Qed.

Lemma start_round_refused r e :
  ¬ (1 ≤ length (Room.seats r) ≤ 8)%nat →
  ∃ msg, RoomManager.start_round (r, e) = (Raise (ValueError msg), (r, e)).
Proof.
  intros Hn. destruct (deal_round_refused r e Hn) as [msg Hdeal].
  exists msg. unfold RoomManager.start_round.
  rewrite (bind_ok _ _ _ (r, e) (r, e)) by reflexivity. cbn [fst].
  erewrite bind_raise; [reflexivity|].
  erewrite zoom_run; [reflexivity|exact Hdeal].
Qed.

(** What a successful [start_game] has done. *)
Lemma start_game_ok room_id player_id m m' :
  RoomManager.start_game room_id player_id m = (Ok tt, m') →
  ∃ r g0 e1 rs gs r' e',
    RoomManager.rooms m !! room_id = Some r
    ∧ Room.host_id r = player_id ∧ Room.phase r = waiting
    ∧ RoomManager.deal_round r (RoomManager.entropy m) = (Ok g0, e1)
    ∧ dealt_ok (length (Room.seats r)) g0
    ∧ RoomManager._resolve_initial_naturals (armed r g0) = (Ok tt, rs)
    ∧ settles natural (armed r g0) g0 (seq 0 (length (Room.seats r))) rs
    ∧ Room.game rs = Some gs
    ∧ m' = RoomManager.mk (<[room_id := r']> (RoomManager.rooms m)) e'
    ∧ in_round g0 r'
    ∧ same_frame r r'
    ∧ (natural (Game.dealer g0) = true → finalized rs gs (Game.dealer g0) r').
Proof.
  intros Hrun.
  destruct (RoomManager.rooms m !! room_id) as [r|] eqn:Hr;
    [|by rewrite (start_game_missing _ _ _ Hr) in Hrun].
  destruct (start_game_unfold room_id player_id m r Hr)
    as [(code & detail & E)|(Hhost & Hph & E)]; rewrite E in Hrun; [done|].
  destruct (decide (1 ≤ length (Room.seats r) ≤ 8)%nat) as [Hn|Hn].
  - destruct (deal_round_run r (RoomManager.entropy m) Hn) as (g0 & e1 & Hdeal & Hok).
    destruct (start_round_run r _ g0 e1 Hdeal Hok)
      as (rs & gs & r' & e' & Hres & Hset & Hgs & Hstart & Hround & Hframe & Hnat).
    rewrite (on_room_run _ _ _ _ _ _ _ Hstart) in Hrun. injection Hrun as <-.
    by exists r, g0, e1, rs, gs, r', e'.
  - destruct (start_round_refused r (RoomManager.entropy m) Hn) as [msg Hstart].
    by rewrite (on_room_run _ _ _ _ _ _ _ Hstart) in Hrun.
Qed.

(** ** Rounds *)

Lemma seat_finished_is_finished r i :
  seat_finished r i ↔ RoomManager._is_finished r i = Ok true.
Proof.
  split.
  - intros (seat & g & p & Hs & Hg & Hp & Hor).
    rewrite (is_finished_run _ _ _ _ _ Hg Hs Hp). f_equal. unfold done_flag.
    destruct Hor as [->|[->|[H|H]]]; rewrite ?orb_true_r; try done.
    + destruct (Z.gtb_spec (Player.score p) 21); [|lia]. by rewrite ?orb_true_r.
    + destruct (Z.geb_spec (Z.of_nat (length (Player.hand p))) 5); [|lia].
      by rewrite ?orb_true_r.
  - intros Hf. apply is_finished_inv in Hf as (g & seat & p & Hg & Hs & Hp & Hflag).
    exists seat, g, p. repeat (split; [done|]). unfold done_flag in Hflag.
    symmetry in Hflag. rewrite !orb_true_iff in Hflag.
    destruct Hflag as [[[?|?]|H]|H]; [by left|by right; left|..].
    + right; right; left. destruct (Z.gtb_spec (Player.score p) 21); [lia|done].
    + right; right; right.
      destruct (Z.geb_spec (Z.of_nat (length (Player.hand p))) 5); [lia|done].
Qed.

(** The room of a round along any sequence of successful actions. *)
Lemma round_trace g0 rid m m' :
  rtc action_step m m' →
  ∀ r, RoomManager.rooms m !! rid = Some r → in_round g0 r →
  ∃ r', RoomManager.rooms m' !! rid = Some r'
        ∧ in_round g0 r'
        ∧ same_frame r r'
        ∧ Room.current_player_index r ≤ Room.current_player_index r'
        ∧ ∀ i, RoomManager._is_finished r i = Ok true →
               RoomManager._is_finished r' i = Ok true.
Proof.
  induction 1 as [m|m m1 m' (room_id & player_id & action & Hstep) _ IH];
    intros r Hr Hround.
  - exists r. do 3 (split; [done|]). split; [lia|done].
  - assert (∃ r1, RoomManager.rooms m1 !! rid = Some r1
                  ∧ in_round g0 r1 ∧ same_frame r r1
                  ∧ Room.current_player_index r ≤ Room.current_player_index r1
                  ∧ ∀ i, RoomManager._is_finished r i = Ok true →
                         RoomManager._is_finished r1 i = Ok true)
      as (r1 & Hr1 & Hround1 & Hframe1 & Hle1 & Hmono1).
    { destruct (decide (rid = room_id)) as [->|Hne].
      - by eapply player_action_step.
      - exists r. rewrite (player_action_other _ _ _ _ _ _ rid Hstep Hne).
        do 3 (split; [done|]). split; [lia|done]. }
    destruct (IH r1 Hr1 Hround1) as (r' & Hr' & Hround' & Hframe' & Hle' & Hmono').
    exists r'. split; [done|]. split; [done|]. split; [|split; [lia|]].
    + destruct Hframe1 as (? & ? & ? & ?), Hframe' as (? & ? & ? & ?).
      unfold same_frame. split_and!; congruence.
    + intros i Hi. by apply Hmono', Hmono1.
Qed.

(** C3. Within a round, from a successful [start_game] on, along every
    sequence of successful [player_action] calls: the turn index of the room
    never decreases, so when it moves it moves to a strictly larger index; and
    a seat that is resolved, stood, above 21 or holding 5 cards at some point
    is not the active turn at that point or at any later one. *)
Theorem turn_index_only_advances
    (m0 m1 ma mb : RoomManager.t) (room_id host : string) :
  RoomManager.start_game room_id host m0 = (Ok tt, m1) →
  rtc action_step m1 ma → rtc action_step ma mb →
  ∃ ra rb,
    RoomManager.rooms ma !! room_id = Some ra
    ∧ RoomManager.rooms mb !! room_id = Some rb
    ∧ (Room.current_player_index rb = Room.current_player_index ra
       ∨ Room.current_player_index ra < Room.current_player_index rb)
    ∧ ∀ i, seat_finished ra i →
           ¬ (Room.phase rb = player_turns
              ∧ Room.current_player_index rb = Z.of_nat i).
Proof.
  intros Hstart Ha Hb.
  destruct (start_game_ok _ _ _ _ Hstart)
    as (r & g0 & e1 & rs & gs & r1 & e' & _ & _ & _ & _ & _ & _ & _ & _ & -> & Hround & _).
  destruct (round_trace g0 room_id _ _ Ha r1) as (ra & Hra & Hrounda & _);
    [cbn; by rewrite lookup_insert_eq|done|].
  destruct (round_trace g0 room_id _ _ Hb ra Hra Hrounda)
    as (rb & Hrb & Hroundb & _ & Hle & Hmono).
  exists ra, rb. split; [done|]. split; [done|]. split; [lia|].
  intros i Hfin [Hph Hcur]. apply seat_finished_is_finished, Hmono in Hfin.
  destruct Hroundb as (_ & _ & _ & g & _ & _ & _ & _ & Hturn & _).
  destruct (Hturn Hph) as (cur & Hcur' & Hf & _).
  assert (cur = i) as -> by lia. congruence.
Qed.

Lemma tag_of_nonempty p d : tag_of p d ≠ "".
Proof. unfold tag_of. repeat case_match; discriminate. Qed.

Lemma player_action_not_in_turns room_id player_id action m r :
  RoomManager.rooms m !! room_id = Some r → Room.phase r ≠ player_turns →
  RoomManager.player_action room_id player_id action m
  = (Raise (HTTPException 400 "Not in player turns"), m).
Proof.
  intros Hr Hph. unfold RoomManager.player_action.
  rewrite (bind_ok _ _ m m m) by reflexivity. rewrite Hr.
  by rewrite bool_decide_true.
Qed.

(** C5. If the dealer's two cards of the initial deal are a blackjack or a
    golden blackjack, then when [start_game] returns the room is in [results],
    every seat is resolved with the tag [evaluate_winner] gives on the dealt
    hands (a non-empty string), nobody has drawn a card since the deal, and
    every [player_action] on the room is refused: no player turn occurs.  With
    one seat whose player has no natural and a dealer dealt two aces the tag
    is "Dealer wins with Golden Blackjack". *)
Theorem dealer_natural_ends_round
    (m m' : RoomManager.t) (room_id host : string) (r : Room.t)
    (g0 : Game.t) (e1 : Entropy) :
  RoomManager.start_game room_id host m = (Ok tt, m') →
  RoomManager.rooms m !! room_id = Some r →
  RoomManager.deal_round r (RoomManager.entropy m) = (Ok g0, e1) →
  _is_blackjack (Game.dealer g0) || _is_golden_blackjack (Game.dealer g0) = true →
  ∃ r' g',
    RoomManager.rooms m' !! room_id = Some r'
    ∧ Room.phase r' = results
    ∧ Room.game r' = Some g'
    ∧ Game.dealer g' = Game.dealer g0
    ∧ hands (Game.players g') = hands (Game.players g0)
    ∧ length (Room.seats r') = length (Room.seats r)
    ∧ (∀ i seat, Room.seats r' !! i = Some seat →
         PlayerSeat.resolved seat = true
         ∧ Game.evaluate_winner g0 (Z.of_nat i) = Ok (PlayerSeat.result seat)
         ∧ PlayerSeat.result seat ≠ "")
    ∧ (∀ player_id action,
         RoomManager.player_action room_id player_id action m'
         = (Raise (HTTPException 400 "Not in player turns"), m'))
    ∧ (length (Room.seats r) = 1%nat →
       _is_golden_blackjack (Game.dealer g0) = true →
       ∀ p0 seat,
         Game.players g0 !! 0%nat = Some p0 →
         _is_blackjack p0 || _is_golden_blackjack p0 = false →
         Room.seats r' !! 0%nat = Some seat →
         PlayerSeat.result seat = "Dealer wins with Golden Blackjack").
Proof.
  intros Hstart Hr Hdeal Hnd.
  destruct (start_game_ok _ _ _ _ Hstart)
    as (r_ & g0_ & e1_ & rs & gs & r' & e' & Hr_ & _ & _ & Hdeal_ & Hok & _ & Hset
        & Hgs & -> & _ & Hframe & Hfin).
  rewrite Hr in Hr_. injection Hr_ as <-.
  rewrite Hdeal in Hdeal_. injection Hdeal_ as <- <-.
  specialize (Hfin Hnd).
  destruct Hok as (Hn & _).
  destruct (settles_naturals r g0 _ rs (eq_sym Hn) Hset eq_refl)
    as (gs' & [Hgs' Hlens] & _ & Hlen0 & Hnat).
  assert (gs' = gs) as -> by congruence.
  destruct Hfin as (_ & _ & _ & Hph & _ & Hlen' & g' & Hg' & Hd' & Hl' & Hall).
  assert (∀ i p0, Game.players g0 !! i = Some p0 →
            ∃ seat_s p', Room.seats r' !! i
                         = Some (settled (tag_of p0 (Game.dealer g0)) seat_s)
                         ∧ Game.players g' !! i = Some p'
                         ∧ Player.hand p' = Player.hand p0) as Hseat.
  { intros i p0 Hp0.
    destruct (Hnat i p0 Hp0) as (seat_s & p_s & Hs & Hp & Hsc & _).
    destruct (Hall i seat_s p_s Hs Hp) as (p' & Hp' & Hsc' & Hs').
    exists seat_s, p'. rewrite Hs', (tag_of_same_cards _ _ _ Hsc).
    split; [done|]. split; [done|]. destruct Hsc, Hsc'. congruence. }
  exists r', g'. split; [cbn; by rewrite lookup_insert_eq|].
  split; [done|]. split; [done|]. split; [done|]. split; [|split; [|split; [|split]]].
  - apply list_eq. intros i. unfold hands. rewrite !list_lookup_fmap.
    destruct (Game.players g0 !! i) as [p0|] eqn:Hp0.
    + destruct (Hseat i p0 Hp0) as (_ & p' & _ & -> & Hh). cbn. by rewrite Hh.
    + apply lookup_ge_None in Hp0. rewrite lookup_ge_None_2; [done|]. lia.
  - destruct Hframe as (_ & _ & _ & ->). done.
  - intros i seat Hs.
    destruct (lookup_lt_is_Some_2 (Game.players g0) i) as [p0 Hp0].
    { apply lookup_lt_Some in Hs. lia. }
    destruct (Hseat i p0 Hp0) as (seat_s & _ & Hs' & _).
    rewrite Hs in Hs'. injection Hs' as ->. cbn.
    split; [done|]. split; [by apply evaluate_winner_tag|apply tag_of_nonempty].
  - intros player_id action. apply (player_action_not_in_turns _ _ _ _ r').
    + cbn. by rewrite lookup_insert_eq.
    + rewrite Hph. discriminate.
  - intros _ Hgold p0 seat Hp0 Hn0 Hs.
    destruct (Hseat 0%nat p0 Hp0) as (seat_s & _ & Hs' & _).
    rewrite Hs in Hs'. injection Hs' as ->. cbn.
    apply orb_false_iff in Hn0 as [_ Hg0].
    rewrite is_golden_blackjack_main in Hg0, Hgold.
    unfold tag_of. by rewrite Hg0, Hgold.
Qed.

(** C7. A seat that [_resolve_initial_naturals] resolved at deal time holds,
    at every later point of the round and so when the room is in [results],
    the result written then: dealer resolution and finalization do not change
    it. *)
Theorem natural_result_is_kept
    (m0 m1 m2 : RoomManager.t) (room_id host : string) (r0 rs r2 : Room.t)
    (g0 : Game.t) (e1 : Entropy) :
  RoomManager.start_game room_id host m0 = (Ok tt, m1) →
  RoomManager.rooms m0 !! room_id = Some r0 →
  RoomManager.deal_round r0 (RoomManager.entropy m0) = (Ok g0, e1) →
  RoomManager._resolve_initial_naturals (armed r0 g0) = (Ok tt, rs) →
  rtc action_step m1 m2 →
  RoomManager.rooms m2 !! room_id = Some r2 →
  ∀ i seat_s,
    Room.seats rs !! i = Some seat_s → PlayerSeat.resolved seat_s = true →
    ∃ seat, Room.seats r2 !! i = Some seat
            ∧ PlayerSeat.resolved seat = true
            ∧ PlayerSeat.result seat = PlayerSeat.result seat_s.
Proof.
  intros Hstart Hr0 Hdeal Hres Hsteps Hr2 i seat_s Hs Hresolved.
  destruct (start_game_ok _ _ _ _ Hstart)
    as (r_ & g0_ & e1_ & rs_ & gs & r1 & e' & Hr_ & _ & _ & Hdeal_ & Hok & Hres_ & Hset
        & Hgs & -> & Hround & _).
  rewrite Hr0 in Hr_. injection Hr_ as <-.
  rewrite Hdeal in Hdeal_. injection Hdeal_ as <- <-.
  rewrite Hres in Hres_. injection Hres_ as <-.
  destruct Hok as (Hn & _).
  destruct (settles_naturals r0 g0 _ rs (eq_sym Hn) Hset eq_refl)
    as (gs' & [_ Hlens] & _ & Hlen0 & Hnat).
  destruct (lookup_lt_is_Some_2 (Game.players g0) i) as [p0 Hp0].
  { apply lookup_lt_Some in Hs. lia. }
  destruct (Hnat i p0 Hp0) as (seat_s' & _ & Hs' & _ & _ & Hyes & Hno).
  rewrite Hs in Hs'. injection Hs' as <-.
  destruct (natural p0) eqn:Hn0; [|rewrite (Hno eq_refl) in Hresolved; done].
  destruct (Hyes eq_refl) as [_ Htag].
  destruct (round_trace g0 room_id _ _ Hsteps r1) as (r2_ & Hr2_ & Hround2 & _);
    [cbn; by rewrite lookup_insert_eq|done|].
  rewrite Hr2 in Hr2_. injection Hr2_ as <-.
  destruct Hround2 as (_ & _ & _ & g2 & _ & _ & _ & Hnat2 & _).
  destruct (Hnat2 i p0 Hp0 Hn0) as (seat & _ & Hseat & _ & Hr & Hres2 & _).
  exists seat. by rewrite Htag.
Qed.

(** ** C4: refused calls *)

Lemma find_from_not_seated seats player_id : ∀ i,
  (∀ seat, seat ∈ seats → PlayerSeat.player_id seat ≠ player_id) →
  Room.find_from i seats player_id = -1.
Proof.
  induction seats as [|seat seats IH]; intros i Hno; [done|].
  cbn [Room.find_from]. rewrite bool_decide_false by (apply Hno; left).
  apply IH. intros s Hs. apply Hno. by right.
Qed.

Lemma join_room_refused m room_id player_name :
  join_refused m room_id →
  ∃ code detail,
    RoomManager.join_room room_id player_name m
    = (Raise (HTTPException code detail), m).
Proof.
  unfold join_refused, RoomManager.join_room. intros Href.
  rewrite (bind_ok _ _ m m m) by reflexivity.
  destruct (RoomManager.rooms m !! room_id) as [r|]; [|by eexists _, _].
  case_bool_decide as Hph; [by eexists _, _|].
  destruct (Z.geb_spec (Z.of_nat (length (Room.seats r))) (Room.max_players r));
    [by eexists _, _|].
  destruct Href; [done|lia].
Qed.

Lemma start_game_refused m room_id player_id :
  start_refused m room_id player_id →
  ∃ code detail,
    RoomManager.start_game room_id player_id m
    = (Raise (HTTPException code detail), m).
Proof.
  unfold start_refused, RoomManager.start_game. intros Href.
  rewrite (bind_ok _ _ m m m) by reflexivity.
  destruct (RoomManager.rooms m !! room_id) as [r|]; [|by eexists _, _].
  case_bool_decide as Hhost; [by eexists _, _|].
  case_bool_decide as Hph; [by eexists _, _|].
  destruct Href; done.
Qed.

Lemma player_action_refused m room_id player_id action :
  action_refused m room_id player_id action →
  ∃ code detail,
    RoomManager.player_action room_id player_id action m
    = (Raise (HTTPException code detail), m).
Proof.
  unfold action_refused. intros Href.
  destruct (RoomManager.rooms m !! room_id) as [r|] eqn:Hr;
    [|rewrite (player_action_missing _ _ _ _ Hr); by eexists _, _].
  unfold RoomManager.player_action.
  rewrite (bind_ok _ _ m m m) by reflexivity. rewrite Hr.
  case_bool_decide as Hph; [by eexists _, _|].
  case_bool_decide as Hidx; [by eexists _, _|].
  case_bool_decide as Hcur; [by eexists _, _|].
  destruct (find_from_range (Room.seats r) player_id 0) as [Hm1|(k & Hk & Hrange)];
    [by unfold Room.find_player_index in Hidx|].
  unfold Room.find_player_index in *. rewrite Hk in *.
  destruct (lookup_lt_is_Some_2 (Room.seats r) k) as [seat Hs]; [lia|].
  erewrite bind_ok.
  2:{ unfold lift. by rewrite index_Z_of_nat, (index_lookup _ _ _ Hs). }
  destruct (PlayerSeat.resolved seat) eqn:Hres; [by eexists _, _|].
  case_bool_decide as Hact; [by eexists _, _|].
  exfalso. destruct Href as [?|[Hno|[?|[(seat' & Hs' & Hres')|[Hh Hst]]]]]; try done.
  - rewrite (find_from_not_seated _ _ _ Hno) in Hk. lia.
  - rewrite Nat2Z.id, Hs in Hs'. injection Hs' as <-. congruence.
  - apply elem_of_cons in Hact as [?|Hact]; [done|].
    by apply list_elem_of_singleton in Hact.
Qed.

(** ** C8: creating rooms *)

Lemma create_room_run player_name max_players m :
  ∃ e',
    RoomManager.create_room player_name max_players m
    = (Ok (next_room_id m, next_host_id m),
       RoomManager.mk
         (<[next_room_id m :=
              Room.__init__ (next_room_id m) (next_host_id m)
                [PlayerSeat.__init__ (next_host_id m) (py_strip player_name)]
                max_players]> (RoomManager.rooms m)) e').
Proof.
  destruct m as [rooms [sp su uh uu]]. eexists. unfold RoomManager.create_room.
  erewrite bind_ok.
  2:{ unfold RoomManager.on_entropy, RoomManager._new_room_id.
      erewrite zoom_run; [reflexivity|]. erewrite bind_ok by reflexivity.
      reflexivity. }
  erewrite bind_ok.
  2:{ unfold RoomManager.on_entropy, RoomManager._new_player_id.
      erewrite zoom_run; [reflexivity|]. erewrite bind_ok by reflexivity.
      reflexivity. }
  erewrite bind_ok by reflexivity. reflexivity.
Qed.

(** Two successive [create_room] calls can return the same room identifier;
    the second room then replaces the first and the table does not grow. *)
Lemma create_room_can_collide :
  fst collision_first = Ok ("C0FFEE", "c0ffee100000")
  ∧ fst collision_second = Ok ("C0FFEE", "c0ffee300000")
  ∧ size (RoomManager.rooms (snd collision_first)) = 1%nat
  ∧ size (RoomManager.rooms (snd collision_second)) = 1%nat
  ∧ Room.host_id <$> RoomManager.rooms (snd collision_first) !! "C0FFEE"
    = Some "c0ffee100000"
  ∧ Room.host_id <$> RoomManager.rooms (snd collision_second) !! "C0FFEE"
    = Some "c0ffee300000".
Proof. vm_compute. repeat split. Qed.

(** [create_room] in full: the two identifiers are cut from the next two
    UUIDs, and the room goes into the table under the first, whatever was
    there. *)
Lemma create_room_exact player_name max_players m :
  RoomManager.create_room player_name max_players m
  = (Ok (next_room_id m, next_host_id m),
     RoomManager.mk
       (<[next_room_id m :=
            Room.__init__ (next_room_id m) (next_host_id m)
              [PlayerSeat.__init__ (next_host_id m) (py_strip player_name)]
              max_players]> (RoomManager.rooms m))
       {| shuffle_picks := shuffle_picks (RoomManager.entropy m);
          shuffles_used := shuffles_used (RoomManager.entropy m);
          uuid_hex := uuid_hex (RoomManager.entropy m);
          uuids_used := S (S (uuids_used (RoomManager.entropy m))) |}).
Proof.
  destruct m as [rooms [sp su uh uu]]. unfold RoomManager.create_room.
  erewrite bind_ok.
  2:{ unfold RoomManager.on_entropy, RoomManager._new_room_id.
      erewrite zoom_run; [reflexivity|]. erewrite bind_ok by reflexivity.
      reflexivity. }
  erewrite bind_ok.
  2:{ unfold RoomManager.on_entropy, RoomManager._new_player_id.
      erewrite zoom_run; [reflexivity|]. erewrite bind_ok by reflexivity.
      reflexivity. }
  erewrite bind_ok by reflexivity. reflexivity.
Qed.

(** C8, amended. Along any sequence of [create_room] calls the identifiers
    returned are the upper-cased first six digits of every second UUID the
    random source gives, nothing else deciding them; each is a key of the
    table afterwards and names a waiting room with one seat and no engine;
    the rooms under keys that were not returned are as before.  The table
    grows by at most one entry per call, and it grows by exactly one entry per
    call precisely when the identifiers returned are pairwise distinct and
    none was a key before: a call whose identifier is already a key replaces
    the room stored there. *)
Theorem create_room_adds_or_replaces (m m' : RoomManager.t) (ids : list string) :
  creates m ids m' →
  ids = map (λ k, py_upper (py_prefix 6
                     (uuid_hex (RoomManager.entropy m)
                        (uuids_used (RoomManager.entropy m) + 2 * k)%nat)))
            (seq 0 (length ids))
  ∧ (∀ room_id, is_Some (RoomManager.rooms m' !! room_id)
                ↔ is_Some (RoomManager.rooms m !! room_id) ∨ room_id ∈ ids)
  ∧ (∀ room_id, room_id ∉ ids →
                RoomManager.rooms m' !! room_id = RoomManager.rooms m !! room_id)
  ∧ (∀ room_id, room_id ∈ ids →
       ∃ r, RoomManager.rooms m' !! room_id = Some r
            ∧ Room.room_id r = room_id ∧ Room.phase r = waiting
            ∧ length (Room.seats r) = 1%nat ∧ Room.game r = None)
  ∧ (size (RoomManager.rooms m') ≤ size (RoomManager.rooms m) + length ids)%nat
  ∧ (size (RoomManager.rooms m') = (size (RoomManager.rooms m) + length ids)%nat
     ↔ NoDup ids ∧ ∀ room_id, room_id ∈ ids → RoomManager.rooms m !! room_id = None).
Proof.
  induction 1 as [m|m player_name max_players room_id player_id m1 ids m2
                    Hcreate _ (IHids & IHdom & IHout & IHin & IHle & IHeq)].
  - split; [done|]. split; [intros rid; rewrite elem_of_nil; tauto|].
    split; [done|]. split; [intros rid Hin; by apply elem_of_nil in Hin|].
    split; [simpl; lia|]. split; [intros _; split; [constructor|]|simpl; lia].
    intros rid Hin. by apply elem_of_nil in Hin.
  - rewrite (create_room_exact player_name max_players m) in Hcreate.
    injection Hcreate as <- <- <-. cbn [RoomManager.rooms RoomManager.entropy
      uuid_hex uuids_used] in *.
    set (rid := next_room_id m) in *.
    set (room := Room.__init__ rid (next_host_id m)
                   [PlayerSeat.__init__ (next_host_id m) (py_strip player_name)]
                   max_players) in *.
    assert (size (<[rid := room]> (RoomManager.rooms m))
            = match RoomManager.rooms m !! rid with
              | Some _ => size (RoomManager.rooms m)
              | None => S (size (RoomManager.rooms m))
              end) as Hsize.
    { rewrite map_size_insert. by destruct (RoomManager.rooms m !! rid). }
    split; [|split; [|split; [|split; [|split]]]].
    + cbn [length seq map]. f_equal.
      { unfold rid, next_room_id. by rewrite Nat.add_0_r. }
      rewrite IHids at 1. rewrite <- fmap_S_seq.
      change (map ?f (S <$> ?l)) with (f <$> (S <$> l)).
      rewrite <- list_fmap_compose. apply list_fmap_ext. intros _ k _. cbn.
      do 3 f_equal. lia.
    + intros x. rewrite IHdom, lookup_insert_is_Some, elem_of_cons.
      destruct (decide (rid = x)) as [->|Hne]; [tauto|].
      split; [intros [[?|[_ ?]]|?]; tauto|intros [?|[?|?]]; [|congruence|]; tauto].
    + intros x Hx. apply not_elem_of_cons in Hx as [Hne Hx].
      rewrite (IHout x Hx). by rewrite lookup_insert_ne.
    + intros x Hx. destruct (decide (x ∈ ids)) as [Hin|Hout]; [by apply IHin|].
      apply elem_of_cons in Hx as [->|Hx]; [|done].
      exists room. rewrite (IHout rid Hout), lookup_insert_eq. done.
    + cbn [length]. rewrite Hsize in IHle.
      destruct (RoomManager.rooms m !! rid); lia.
    + cbn [length]. rewrite NoDup_cons. rewrite Hsize in IHle, IHeq. split.
      * intros Htotal.
        destruct (RoomManager.rooms m !! rid) eqn:Hrid; [lia|].
        destruct IHeq as [IHeq _]. destruct IHeq as [Hnd Hfresh]; [lia|].
        assert (rid ∉ ids) as Hnotin.
        { intros Hin. specialize (Hfresh rid Hin). by rewrite lookup_insert_eq in Hfresh. }
        split; [done|]. intros x [->|Hx]%elem_of_cons; [done|].
        specialize (Hfresh x Hx).
        rewrite lookup_insert_ne in Hfresh; [done|]. by intros <-.
      * intros [[Hnotin Hnd] Hfresh].
        rewrite (Hfresh rid) in * by left.
        destruct IHeq as [_ IHeq]. rewrite IHeq; [lia|]. split; [done|].
        intros x Hx. rewrite lookup_insert_ne; [apply Hfresh; by right|].
        by intros <-.
Qed.

(** ** C9: what [get_state] hides *)

Lemma card_view_hidden (hide : bool) (cards : list Card) :
  hide = true →
  Forall (λ c, c = HiddenCard) (map (RoomManager.card_view hide) cards).
Proof. intros ->. apply Forall_forall. intros c Hc. apply list_elem_of_fmap in Hc as (? & -> & _). done. Qed.

Lemma card_view_hides (cards : list Card) :
  map (RoomManager.card_view true) cards = replicate (length cards) HiddenCard.
Proof. induction cards as [|c cards IH]; [done|]. cbn. by rewrite <- IH. Qed.

Lemma player_view_run r g idx seat p :
  Room.game r = Some g → Game.players g !! idx = Some p →
  ∃ pv, RoomManager.player_view r idx seat = Ok pv
        ∧ length (pv_cards pv) = length (Player.hand p)
        ∧ ((pv_score pv = PyStr "?" ∧ Forall (λ c, c = HiddenCard) (pv_cards pv))
           ↔ (Room.phase r = player_turns
              ∧ Z.of_nat idx ≠ Room.current_player_index r
              ∧ PlayerSeat.resolved seat = false))
        ∧ ((Room.phase r = player_turns
            ∧ Z.of_nat idx ≠ Room.current_player_index r
            ∧ PlayerSeat.resolved seat = false) →
           pv_score pv = PyStr "?"
           ∧ pv_cards pv = replicate (length (Player.hand p)) HiddenCard)
        ∧ (¬ (Room.phase r = player_turns
              ∧ Z.of_nat idx ≠ Room.current_player_index r
              ∧ PlayerSeat.resolved seat = false) →
           pv_score pv = PyInt (Player.score p)
           ∧ pv_cards pv
             = map (λ c, ShownCard (Rank_value (rank c)) (Suit_value (suit c))
                           (_card_asset_url c))
                   (Player.hand p)).
Proof.
  intros Hg Hp. unfold RoomManager.player_view.
  rewrite (player_at_lookup _ _ _ _ Hg Hp). cbn [rbind].
  eexists. split; [reflexivity|]. cbn. split; [by rewrite length_map|].
  destruct (bool_decide (Room.phase r = player_turns)
            && bool_decide (Z.of_nat idx ≠ Room.current_player_index r)
            && negb (PlayerSeat.resolved seat)) eqn:Hhide.
  - assert (Room.phase r = player_turns
            ∧ Z.of_nat idx ≠ Room.current_player_index r
            ∧ PlayerSeat.resolved seat = false) as Hcond.
    { apply andb_true_iff in Hhide as [Hhide Hres].
      apply andb_true_iff in Hhide as [Hph Hcur].
      apply bool_decide_eq_true in Hph, Hcur. apply negb_true_iff in Hres. done. }
    split; [|split].
    + split; [done|]. intros _. split; [done|by apply card_view_hidden].
    + intros _. split; [done|apply card_view_hides].
    + intros Hno. by destruct Hno.
  - assert (¬ (Room.phase r = player_turns
               ∧ Z.of_nat idx ≠ Room.current_player_index r
               ∧ PlayerSeat.resolved seat = false)) as Hcond.
    { intros (Hph & Hcur & Hres).
      rewrite (bool_decide_true _ Hph), (bool_decide_true _ Hcur), Hres in Hhide.
      discriminate Hhide. }
    split; [|split].
    + split; [by intros [? _]|done].
    + intros Hyes. by destruct Hcond.
    + intros _. split; reflexivity.
Qed.

Lemma player_views_run r g : ∀ seats idx,
  Room.game r = Some g → (idx + length seats ≤ length (Game.players g))%nat →
  ∃ vs, RoomManager.player_views r idx seats = Ok vs
        ∧ length vs = length seats
        ∧ ∀ j seat pv, seats !! j = Some seat → vs !! j = Some pv →
            RoomManager.player_view r (idx + j) seat = Ok pv.
Proof.
  induction seats as [|seat seats IH]; intros idx Hg Hlen.
  - exists []. split; [done|]. split; [done|]. intros j s pv Hs. done.
  - simpl in Hlen. destruct (lookup_lt_is_Some_2 (Game.players g) idx) as [p Hp]; [lia|].
    destruct (player_view_run r g idx seat p Hg Hp) as (pv & Hpv & _).
    destruct (IH (S idx) Hg) as (vs & Hvs & Hl & Hall); [lia|].
    exists (pv :: vs). cbn [RoomManager.player_views]. rewrite Hpv, Hvs. cbn [rbind].
    split; [done|]. split; [simpl; by rewrite Hl|].
    intros [|j] s v Hs Hv; simpl in Hs, Hv.
    + injection Hs as <-. injection Hv as <-. by rewrite Nat.add_0_r.
    + replace (idx + S j)%nat with (S idx + j)%nat by lia. by eapply Hall.
Qed.

(** The projection of a room that is not waiting and whose engine has one
    participant per seat. *)
Lemma get_state_aligned
    (m : RoomManager.t) (room_id : string) (viewer : option string)
    (r : Room.t) (g : Game.t) :
  RoomManager.rooms m !! room_id = Some r →
  Room.phase r ≠ waiting →
  Room.game r = Some g → length (Room.seats r) = length (Game.players g) →
  ∃ resp,
    RoomManager.get_state m room_id viewer = Ok resp
    ∧ length (rs_players resp) = length (Room.seats r)
    ∧ (∀ i seat pv,
         Room.seats r !! i = Some seat → rs_players resp !! i = Some pv →
         ((pv_score pv = PyStr "?" ∧ Forall (λ c, c = HiddenCard) (pv_cards pv))
          ↔ (Room.phase r = player_turns
             ∧ Z.of_nat i ≠ Room.current_player_index r
             ∧ PlayerSeat.resolved seat = false))
         ∧ ∃ p, Game.players g !! i = Some p
                ∧ length (pv_cards pv) = length (Player.hand p)
                ∧ ((Room.phase r = player_turns
                    ∧ Z.of_nat i ≠ Room.current_player_index r
                    ∧ PlayerSeat.resolved seat = false) →
                   pv_score pv = PyStr "?"
                   ∧ pv_cards pv = replicate (length (Player.hand p)) HiddenCard)
                ∧ (¬ (Room.phase r = player_turns
                      ∧ Z.of_nat i ≠ Room.current_player_index r
                      ∧ PlayerSeat.resolved seat = false) →
                   pv_score pv = PyInt (Player.score p)
                   ∧ pv_cards pv
                     = map (λ c, ShownCard (Rank_value (rank c)) (Suit_value (suit c))
                                   (_card_asset_url c))
                           (Player.hand p)))
    ∧ ((dv_score (rs_dealer resp) = PyStr "?"
        ∧ Forall (λ c, c = HiddenCard) (dv_cards (rs_dealer resp)))
       ↔ Room.phase r = player_turns)
    ∧ length (dv_cards (rs_dealer resp)) = length (Player.hand (Game.dealer g))
    ∧ (Room.phase r = player_turns →
       dv_score (rs_dealer resp) = PyStr "?"
       ∧ dv_cards (rs_dealer resp)
         = replicate (length (Player.hand (Game.dealer g))) HiddenCard)
    ∧ (Room.phase r ≠ player_turns →
       dv_score (rs_dealer resp) = PyInt (Player.score (Game.dealer g))
       ∧ dv_cards (rs_dealer resp)
         = map (λ c, ShownCard (Rank_value (rank c)) (Suit_value (suit c))
                       (_card_asset_url c))
               (Player.hand (Game.dealer g))).
Proof.
  intros Hr Hph Hg Hlen. unfold RoomManager.get_state. rewrite Hr.
  rewrite bool_decide_false by done.
  destruct (player_views_run r g (Room.seats r) 0 Hg) as (vs & Hvs & Hl & Hall); [lia|].
  rewrite Hvs. cbn [rbind]. unfold Room.dealer_of. rewrite Hg. cbn [rbind].
  eexists. split; [reflexivity|]. cbn. split; [done|].
  split; [|split; [|split; [|split]]].
  - intros i seat pv Hs Hpv.
    destruct (lookup_lt_is_Some_2 (Game.players g) i) as [p Hp].
    { rewrite <- Hlen. by eapply lookup_lt_Some. }
    destruct (player_view_run r g i seat p Hg Hp)
      as (pv' & Hpv' & Hlen' & Hiff & Hhidden & Hshown).
    pose proof (Hall i seat pv Hs Hpv) as E. simpl in E.
    rewrite Hpv' in E. injection E as ->. split; [done|]. by exists p.
  - case_bool_decide as Hpt.
    + split; [done|]. intros _. split; [done|]. by apply card_view_hidden.
    + split; [by intros [? _]|done].
  - by rewrite length_map.
  - intros Hpt. rewrite (bool_decide_true _ Hpt). split; [done|apply card_view_hides].
  - intros Hpt. rewrite (bool_decide_false _ Hpt). split; reflexivity.
Qed.

(** ** C10: the phases a caller can observe *)

Lemma rooms_ok_insert m room_id r e :
  rooms_ok m → room_ok r →
  rooms_ok (RoomManager.mk (<[room_id := r]> (RoomManager.rooms m)) e).
Proof.
  intros Hm Hr rid r'. cbn. destruct (decide (room_id = rid)) as [->|Hne].
  - rewrite lookup_insert_eq. by intros [= <-].
  - rewrite lookup_insert_ne by done. apply Hm.
Qed.

Lemma create_room_ok player_name max_players m x m' :
  rooms_ok m → RoomManager.create_room player_name max_players m = (x, m') →
  rooms_ok m'.
Proof.
  intros Hm Hrun. destruct (create_room_run player_name max_players m) as [e' E].
  rewrite E in Hrun. injection Hrun as _ <-.
  apply rooms_ok_insert; [done|]. by left.
Qed.

Lemma join_room_unfold room_id player_name m r :
  RoomManager.rooms m !! room_id = Some r →
  (∃ code detail,
     RoomManager.join_room room_id player_name m
     = (Raise (HTTPException code detail), m))
  ∨ (Room.phase r = waiting
     ∧ ∃ player_id e',
         RoomManager.join_room room_id player_name m
         = (Ok (room_id, player_id),
            RoomManager.mk
              (<[room_id :=
                   Room.set_seats
                     (Room.seats r
                      ++ [PlayerSeat.__init__ player_id (py_strip player_name)]) r]>
                 (RoomManager.rooms m)) e')).
Proof.
  intros Hr. unfold RoomManager.join_room.
  rewrite (bind_ok _ _ m m m) by reflexivity. rewrite Hr.
  case_bool_decide as Hph; [left; by eexists _, _|].
  destruct (_ >=? _); [left; by eexists _, _|].
  right. split; [done|]. destruct m as [rooms e]. eexists _, _.
  erewrite bind_ok.
  2:{ unfold RoomManager.on_entropy, RoomManager._new_player_id.
      erewrite zoom_run; [reflexivity|]. erewrite bind_ok by reflexivity.
      reflexivity. }
  erewrite bind_ok.
  2:{ apply on_room_run. apply on_self_run. unfold Room.on_seats.
      erewrite zoom_run; reflexivity. }
  reflexivity.
Qed.

Lemma join_room_ok room_id player_name m x m' :
  rooms_ok m → RoomManager.join_room room_id player_name m = (x, m') →
  rooms_ok m'.
Proof.
  intros Hm Hrun.
  destruct (RoomManager.rooms m !! room_id) as [r|] eqn:Hr.
  - destruct (join_room_unfold room_id player_name m r Hr)
      as [(code & detail & E)|(Hph & pid & e' & E)]; rewrite E in Hrun;
      injection Hrun as _ <-; [done|].
    apply rooms_ok_insert; [done|]. by left.
  - unfold RoomManager.join_room in Hrun.
    rewrite (bind_ok _ _ m m m) in Hrun by reflexivity. rewrite Hr in Hrun.
    by injection Hrun as _ <-.
Qed.

Lemma start_game_keeps_ok room_id player_id m x m' :
  rooms_ok m → RoomManager.start_game room_id player_id m = (x, m') →
  rooms_ok m'.
Proof.
  intros Hm Hrun.
  destruct (RoomManager.rooms m !! room_id) as [r|] eqn:Hr;
    [|rewrite (start_game_missing _ _ _ Hr) in Hrun; by injection Hrun as _ <-].
  destruct (start_game_unfold room_id player_id m r Hr)
    as [(code & detail & E)|(Hhost & Hph & E)]; rewrite E in Hrun;
    [by injection Hrun as _ <-|].
  destruct (decide (1 ≤ length (Room.seats r) ≤ 8)%nat) as [Hn|Hn].
  - destruct (deal_round_run r (RoomManager.entropy m) Hn) as (g0 & e1 & Hdeal & Hok).
    destruct (start_round_run r _ g0 e1 Hdeal Hok)
      as (rs & gs & r' & e' & _ & _ & _ & Hstart & Hround & _).
    rewrite (on_room_run _ _ _ _ _ _ _ Hstart) in Hrun. injection Hrun as _ <-.
    apply rooms_ok_insert; [done|]. right. by exists g0.
  - destruct (start_round_refused r (RoomManager.entropy m) Hn) as [msg Hstart].
    rewrite (on_room_run _ _ _ _ _ _ _ Hstart) in Hrun. injection Hrun as _ <-.
    apply rooms_ok_insert; [done|]. by left.
Qed.

Lemma player_action_keeps_ok room_id player_id action m x m' :
  rooms_ok m → RoomManager.player_action room_id player_id action m = (x, m') →
  rooms_ok m'.
Proof.
  intros Hm Hrun.
  destruct (RoomManager.rooms m !! room_id) as [r|] eqn:Hr;
    [|rewrite (player_action_missing _ _ _ _ Hr) in Hrun; by injection Hrun as _ <-].
  destruct (player_action_unfold room_id player_id action m r Hr)
    as [(code & detail & E)|(Hph & idx & Hcur & E)]; rewrite E in Hrun;
    [by injection Hrun as _ <-|].
  destruct (Hm room_id r Hr) as [Hw|[g0 Hround]]; [congruence|].
  destruct (play_run g0 r (RoomManager.entropy m) idx (py_strip (py_lower action))
              Hround Hph Hcur) as (r' & e' & Hplay & Hround' & _).
  rewrite (on_room_run _ _ _ _ _ _ _ Hplay) in Hrun. injection Hrun as _ <-.
  apply rooms_ok_insert; [done|]. right. by exists g0.
Qed.

Lemma reachable_rooms_ok m : reachable m → rooms_ok m.
Proof.
  induction 1 as [e|m ? ? x m' _ IH Hrun|m ? ? x m' _ IH Hrun
                  |m ? ? x m' _ IH Hrun|m ? ? ? x m' _ IH Hrun].
  - intros rid r Hr. cbn in Hr. by rewrite lookup_empty in Hr.
  - by eapply create_room_ok.
  - by eapply join_room_ok.
  - by eapply start_game_keeps_ok.
  - by eapply player_action_keeps_ok.
Qed.

Lemma manager_eta m room_id r :
  RoomManager.rooms m !! room_id = Some r →
  RoomManager.mk (<[room_id := r]> (RoomManager.rooms m)) (RoomManager.entropy m) = m.
Proof. intros Hr. destruct m as [rooms e]. cbn in *. by rewrite insert_id. Qed.

Lemma join_room_raise_unchanged room_id player_name m e m' :
  RoomManager.join_room room_id player_name m = (Raise e, m') → m' = m.
Proof.
  intros Hrun. destruct (RoomManager.rooms m !! room_id) as [r|] eqn:Hr.
  - destruct (join_room_unfold room_id player_name m r Hr)
      as [(code & detail & E)|(_ & pid & e' & E)]; rewrite E in Hrun; [|done].
    by injection Hrun as _ <-.
  - unfold RoomManager.join_room in Hrun.
    rewrite (bind_ok _ _ m m m) in Hrun by reflexivity. rewrite Hr in Hrun.
    by injection Hrun as _ <-.
Qed.

Lemma start_game_raise_unchanged room_id player_id m e m' :
  RoomManager.start_game room_id player_id m = (Raise e, m') → m' = m.
Proof.
  intros Hrun.
  destruct (RoomManager.rooms m !! room_id) as [r|] eqn:Hr;
    [|rewrite (start_game_missing _ _ _ Hr) in Hrun; by injection Hrun as _ <-].
  destruct (start_game_unfold room_id player_id m r Hr)
    as [(code & detail & E)|(Hhost & Hph & E)]; rewrite E in Hrun;
    [by injection Hrun as _ <-|].
  destruct (decide (1 ≤ length (Room.seats r) ≤ 8)%nat) as [Hn|Hn].
  - destruct (deal_round_run r (RoomManager.entropy m) Hn) as (g0 & e1 & Hdeal & Hok).
    destruct (start_round_run r _ g0 e1 Hdeal Hok)
      as (rs & gs & r' & e' & _ & _ & _ & Hstart & _).
    by rewrite (on_room_run _ _ _ _ _ _ _ Hstart) in Hrun.
  - destruct (start_round_refused r (RoomManager.entropy m) Hn) as [msg Hstart].
    rewrite (on_room_run _ _ _ _ _ _ _ Hstart) in Hrun. injection Hrun as _ <-.
    by apply manager_eta.
Qed.

Lemma player_action_raise_unchanged room_id player_id action m e m' :
  rooms_ok m →
  RoomManager.player_action room_id player_id action m = (Raise e, m') → m' = m.
Proof.
  intros Hm Hrun.
  destruct (RoomManager.rooms m !! room_id) as [r|] eqn:Hr;
    [|rewrite (player_action_missing _ _ _ _ Hr) in Hrun; by injection Hrun as _ <-].
  destruct (player_action_unfold room_id player_id action m r Hr)
    as [(code & detail & E)|(Hph & idx & Hcur & E)].
  { rewrite E in Hrun. by injection Hrun as _ <-. }
  destruct (Hm room_id r Hr) as [Hw|[g0 Hround]]; [congruence|].
  destruct (player_action_total g0 room_id player_id action m r Hr Hround)
    as [(code & detail & E')|[m'' E']]; rewrite E' in Hrun; [|done].
  by injection Hrun as _ <-.
Qed.

(** The refusals one by one, each with the error the code raises for it; the
    checks come in the order of the source, so a cause is named together with
    the checks that passed before it. *)
Lemma join_room_errors m room_id player_name r :
  RoomManager.rooms m !! room_id = Some r →
  (Room.phase r ≠ waiting →
   RoomManager.join_room room_id player_name m
   = (Raise (HTTPException 400 "Game already started"), m))
  ∧ (Room.phase r = waiting →
     Room.max_players r ≤ Z.of_nat (length (Room.seats r)) →
     RoomManager.join_room room_id player_name m
     = (Raise (HTTPException 400 "Room is full"), m)).
Proof.
  intros Hr. unfold RoomManager.join_room.
  rewrite (bind_ok _ _ m m m) by reflexivity. rewrite Hr. split.
  - intros Hph. by rewrite bool_decide_true.
  - intros Hph Hfull. rewrite bool_decide_false by (intros H; by apply H).
    destruct (Z.geb_spec (Z.of_nat (length (Room.seats r))) (Room.max_players r));
      [done|lia].
Qed.

Lemma start_game_errors m room_id player_id r :
  RoomManager.rooms m !! room_id = Some r →
  (Room.host_id r ≠ player_id →
   RoomManager.start_game room_id player_id m
   = (Raise (HTTPException 403 "Only host can start the game"), m))
  ∧ (Room.host_id r = player_id → Room.phase r ≠ waiting →
     RoomManager.start_game room_id player_id m
     = (Raise (HTTPException 400 "Game already started"), m)).
Proof.
  intros Hr. unfold RoomManager.start_game.
  rewrite (bind_ok _ _ m m m) by reflexivity. rewrite Hr. split.
  - intros Hhost. by rewrite bool_decide_true.
  - intros Hhost Hph. rewrite bool_decide_false by (intros H; by apply H).
    by rewrite bool_decide_true.
Qed.

Lemma player_action_errors m room_id player_id action r :
  RoomManager.rooms m !! room_id = Some r →
  (Room.phase r ≠ player_turns →
   RoomManager.player_action room_id player_id action m
   = (Raise (HTTPException 400 "Not in player turns"), m))
  ∧ (Room.phase r = player_turns →
     (∀ seat, seat ∈ Room.seats r → PlayerSeat.player_id seat ≠ player_id) →
     RoomManager.player_action room_id player_id action m
     = (Raise (HTTPException 403 "Player not in room"), m))
  ∧ (Room.phase r = player_turns →
     Room.find_player_index r player_id ≠ -1 →
     Room.find_player_index r player_id ≠ Room.current_player_index r →
     RoomManager.player_action room_id player_id action m
     = (Raise (HTTPException 400 "Not your turn"), m))
  ∧ (Room.phase r = player_turns →
     Room.find_player_index r player_id ≠ -1 →
     Room.find_player_index r player_id = Room.current_player_index r →
     ∀ seat,
       Room.seats r !! Z.to_nat (Room.find_player_index r player_id) = Some seat →
       (PlayerSeat.resolved seat = true →
        RoomManager.player_action room_id player_id action m
        = (Raise (HTTPException 400 "Player already resolved"), m))
       ∧ (PlayerSeat.resolved seat = false →
          py_strip (py_lower action) ≠ "hit" →
          py_strip (py_lower action) ≠ "stand" →
          RoomManager.player_action room_id player_id action m
          = (Raise (HTTPException 400 "Action must be hit or stand"), m))).
Proof.
  intros Hr. unfold RoomManager.player_action.
  rewrite (bind_ok _ _ m m m) by reflexivity. rewrite Hr.
  split; [intros Hph; by rewrite bool_decide_true|].
  split.
  { intros Hph Hno. rewrite bool_decide_false by (intros H; by apply H).
    unfold Room.find_player_index. rewrite (find_from_not_seated _ _ _ Hno).
    by rewrite bool_decide_true. }
  split.
  { intros Hph Hidx Hcur. rewrite bool_decide_false by (intros H; by apply H).
    rewrite bool_decide_false by done. by rewrite bool_decide_true. }
  intros Hph Hidx Hcur seat Hs.
  rewrite bool_decide_false by (intros H; by apply H).
  rewrite bool_decide_false by done.
  rewrite bool_decide_false by (intros H; by apply H).
  destruct (find_from_range (Room.seats r) player_id 0) as [Hm1|(k & Hk & Hrange)];
    [by unfold Room.find_player_index in Hidx|].
  unfold Room.find_player_index in *. rewrite Hk in *. rewrite Nat2Z.id in Hs.
  erewrite bind_ok.
  2:{ unfold lift. by rewrite index_Z_of_nat, (index_lookup _ _ _ Hs). }
  split.
  - intros ->. reflexivity.
  - intros -> Hh Hst. rewrite bool_decide_true; [reflexivity|].
    intros [?|Hin]%elem_of_cons; [done|].
    by apply list_elem_of_singleton in Hin.
Qed.

(** C4. A call of [join_room], [start_game] or [player_action] that meets one
    of the listed causes of refusal (room missing, wrong phase, room full,
    caller not the host, player not seated, not that seat's turn, seat already
    resolved, action not hit or stand) raises an [HTTPException] and leaves the
    manager (the room table with every room's phase, seats, turn index and
    engine, and the entropy) exactly as it was; a missing room gives 404, and
    a start by someone other than the host of a waiting room gives 403 with
    the room still waiting.  More generally a call of [join_room] or
    [start_game] that raises anything, and on a reachable manager a call of
    [player_action] that raises anything, leaves the manager as it was.  Each
    cause is also given with the status code and detail the code raises for
    it: 400 "Game already started" and 400 "Room is full" for [join_room];
    403 "Only host can start the game" and 400 "Game already started" for
    [start_game]; 400 "Not in player turns", 403 "Player not in room",
    400 "Not your turn", 400 "Player already resolved" and
    400 "Action must be hit or stand" for [player_action].  The action is
    compared after [lower()] and [strip()], which removes every character
    Python counts as a space. *)
Theorem refused_calls_change_nothing (m : RoomManager.t) :
  (∀ room_id player_name,
     join_refused m room_id →
     ∃ code detail,
       RoomManager.join_room room_id player_name m
       = (Raise (HTTPException code detail), m))
  ∧ (∀ room_id player_id,
       start_refused m room_id player_id →
       ∃ code detail,
         RoomManager.start_game room_id player_id m
         = (Raise (HTTPException code detail), m))
  ∧ (∀ room_id player_id action,
       action_refused m room_id player_id action →
       ∃ code detail,
         RoomManager.player_action room_id player_id action m
         = (Raise (HTTPException code detail), m))
  ∧ (∀ room_id player_name player_id action,
       RoomManager.rooms m !! room_id = None →
       RoomManager.join_room room_id player_name m
       = (Raise (HTTPException 404 "Room not found"), m)
       ∧ RoomManager.start_game room_id player_id m
         = (Raise (HTTPException 404 "Room not found"), m)
       ∧ RoomManager.player_action room_id player_id action m
         = (Raise (HTTPException 404 "Room not found"), m))
  ∧ (∀ room_id player_id r,
       RoomManager.rooms m !! room_id = Some r →
       Room.phase r = waiting → Room.host_id r ≠ player_id →
       ∃ m', RoomManager.start_game room_id player_id m
             = (Raise (HTTPException 403 "Only host can start the game"), m')
             ∧ m' = m
             ∧ Room.phase <$> RoomManager.rooms m' !! room_id = Some waiting)
  ∧ (∀ room_id player_name e m',
       RoomManager.join_room room_id player_name m = (Raise e, m') → m' = m)
  ∧ (∀ room_id player_id e m',
       RoomManager.start_game room_id player_id m = (Raise e, m') → m' = m)
  ∧ (reachable m →
     ∀ room_id player_id action e m',
       RoomManager.player_action room_id player_id action m = (Raise e, m') →
       m' = m)
  ∧ (∀ room_id player_name r,
       RoomManager.rooms m !! room_id = Some r →
       (Room.phase r ≠ waiting →
        RoomManager.join_room room_id player_name m
        = (Raise (HTTPException 400 "Game already started"), m))
       ∧ (Room.phase r = waiting →
          Room.max_players r ≤ Z.of_nat (length (Room.seats r)) →
          RoomManager.join_room room_id player_name m
          = (Raise (HTTPException 400 "Room is full"), m)))
  ∧ (∀ room_id player_id r,
       RoomManager.rooms m !! room_id = Some r →
       (Room.host_id r ≠ player_id →
        RoomManager.start_game room_id player_id m
        = (Raise (HTTPException 403 "Only host can start the game"), m))
       ∧ (Room.host_id r = player_id → Room.phase r ≠ waiting →
          RoomManager.start_game room_id player_id m
          = (Raise (HTTPException 400 "Game already started"), m)))
  ∧ (∀ room_id player_id action r,
       RoomManager.rooms m !! room_id = Some r →
       (Room.phase r ≠ player_turns →
        RoomManager.player_action room_id player_id action m
        = (Raise (HTTPException 400 "Not in player turns"), m))
       ∧ (Room.phase r = player_turns →
          (∀ seat, seat ∈ Room.seats r → PlayerSeat.player_id seat ≠ player_id) →
          RoomManager.player_action room_id player_id action m
          = (Raise (HTTPException 403 "Player not in room"), m))
       ∧ (Room.phase r = player_turns →
          Room.find_player_index r player_id ≠ -1 →
          Room.find_player_index r player_id ≠ Room.current_player_index r →
          RoomManager.player_action room_id player_id action m
          = (Raise (HTTPException 400 "Not your turn"), m))
       ∧ (Room.phase r = player_turns →
          Room.find_player_index r player_id ≠ -1 →
          Room.find_player_index r player_id = Room.current_player_index r →
          ∀ seat,
            Room.seats r !! Z.to_nat (Room.find_player_index r player_id) = Some seat →
            (PlayerSeat.resolved seat = true →
             RoomManager.player_action room_id player_id action m
             = (Raise (HTTPException 400 "Player already resolved"), m))
            ∧ (PlayerSeat.resolved seat = false →
               py_strip (py_lower action) ≠ "hit" →
               py_strip (py_lower action) ≠ "stand" →
               RoomManager.player_action room_id player_id action m
               = (Raise (HTTPException 400 "Action must be hit or stand"), m)))).
Proof.
  split; [intros; by apply join_room_refused|].
  split; [intros; by apply start_game_refused|].
  split; [intros; by apply player_action_refused|].
  split; [|split; [|split; [|split; [|split; [|split; [|split]]]]]];
    [..|intros; by apply join_room_errors|intros; by apply start_game_errors
     |intros; by apply player_action_errors].
  - intros room_id player_name player_id action Hr.
    split; [|split; [by apply start_game_missing|by apply player_action_missing]].
    unfold RoomManager.join_room.
    rewrite (bind_ok _ _ m m m) by reflexivity. by rewrite Hr.
  - intros room_id player_id r Hr Hph Hhost. exists m.
    split; [|split; [done|by rewrite Hr; cbn; rewrite Hph]].
    unfold RoomManager.start_game.
    rewrite (bind_ok _ _ m m m) by reflexivity. rewrite Hr.
    by rewrite bool_decide_true.
  - intros room_id player_name e m'. apply join_room_raise_unchanged.
  - intros room_id player_id e m'. apply start_game_raise_unchanged.
  - intros Hreach room_id player_id action e m'.
    apply player_action_raise_unchanged. by apply reachable_rooms_ok.
Qed.

(** C9. For every room of a reachable manager that is not waiting and every
    viewer, [get_state] returns a response in which a seat has score "?" and
    all its cards hidden exactly when the phase is [player_turns] and the seat
    is neither the one at the turn index nor resolved, and the dealer has
    score "?" and all cards hidden exactly when the phase is [player_turns].
    A hidden hand is reported as one hidden card per card held and nothing
    else; a hand that is not hidden is reported with the participant's score
    and, card for card and in order, each card's rank, suit and image. *)
Theorem get_state_hides
    (m : RoomManager.t) (room_id : string) (viewer : option string) (r : Room.t) :
  reachable m →
  RoomManager.rooms m !! room_id = Some r →
  Room.phase r ≠ waiting →
  ∃ resp g,
    RoomManager.get_state m room_id viewer = Ok resp
    ∧ Room.game r = Some g
    ∧ length (rs_players resp) = length (Room.seats r)
    ∧ (∀ i seat pv,
         Room.seats r !! i = Some seat → rs_players resp !! i = Some pv →
         ((pv_score pv = PyStr "?" ∧ Forall (λ c, c = HiddenCard) (pv_cards pv))
          ↔ (Room.phase r = player_turns
             ∧ Z.of_nat i ≠ Room.current_player_index r
             ∧ PlayerSeat.resolved seat = false))
         ∧ ∃ p, Game.players g !! i = Some p
                ∧ length (pv_cards pv) = length (Player.hand p)
                ∧ ((Room.phase r = player_turns
                    ∧ Z.of_nat i ≠ Room.current_player_index r
                    ∧ PlayerSeat.resolved seat = false) →
                   pv_score pv = PyStr "?"
                   ∧ pv_cards pv = replicate (length (Player.hand p)) HiddenCard)
                ∧ (¬ (Room.phase r = player_turns
                      ∧ Z.of_nat i ≠ Room.current_player_index r
                      ∧ PlayerSeat.resolved seat = false) →
                   pv_score pv = PyInt (Player.score p)
                   ∧ pv_cards pv
                     = map (λ c, ShownCard (Rank_value (rank c)) (Suit_value (suit c))
                                   (_card_asset_url c))
                           (Player.hand p)))
    ∧ ((dv_score (rs_dealer resp) = PyStr "?"
        ∧ Forall (λ c, c = HiddenCard) (dv_cards (rs_dealer resp)))
       ↔ Room.phase r = player_turns)
    ∧ length (dv_cards (rs_dealer resp)) = length (Player.hand (Game.dealer g))
    ∧ (Room.phase r = player_turns →
       dv_score (rs_dealer resp) = PyStr "?"
       ∧ dv_cards (rs_dealer resp)
         = replicate (length (Player.hand (Game.dealer g))) HiddenCard)
    ∧ (Room.phase r ≠ player_turns →
       dv_score (rs_dealer resp) = PyInt (Player.score (Game.dealer g))
       ∧ dv_cards (rs_dealer resp)
         = map (λ c, ShownCard (Rank_value (rank c)) (Suit_value (suit c))
                       (_card_asset_url c))
               (Player.hand (Game.dealer g))).
Proof.
  intros Hreach Hr Hph.
  destruct (reachable_rooms_ok m Hreach room_id r Hr)
    as [?|(g0 & _ & _ & _ & g & [Hg Hlen] & _)]; [done|].
  destruct (get_state_aligned m room_id viewer r g Hr Hph Hg Hlen)
    as (resp & Hrun & Hrest).
  by exists resp, g.
Qed.

(** C10. After any sequence of [create_room], [join_room], [start_game] and
    [player_action] calls, returned or raised, every room is in [waiting],
    [player_turns] or [results], never in [dealer_turn]; so no response of
    [get_state] carries the phase "dealer_turn". *)
Theorem dealer_turn_is_never_observed
    (m : RoomManager.t) (room_id : string) (r : Room.t) :
  reachable m →
  RoomManager.rooms m !! room_id = Some r →
  (Room.phase r = waiting ∨ Room.phase r = player_turns ∨ Room.phase r = results)
  ∧ ∀ viewer resp,
      RoomManager.get_state m room_id viewer = Ok resp →
      rs_phase resp ≠ "dealer_turn".
Proof.
  intros Hreach Hr.
  assert (Room.phase r = waiting ∨ Room.phase r = player_turns
          ∨ Room.phase r = results) as Hph.
  { destruct (reachable_rooms_ok m Hreach room_id r Hr)
      as [?|(g0 & _ & _ & [?|?] & _)]; tauto. }
  split; [exact Hph|].
  intros viewer resp. unfold RoomManager.get_state. rewrite Hr.
  case_bool_decide.
  - intros [= <-]. cbn. destruct Hph as [-> | [-> | ->]]; discriminate.
  - destruct (RoomManager.player_views _ _ _); [|done]. cbn [rbind].
    destruct (Room.dealer_of r); [|done]. cbn [rbind].
    intros [= <-]. cbn. destruct Hph as [-> | [-> | ->]]; discriminate.
Qed.

(** * Further properties of the code *)

Section score_more.

Import Reference.

Lemma is_score_plain cards d s :
  is_score cards d s
  ↔ greatest (λ c, c ≤ 21) (candidate_totals cards) s
    ∨ ((∀ c, c ∈ candidate_totals cards → 21 < c) ∧ least (candidate_totals cards) s).
Proof.
  unfold is_score, greatest, least, threshold. split.
  - intros [(Hin & [Hlo Hhi] & Hmax) | [(Hnone & Hg) | Hl]]; [left|left|right]; try done.
    split_and!; [done..|]. intros c Hc Hc21.
    destruct (decide (s < c)) as [Hlt|]; [|lia].
    apply Hmax; [done|]. destruct d; lia.
  - intros [(Hin & Hhi & Hmax) | Hl]; [|by right; right].
    destruct (decide ((if d then 15 else 16) ≤ s)) as [Hthr|Hthr].
    + left. split_and!; [done..|]. intros c Hc [_ Hc21]. by apply Hmax.
    + right; left. split; [|done]. intros c Hc [Hlo Hc21].
      specialize (Hmax c Hc Hc21). lia.
Qed.

Lemma is_score_any_role cards d d' s : is_score cards d s → is_score cards d' s.
Proof. rewrite !is_score_plain. done. Qed.

Lemma sum_Permutation (l l' : list Z) : l ≡ₚ l' → foldr Z.add 0 l = foldr Z.add 0 l'.
Proof. induction 1; cbn; lia. Qed.

Lemma non_ace_sum_Permutation cards cards' :
  cards ≡ₚ cards' → non_ace_sum cards = non_ace_sum cards'.
Proof.
  intros H. unfold non_ace_sum. apply sum_Permutation.
  apply Permutation_map. by rewrite H.
Qed.

Lemma num_aces_Permutation cards cards' :
  cards ≡ₚ cards' → num_aces cards = num_aces cards'.
Proof. intros H. unfold num_aces. by rewrite H. Qed.

Lemma candidate_totals_Permutation cards cards' :
  cards ≡ₚ cards' → candidate_totals cards = candidate_totals cards'.
Proof.
  intros H. unfold candidate_totals.
  by rewrite (non_ace_sum_Permutation _ _ H), (num_aces_Permutation _ _ H).
Qed.

Lemma ace_assignments_bounds k : ∀ a,
  a ∈ ace_assignments k → Z.of_nat k ≤ foldr Z.add 0 a ≤ 11 * Z.of_nat k.
Proof.
  induction k as [|k IH]; intros a Ha.
  - cbn in Ha. apply list_elem_of_singleton in Ha as ->. cbn. lia.
  - cbn [ace_assignments] in Ha. apply list_elem_of_In, in_flat_map in Ha as (v & Hv & Ha).
    apply in_map_iff in Ha as (a' & <- & Ha'). apply list_elem_of_In, IH in Ha'.
    cbn [foldr]. cbn in Hv. destruct Hv as [<- | [<- | [<- | []]]]; lia.
Qed.

Lemma ace_assignments_ones k : replicate k 1 ∈ ace_assignments k.
Proof.
  induction k as [|k IH]; [cbn; by apply list_elem_of_singleton|].
  cbn [ace_assignments replicate flat_map]. apply elem_of_app. left.
  apply list_elem_of_In, in_map, list_elem_of_In, IH.
Qed.

Lemma sum_replicate_ones k : foldr Z.add 0 (replicate k 1) = Z.of_nat k.
Proof. induction k as [|k IH]; [done|]. cbn [replicate foldr]. lia. Qed.

Lemma candidate_totals_bounds cards c :
  c ∈ candidate_totals cards →
  non_ace_sum cards + Z.of_nat (num_aces cards) ≤ c
  ≤ non_ace_sum cards + 11 * Z.of_nat (num_aces cards).
Proof.
  unfold candidate_totals. intros Hc.
  apply list_elem_of_In, in_map_iff in Hc as (a & <- & Ha).
  apply list_elem_of_In, ace_assignments_bounds in Ha. lia.
Qed.

Lemma candidate_totals_low cards :
  non_ace_sum cards + Z.of_nat (num_aces cards) ∈ candidate_totals cards.
Proof.
  unfold candidate_totals. apply list_elem_of_In, in_map_iff.
  exists (replicate (num_aces cards) 1). split; [by rewrite sum_replicate_ones|].
  apply list_elem_of_In, ace_assignments_ones.
Qed.

Lemma is_score_bust cards d s :
  is_score cards d s →
  (non_ace_sum cards + Z.of_nat (num_aces cards) ≤ s
   ≤ non_ace_sum cards + 11 * Z.of_nat (num_aces cards))
  ∧ (21 < s ↔ 21 < non_ace_sum cards + Z.of_nat (num_aces cards))
  ∧ (21 < s → s = non_ace_sum cards + Z.of_nat (num_aces cards)).
Proof.
  rewrite is_score_plain. pose proof (candidate_totals_low cards) as Hlow.
  intros [(Hin & Hhi & Hmax) | (Hall & Hin & Hmin)].
  - pose proof (candidate_totals_bounds _ _ Hin). split_and!; lia.
  - pose proof (candidate_totals_bounds _ _ Hin).
    pose proof (Hall _ Hlow). pose proof (Hmin _ Hlow). pose proof (Hall _ Hin).
    split_and!; lia.
Qed.

End score_more.

(** X1. The score [calculate_score] stores does not depend on the role: it
    is the greatest candidate total that is at most 21 if there is one, and
    the least candidate total otherwise, so the thresholds 15 and 16 never
    change the outcome, and a dealer and a player holding the same cards get
    the same score. *)
Theorem calculate_score_ignores_role (p : Player.t) :
  ∃ s, Player.calculate_score p = (Ok tt, Player.set_score s p)
       ∧ (Reference.greatest (λ c, c ≤ 21) (Reference.candidate_totals (Player.hand p)) s
          ∨ ((∀ c, c ∈ Reference.candidate_totals (Player.hand p) → 21 < c)
             ∧ Reference.least (Reference.candidate_totals (Player.hand p)) s))
       ∧ ∀ q, Player.hand q = Player.hand p →
              Player.calculate_score q = (Ok tt, Player.set_score s q).
Proof.
  destruct (calculate_score_run p) as (s & Hrun & Hs). exists s.
  split; [done|]. split; [by apply is_score_plain in Hs|].
  intros q Hq. destruct (calculate_score_run q) as (s' & Hrun' & Hs').
  rewrite Hq in Hs'. apply (is_score_any_role _ _ (Player.is_dealer p)) in Hs'.
  by rewrite (is_score_unique _ _ _ _ Hs Hs').
Qed.

(** X2. The score depends on which cards are held, not on their order:
    two participants whose hands are permutations of each other, whatever
    their roles, names and earlier scores, are given the same score. *)
Theorem calculate_score_ignores_order (p q : Player.t) :
  Player.hand p ≡ₚ Player.hand q →
  Player.score (snd (Player.calculate_score p))
  = Player.score (snd (Player.calculate_score q)).
Proof.
  intros Hperm.
  destruct (calculate_score_run p) as (s & -> & Hs).
  destruct (calculate_score_run q) as (s' & -> & Hs'). cbn.
  unfold Reference.is_score in Hs.
  rewrite (candidate_totals_Permutation _ _ Hperm) in Hs.
  apply (is_score_any_role _ _ (Player.is_dealer p)) in Hs'.
  exact (is_score_unique _ _ _ _ Hs Hs').
Qed.

(** X3. The score lies between the total with every ace counted 1 and the
    total with every ace counted 11; it is over 21 exactly when the total
    with every ace counted 1 is over 21, and it is then that total. *)
Theorem calculate_score_bust (p : Player.t) :
  ∃ s, Player.calculate_score p = (Ok tt, Player.set_score s p)
       ∧ (Reference.non_ace_sum (Player.hand p) + Z.of_nat (Reference.num_aces (Player.hand p))
          ≤ s
          ≤ Reference.non_ace_sum (Player.hand p)
            + 11 * Z.of_nat (Reference.num_aces (Player.hand p)))
       ∧ (21 < s ↔ 21 < Reference.non_ace_sum (Player.hand p)
                        + Z.of_nat (Reference.num_aces (Player.hand p)))
       ∧ (21 < s → s = Reference.non_ace_sum (Player.hand p)
                       + Z.of_nat (Reference.num_aces (Player.hand p))).
Proof.
  destruct (calculate_score_run p) as (s & Hrun & Hs). exists s.
  split; [done|]. exact (is_score_bust _ _ _ Hs).
Qed.

(** ** Cards and their names *)

Lemma NoDup_map_inj_on {A B} (f : A → B) (l : list A) x y :
  NoDup (map f l) → x ∈ l → y ∈ l → f x = f y → x = y.
Proof.
  induction l as [|a l IH]; intros Hnd Hx Hy Hf; [by apply elem_of_nil in Hx|].
  cbn [map] in Hnd. apply NoDup_cons in Hnd as [Hna Hnd].
  apply elem_of_cons in Hx as [->|Hx]; apply elem_of_cons in Hy as [->|Hy]; try done.
  - exfalso. apply Hna. rewrite Hf. apply list_elem_of_In, in_map, list_elem_of_In, Hy.
  - exfalso. apply Hna. rewrite <- Hf. apply list_elem_of_In, in_map, list_elem_of_In, Hx.
  - by apply IH.
Qed.

Lemma ordered_deck_complete (c : Card) : c ∈ Game.ordered_deck.
Proof.
  apply (bool_decide_unpack (c ∈ Game.ordered_deck)).
  destruct c as [[] []]; vm_compute; exact I.
Qed.

(** X4. No two cards share an image file name, an asset URL or a printed
    form: each of [_image_filename], [_card_asset_url] and [Card.__repr__]
    tells the 52 cards apart. *)
Theorem card_names_are_distinct (c1 c2 : Card) :
  (_image_filename c1 = _image_filename c2 → c1 = c2)
  ∧ (_card_asset_url c1 = _card_asset_url c2 → c1 = c2)
  ∧ (__repr__ c1 = __repr__ c2 → c1 = c2).
Proof.
  split_and!; intros H.
  - eapply (NoDup_map_inj_on _image_filename Game.ordered_deck);
      [|apply ordered_deck_complete..|exact H].
    apply (bool_decide_unpack (NoDup (map _image_filename Game.ordered_deck))).
    vm_compute. exact I.
  - eapply (NoDup_map_inj_on _card_asset_url Game.ordered_deck);
      [|apply ordered_deck_complete..|exact H].
    apply (bool_decide_unpack (NoDup (map _card_asset_url Game.ordered_deck))).
    vm_compute. exact I.
  - eapply (NoDup_map_inj_on __repr__ Game.ordered_deck);
      [|apply ordered_deck_complete..|exact H].
    apply (bool_decide_unpack (NoDup (map __repr__ Game.ordered_deck))).
    vm_compute. exact I.
Qed.

(** ** The engine, method by method *)

Lemma Permutation_deck_facts (d : list Card) :
  d ≡ₚ Game.ordered_deck → NoDup d ∧ length d = 52%nat.
Proof.
  intros Hp. split.
  - rewrite Hp. apply ordered_deck_NoDup.
  - by rewrite Hp.
Qed.

(** X5. [Game(n)] raises [ValueError] when [n] is below 1 or above 8, each
    with its own message and without using the random source; for [n] from 1
    to 8 it returns an engine with no players, a dealer with no cards and a
    deck that is a permutation of the 52 cards, one shuffle having been
    spent. *)
Theorem Game_init_bounds (n : Z) (e : Entropy) :
  (n < 1 →
   Game.__init__ n e = (Raise (ValueError "Number of players must be at least 1"), e))
  ∧ (8 < n →
     Game.__init__ n e = (Raise (ValueError "Number of players cannot exceed 8"), e))
  ∧ (1 ≤ n ≤ 8 →
     ∃ d e', Game.__init__ n e
             = (Ok (Game.mk n [] (Player.__init__ "Dealer" true) d), e')
             ∧ d ≡ₚ Game.ordered_deck ∧ NoDup d ∧ length d = 52%nat
             ∧ shuffles_used e' = S (shuffles_used e)
             ∧ uuids_used e' = uuids_used e).
Proof.
  unfold Game.__init__. split_and!; intros Hn.
  - destruct (Z.ltb_spec n 1); [done|lia].
  - destruct (Z.ltb_spec n 1); [lia|]. destruct (Z.gtb_spec n 8); [done|lia].
  - destruct (Z.ltb_spec n 1); [lia|]. destruct (Z.gtb_spec n 8); [lia|].
    eexists _, _. split; [reflexivity|].
    pose proof (shuffle_by_Permutation (shuffle_picks e (shuffles_used e))
                  Game.ordered_deck) as Hp.
    destruct (Permutation_deck_facts _ Hp). done.
Qed.

Lemma draw_card_empty g e :
  Game.deck g = [] →
  ∃ c rest e',
    Game.draw_card (g, e) = (Ok c, (Game.set_deck rest g, e'))
    ∧ rest ++ [c] ≡ₚ Game.ordered_deck
    ∧ shuffles_used e' = S (shuffles_used e).
Proof.
  intros Hnil.
  pose proof (shuffle_by_Permutation (shuffle_picks e (shuffles_used e))
                Game.ordered_deck) as Hp.
  assert (shuffle_by (shuffle_picks e (shuffles_used e)) Game.ordered_deck ≠ []) as Hdne.
  { intros Heq. rewrite Heq in Hp. apply Permutation_nil_l in Hp. discriminate Hp. }
  destruct (snoc_inv _ Hdne) as (d' & c & Hd).
  assert (Game.create_deck e = (Ok (d' ++ [c]), snd (Game.create_deck e))) as Hcd.
  { rewrite <- Hd. reflexivity. }
  exists c, d', (snd (Game.create_deck e)). split_and!.
  - unfold Game.draw_card.
    rewrite (bind_ok _ _ _ (g, e) (g, e)) by reflexivity. cbn [fst].
    rewrite bool_decide_true by done.
    erewrite (bind_ok _ _ (g, e) tt (Game.set_deck (d' ++ [c]) g, _)).
    + unfold Game.on_self, Game.on_deck.
      erewrite zoom_run; [reflexivity|]. cbn [fst].
      erewrite zoom_run; [reflexivity|]. apply pop_snoc.
    + erewrite bind_ok.
      2:{ unfold Game.on_entropy. erewrite zoom_run; [reflexivity|]. exact Hcd. }
      reflexivity.
  - by rewrite <- Hd.
  - reflexivity.
Qed.

(** X6. [draw_card] never raises.  On a deck that is not empty it returns
    the last card and leaves the rest, touching nothing else; on an empty
    deck it first makes a new shuffled deck of 52, so that 51 cards are left,
    none of them the card returned, and one shuffle has been spent. *)
Theorem draw_card_behaviour (g : Game.t) (e : Entropy) :
  (∀ rest c, Game.deck g = rest ++ [c] →
             Game.draw_card (g, e) = (Ok c, (Game.set_deck rest g, e)))
  ∧ (Game.deck g = [] →
     ∃ c rest e',
       Game.draw_card (g, e) = (Ok c, (Game.set_deck rest g, e'))
       ∧ rest ++ [c] ≡ₚ Game.ordered_deck
       ∧ length rest = 51%nat
       ∧ (c ∉ rest)
       ∧ shuffles_used e' = S (shuffles_used e)).
Proof.
  split; [intros rest c; apply draw_card_snoc|].
  intros Hnil. destruct (draw_card_empty g e Hnil) as (c & rest & e' & Hrun & Hp & He).
  exists c, rest, e'. destruct (Permutation_deck_facts _ Hp) as [Hnd Hlen].
  split_and!; [done..| | |done].
  - rewrite length_app in Hlen. cbn in Hlen. lia.
  - apply NoDup_app in Hnd as (_ & Hdisj & _). intros Hc. apply (Hdisj c Hc).
    by apply list_elem_of_singleton.
Qed.

Lemma index_Z_range {A} (l : list A) (i : Z) :
  (- Z.of_nat (length l) ≤ i < 0 → index_Z l i = index_Z l (Z.of_nat (length l) + i))
  ∧ (i < - Z.of_nat (length l) ∨ Z.of_nat (length l) ≤ i → index_Z l i = Raise IndexError)
  ∧ (- Z.of_nat (length l) ≤ i < Z.of_nat (length l) → ∃ x, index_Z l i = Ok x).
Proof.
  unfold index_Z, index. split_and!; intros Hi.
  - destruct (Z.leb_spec 0 i); [lia|].
    destruct (Z.leb_spec (- Z.of_nat (length l)) i); [|lia].
    destruct (Z.leb_spec 0 (Z.of_nat (length l) + i)); [done|lia].
  - destruct (Z.leb_spec 0 i).
    + rewrite lookup_ge_None_2; [done|lia].
    + destruct (Z.leb_spec (- Z.of_nat (length l)) i); [lia|done].
  - destruct (Z.leb_spec 0 i).
    + destruct (lookup_lt_is_Some_2 l (Z.to_nat i)) as [x ->]; [lia|by eexists].
    + destruct (Z.leb_spec (- Z.of_nat (length l)) i); [|lia].
      destruct (lookup_lt_is_Some_2 l (Z.to_nat (Z.of_nat (length l) + i))) as [x ->];
        [lia|by eexists].
Qed.

(** X7. [evaluate_winner] indexes the players as a Python list: a negative
    index from [-len] on counts from the end and is answered like the index
    [len + i], an index outside [-len, len) raises [IndexError], and every
    index inside it is answered with a tag. *)
Theorem evaluate_winner_index (g : Game.t) (idx : Z) :
  (- Z.of_nat (length (Game.players g)) ≤ idx < 0 →
   Game.evaluate_winner g idx
   = Game.evaluate_winner g (Z.of_nat (length (Game.players g)) + idx))
  ∧ (idx < - Z.of_nat (length (Game.players g))
     ∨ Z.of_nat (length (Game.players g)) ≤ idx →
     Game.evaluate_winner g idx = Raise IndexError)
  ∧ (- Z.of_nat (length (Game.players g)) ≤ idx < Z.of_nat (length (Game.players g)) →
     ∃ tag, Game.evaluate_winner g idx = Ok tag).
Proof.
  destruct (index_Z_range (Game.players g) idx) as (Hneg & Hout & Hin).
  unfold Game.evaluate_winner. split_and!; intros Hi.
  - by rewrite (Hneg Hi).
  - by rewrite (Hout Hi).
  - destruct (Hin Hi) as [p ->]. cbn [rbind]. by eexists.
Qed.

(** X8. [check_player] raises [ValueError] for every index below 0 or from
    the number of players on, negative indices included, and leaves the engine
    as it was; for an index in range it writes the tag [evaluate_winner]
    returns into that player's [result] and changes nothing else. *)
Theorem check_player_bounds (g : Game.t) (idx : Z) :
  (idx < 0 ∨ Z.of_nat (length (Game.players g)) ≤ idx →
   Game.check_player idx g
   = (Raise (ValueError ("Player index " +:+ pretty idx +:+ " is out of range.")), g))
  ∧ (0 ≤ idx < Z.of_nat (length (Game.players g)) →
     ∃ p tag,
       Game.players g !! Z.to_nat idx = Some p
       ∧ Game.evaluate_winner g idx = Ok tag
       ∧ Game.check_player idx g
         = (Ok tt, Game.set_players
                     (<[Z.to_nat idx := Player.set_result tag p]> (Game.players g)) g)).
Proof.
  split; intros Hi.
  - unfold Game.check_player. rewrite (bind_ok _ _ g g g) by reflexivity.
    destruct (Z.ltb_spec idx 0); [done|].
    destruct (Z.geb_spec idx (Z.of_nat (length (Game.players g)))); [done|lia].
  - destruct (lookup_lt_is_Some_2 (Game.players g) (Z.to_nat idx)) as [p Hp]; [lia|].
    exists p, (tag_of p (Game.dealer g)).
    rewrite <- (Z2Nat.id idx) at 2 3 by lia.
    split; [done|]. split; [by apply evaluate_winner_tag|].
    by apply check_player_run.
Qed.

(** X9. [reset_game] never raises: it puts a new shuffled deck of 52 in
    place, empties every hand and sets every score to 0, and keeps the names,
    the roles and the [result] strings of an earlier round. *)
Theorem reset_game_keeps_results (g : Game.t) (e : Entropy) :
  ∃ g' e',
    Game.reset_game (g, e) = (Ok tt, (g', e'))
    ∧ Game.deck g' ≡ₚ Game.ordered_deck
    ∧ shuffles_used e' = S (shuffles_used e)
    ∧ Game.n_players g' = Game.n_players g
    ∧ Game.dealer g'
      = Player.mk (Player.name (Game.dealer g)) [] 0
                  (Player.is_dealer (Game.dealer g)) (Player.result (Game.dealer g))
    ∧ length (Game.players g') = length (Game.players g)
    ∧ ∀ i p, Game.players g !! i = Some p →
             Game.players g' !! i
             = Some (Player.mk (Player.name p) [] 0 (Player.is_dealer p) (Player.result p)).
Proof.
  exists (Game.set_players (map Player.reset_hand (Game.players g))
            (Game.set_dealer (Player.reset_hand (Game.dealer g))
               (Game.set_deck (shuffle_by (shuffle_picks e (shuffles_used e))
                                          Game.ordered_deck) g))),
         (snd (Game.create_deck e)).
  split; [reflexivity|].
  unfold Game.set_players, Game.set_dealer, Game.set_deck.
  cbn [Game.deck Game.dealer Game.players Game.n_players].
  split_and!; [apply shuffle_by_Permutation|done..| |].
  - by rewrite length_map.
  - intros i p Hp. change (map Player.reset_hand (Game.players g))
      with (Player.reset_hand <$> Game.players g).
    by rewrite list_lookup_fmap, Hp.
Qed.

(** X10. [add_players] appends [n_players] new players, named
    "Player 1", "Player 2", ... with no cards, score 0 and no result, after
    the players already there, which it keeps; the dealer and the deck are
    untouched. *)
Theorem add_players_appends (g : Game.t) :
  length (Game.players (Game.add_players g))
  = (length (Game.players g) + Z.to_nat (Game.n_players g))%nat
  ∧ (∀ i p, Game.players g !! i = Some p →
            Game.players (Game.add_players g) !! i = Some p)
  ∧ (∀ i, (i < Z.to_nat (Game.n_players g))%nat →
          Game.players (Game.add_players g) !! (length (Game.players g) + i)%nat
          = Some (Player.mk ("Player " +:+ pretty (i + 1)%nat) [] 0 false ""))
  ∧ Game.dealer (Game.add_players g) = Game.dealer g
  ∧ Game.deck (Game.add_players g) = Game.deck g
  ∧ Game.n_players (Game.add_players g) = Game.n_players g.
Proof.
  destruct (add_players_spec g) as (-> & -> & -> & ->).
  split_and!; [|intros i p Hp|intros i Hi|done..].
  - by rewrite length_app, length_map, length_seq.
  - by apply lookup_app_l_Some.
  - rewrite lookup_app_r by lia.
    replace (length (Game.players g) + i - length (Game.players g))%nat with i by lia.
    change (map ?f ?l) with (f <$> l).
    rewrite list_lookup_fmap, lookup_seq_lt by done. reflexivity.
Qed.

Lemma find_from_spec seats player_id : ∀ i,
  (Room.find_from i seats player_id = -1
   ∧ ∀ seat, seat ∈ seats → PlayerSeat.player_id seat ≠ player_id)
  ∨ ∃ k seat, Room.find_from i seats player_id = Z.of_nat (i + k)
              ∧ seats !! k = Some seat
              ∧ PlayerSeat.player_id seat = player_id
              ∧ ∀ j seat', (j < k)%nat → seats !! j = Some seat' →
                           PlayerSeat.player_id seat' ≠ player_id.
Proof.
  induction seats as [|seat seats IH]; intros i.
  { left. split; [done|]. intros seat Hs. by apply elem_of_nil in Hs. }
  cbn [Room.find_from]. case_bool_decide as Hid.
  - right. exists 0%nat, seat. rewrite Nat.add_0_r. split_and!; [done..|]. lia.
  - destruct (IH (S i)) as [[-> Hnone] | (k & seat' & -> & Hk & Hpid & Hbefore)].
    + left. split; [done|]. intros s [->|Hs]%elem_of_cons; [done|by apply Hnone].
    + right. exists (S k), seat'. split_and!; [f_equal; lia|done..|].
      intros [|j] s Hj Hs; cbn in Hs; [by injection Hs as <-|].
      apply (Hbefore j); [lia|done].
Qed.

(** X11. [find_player_index] returns -1 exactly when no seat carries the
    identifier; otherwise it returns the index of the first seat that does,
    which is a valid index. *)
Theorem find_player_index_first (r : Room.t) (player_id : string) :
  (Room.find_player_index r player_id = -1
   ↔ ∀ seat, seat ∈ Room.seats r → PlayerSeat.player_id seat ≠ player_id)
  ∧ (Room.find_player_index r player_id = -1
     ∨ 0 ≤ Room.find_player_index r player_id < Z.of_nat (length (Room.seats r)))
  ∧ ∀ k, Room.find_player_index r player_id = Z.of_nat k →
         (∃ seat, Room.seats r !! k = Some seat
                  ∧ PlayerSeat.player_id seat = player_id)
         ∧ ∀ j seat, (j < k)%nat → Room.seats r !! j = Some seat →
                     PlayerSeat.player_id seat ≠ player_id.
Proof.
  unfold Room.find_player_index.
  destruct (find_from_spec (Room.seats r) player_id 0)
    as [[Hm Hnone] | (k & seat & Hk & Hs & Hpid & Hbefore)].
  - rewrite Hm. split_and!; [done|by left|]. intros k Hk. lia.
  - rewrite Hk. cbn [Nat.add]. split_and!.
    + split; [lia|]. intros Hnone. exfalso.
      apply (Hnone seat); [by eapply list_elem_of_lookup_2|done].
    + right. apply lookup_lt_Some in Hs. lia.
    + intros k' Hk'. apply Nat2Z.inj in Hk' as <-. split; [by exists seat|done].
Qed.

(** X12. A player whose up-to-date score is over 21 never wins and never
    draws: [evaluate_winner] gives one of the four tags in which the dealer
    wins, and "Player busted - Dealer wins" also when the dealer's score is
    over 21 too, unless the dealer holds two aces. *)
Theorem busted_player_never_wins (g : Game.t) (idx : nat) (p : Player.t) :
  Game.players g !! idx = Some p →
  Player.calculate_score p = (Ok tt, p) →
  21 < Player.score p →
  ∃ tag,
    Game.evaluate_winner g (Z.of_nat idx) = Ok tag
    ∧ tag ∈ ["Dealer wins with Golden Blackjack"; "Dealer wins with Blackjack";
             "Dealer wins with Di Linh"; "Player busted - Dealer wins"]
    ∧ (21 < Player.score (Game.dealer g) →
       Game.is_golden_blackjack (Game.dealer g) = false →
       tag = "Player busted - Dealer wins").
Proof.
  intros Hp Hcalc Hbust. exists (tag_of p (Game.dealer g)).
  split; [by apply evaluate_winner_tag|].
  assert (sound p) as Hsound.
  { destruct (scored_spec p) as (_ & _ & _ & _ & Hs).
    unfold scored in Hs. by rewrite Hcalc in Hs. }
  assert (Game.is_golden_blackjack p = false) as Hgold.
  { destruct (Game.is_golden_blackjack p) eqn:Hg; [|done].
    rewrite <- is_golden_blackjack_main in Hg.
    pose proof (golden_score p Hsound Hg). lia. }
  assert (Game.is_blackjack p = false) as Hbj.
  { unfold Game.is_blackjack. rewrite (bool_decide_false (Player.score p = 21)) by lia.
    apply andb_false_r. }
  assert (Game.is_spirit p = false) as Hsp.
  { unfold Game.is_spirit. rewrite (bool_decide_false (Player.score p ≤ 21)) by lia.
    apply andb_false_r. }
  assert ((Player.score p >? 21) = true) as Hgt by (apply Z.gtb_lt; lia).
  unfold tag_of. rewrite Hgold, Hbj, Hsp, Hgt. cbn [andb].
  split.
  - repeat case_match; set_solver.
  - intros Hd Hdg. rewrite Hdg.
    assert (Game.is_blackjack (Game.dealer g) = false) as ->.
    { unfold Game.is_blackjack.
      rewrite (bool_decide_false (Player.score (Game.dealer g) = 21)) by lia.
      apply andb_false_r. }
    assert (Game.is_spirit (Game.dealer g) = false) as ->.
    { unfold Game.is_spirit.
      rewrite (bool_decide_false (Player.score (Game.dealer g) ≤ 21)) by lia.
      apply andb_false_r. }
    reflexivity.
Qed.

(** ** Cards are neither lost nor duplicated *)

Lemma concat_insert_snoc {A} (l : list (list A)) i x c :
  l !! i = Some x → concat (<[i := x ++ [c]]> l) ≡ₚ c :: concat l.
Proof.
  revert i. induction l as [|y l IH]; intros [|i] Hi; try done; cbn in *.
  - injection Hi as ->. rewrite <- app_assoc. cbn. symmetry. apply Permutation_middle.
  - rewrite (IH i Hi). symmetry. apply Permutation_middle.
Qed.

Lemma hands_insert ps i p : hands (<[i := p]> ps) = <[i := Player.hand p]> (hands ps).
Proof. unfold hands. change map with (@fmap list _). apply list_fmap_insert. Qed.

Lemma hands_lookup ps i p : ps !! i = Some p → hands ps !! i = Some (Player.hand p).
Proof.
  intros Hp. unfold hands. change (map Player.hand ps) with (Player.hand <$> ps).
  by rewrite list_lookup_fmap, Hp.
Qed.

Lemma length_concat_le {A} (hs : list (list A)) k :
  (∀ i h, hs !! i = Some h → (length h ≤ k)%nat) →
  (length (concat hs) ≤ k * length hs)%nat.
Proof.
  induction hs as [|h hs IH]; intros Hall; cbn; [lia|].
  rewrite length_app. pose proof (Hall 0%nat h eq_refl).
  assert (length (concat hs) ≤ k * length hs)%nat.
  { apply IH. intros i h' Hi. by apply (Hall (S i)). }
  lia.
Qed.

(** At most 45 cards are ever out: the deck keeps at least seven. *)
Lemma fair_deck g : fair g → (7 ≤ length (Game.deck g))%nat.
Proof.
  intros (Hp & Hn & [Hd _] & Hps).
  assert (length (pack g) = 52%nat) as Hlen by (by rewrite Hp).
  unfold pack in Hlen. rewrite !length_app in Hlen.
  assert (length (concat (hands (Game.players g))) ≤ 5 * length (hands (Game.players g)))%nat
    as Hc.
  { apply length_concat_le. intros i h Hh. unfold hands in Hh.
    change (map Player.hand ?l) with (Player.hand <$> l) in Hh.
    apply list_lookup_fmap_Some_1 in Hh as (p & -> & Hp').
    destruct (Hps i p Hp') as [? _]. lia. }
  unfold hands in Hc at 2. rewrite length_map in Hc. lia.
Qed.

Lemma fair_draw g : fair g → ∃ rest c, Game.deck g = rest ++ [c].
Proof.
  intros Hf. apply snoc_inv. intros Hnil. apply fair_deck in Hf.
  rewrite Hnil in Hf. cbn in Hf. lia.
Qed.

Lemma in_play_dealt c p :
  in_play p → (length (Player.hand p) < 5)%nat → in_play (dealt c p).
Proof.
  intros [Hl _] Hlt. destruct (dealt_spec c p) as (_ & Hh & _ & _ & Hs).
  split; [|done]. rewrite Hh, length_app. cbn. lia.
Qed.

Lemma fair_hit g idx p rest c :
  fair g → Game.players g !! idx = Some p → (length (Player.hand p) < 5)%nat →
  Game.deck g = rest ++ [c] →
  fair (Game.set_players (<[idx := dealt c p]> (Game.players g)) (Game.set_deck rest g)).
Proof.
  intros (Hp & Hn & Hd & Hps) Hidx Hlt Hdeck. unfold fair, pack. cbn.
  rewrite length_insert. split; [|split; [done|split; [done|]]].
  - rewrite <- Hp. unfold pack. rewrite Hdeck, hands_insert.
    destruct (dealt_spec c p) as (_ & -> & _).
    rewrite (concat_insert_snoc _ _ _ _ (hands_lookup _ _ _ Hidx)).
    rewrite <- app_assoc. cbn. apply Permutation_app_head. symmetry.
    apply Permutation_middle.
  - intros i q Hq. destruct (decide (i = idx)) as [->|Hne].
    + rewrite list_lookup_insert_eq in Hq by (by eapply lookup_lt_Some).
      injection Hq as <-. apply in_play_dealt; [by eapply Hps|done].
    + rewrite list_lookup_insert_ne in Hq by done. by eapply Hps.
Qed.

Lemma fair_dealer_hit g rest c :
  fair g → (length (Player.hand (Game.dealer g)) < 5)%nat →
  Game.deck g = rest ++ [c] →
  fair (Game.set_dealer (dealt c (Game.dealer g)) (Game.set_deck rest g)).
Proof.
  intros (Hp & Hn & Hd & Hps) Hlt Hdeck. unfold fair, pack. cbn.
  split; [|split; [done|split; [by apply in_play_dealt|done]]].
  rewrite <- Hp. unfold pack. rewrite Hdeck.
  destruct (dealt_spec c (Game.dealer g)) as (_ & -> & _).
  rewrite <- !app_assoc. apply Permutation_app_head. cbn. symmetry.
  apply Permutation_middle.
Qed.

Lemma sound_same_cards p p' : same_cards p p' → sound p → sound p'.
Proof.
  intros [Hh Hs]. unfold sound. rewrite Hh, Hs. apply is_score_any_role.
Qed.

Lemma hands_same_cards ps ps' :
  length ps' = length ps →
  (∀ i p, ps !! i = Some p → ∃ p', ps' !! i = Some p' ∧ same_cards p p') →
  hands ps' = hands ps.
Proof.
  intros Hlen Hall. apply list_eq. intros i.
  destruct (ps !! i) as [p|] eqn:Hp.
  - destruct (Hall i p Hp) as (p' & Hp' & [Hh _]).
    by rewrite (hands_lookup _ _ _ Hp), (hands_lookup _ _ _ Hp'), Hh.
  - unfold hands. change (map Player.hand ?l) with (Player.hand <$> l).
    rewrite !list_lookup_fmap, Hp.
    rewrite (lookup_ge_None_2 ps'); [done|].
    apply lookup_ge_None_1 in Hp. lia.
Qed.

Lemma fair_same_cards g g' :
  fair g → Game.deck g' = Game.deck g → Game.dealer g' = Game.dealer g →
  length (Game.players g') = length (Game.players g) →
  (∀ i p, Game.players g !! i = Some p →
          ∃ p', Game.players g' !! i = Some p' ∧ same_cards p p') →
  fair g'.
Proof.
  intros (Hp & Hn & Hd & Hps) Hdeck Hdealer Hlen Hall.
  unfold fair, pack. rewrite Hdeck, Hdealer, Hlen, (hands_same_cards _ _ Hlen Hall).
  split; [done|split; [done|split; [done|]]].
  intros i p' Hp'.
  destruct (lookup_lt_is_Some_2 (Game.players g) i) as [p Hpi].
  { rewrite <- Hlen. by eapply lookup_lt_Some. }
  destruct (Hall i p Hpi) as (q & Hq & Hsc). rewrite Hp' in Hq. injection Hq as <-.
  destruct (Hps i p Hpi) as [Hl Hs]. split; [|by eapply sound_same_cards].
  destruct Hsc as [-> _]. done.
Qed.

(** ** The dealer's turn, again *)

Lemma dealer_draws_fair fuel : ∀ g e,
  fair g → (5 ≤ fuel + length (Player.hand (Game.dealer g)))%nat →
  ∃ g', RoomManager.dealer_draws fuel (g, e) = (Ok tt, (g', e))
        ∧ fair g'
        ∧ Game.players g' = Game.players g
        ∧ dealer_done (Game.dealer g')
        ∧ dealer_played (Game.dealer g) (Game.dealer g').
Proof.
  induction fuel as [|fuel IH]; intros g e Hfair Hfuel.
  - exists g. cbn [RoomManager.dealer_draws].
    rewrite (bind_ok _ _ _ (g, e) (g, e)) by reflexivity. cbn [fst].
    destruct (Z.ltb_spec (Z.of_nat (length (Player.hand (Game.dealer g)))) 5); [lia|].
    cbn [andb]. split_and!; [done..| |by left].
    left. destruct Hfair as (_ & _ & [Hl _] & _). lia.
  - cbn [RoomManager.dealer_draws].
    rewrite (bind_ok _ _ _ (g, e) (g, e)) by reflexivity. cbn [fst].
    destruct (Z.ltb_spec (Z.of_nat (length (Player.hand (Game.dealer g)))) 5) as [Hlt|Hge].
    2:{ exists g. split_and!; [done..| |by left].
        left. destruct Hfair as (_ & _ & [Hl _] & _). lia. }
    destruct (Z.ltb_spec (Player.score (Game.dealer g)) 15) as [Hsc|Hsc].
    2:{ exists g. split_and!; [done..| |by left]. by right. }
    cbn [andb].
    destruct (fair_draw g Hfair) as (rest & c & Hdeck).
    rewrite (bind_ok _ _ _ _ _ (draw_card_snoc g e rest c Hdeck)).
    erewrite bind_ok.
    2:{ unfold Game.on_self, Game.on_dealer.
        erewrite zoom_run; [reflexivity|]. cbn [fst].
        erewrite zoom_run; [reflexivity|]. apply add_card_dealt. }
    cbn [fst snd Game.dealer Game.set_deck].
    destruct (dealt_spec c (Game.dealer g)) as (_ & Hh & _).
    edestruct (IH (Game.set_dealer (dealt c (Game.dealer g)) (Game.set_deck rest g)) e)
      as (g' & Hrun & Hfair' & Hps & Hdone & Hplayed).
    { apply fair_dealer_hit; [done|lia|done]. }
    { cbn. rewrite Hh, length_app. simpl. lia. }
    exists g'. split; [exact Hrun|]. split_and!; [done..|].
    right. split; [done|]. cbn in Hplayed.
    destruct Hplayed as [->|[_ Hl]].
    + rewrite Hh, length_app. simpl. lia.
    + rewrite Hh, length_app in Hl. simpl in Hl. lia.
Qed.

Lemma settled_people t seat :
  PlayerSeat.player_id (settled t seat) = PlayerSeat.player_id seat
  ∧ PlayerSeat.name (settled t seat) = PlayerSeat.name seat
  ∧ PlayerSeat.stood (settled t seat) = PlayerSeat.stood seat.
Proof. done. Qed.

Lemma map_eq_lookup {A B} (f : A → B) (l l' : list A) :
  length l' = length l →
  (∀ i x, l !! i = Some x → ∃ x', l' !! i = Some x' ∧ f x' = f x) →
  map f l' = map f l.
Proof.
  intros Hlen Hall. apply list_eq. intros i.
  change (map ?f ?l) with (f <$> l). rewrite !list_lookup_fmap.
  destruct (l !! i) as [x|] eqn:Hx.
  - destruct (Hall i x Hx) as (x' & -> & Hf). cbn. by rewrite Hf.
  - rewrite (lookup_ge_None_2 l'); [done|]. apply lookup_ge_None_1 in Hx. lia.
Qed.

Lemma same_people_lookup r r' :
  length (Room.seats r') = length (Room.seats r) →
  (∀ i seat, Room.seats r !! i = Some seat →
             ∃ seat', Room.seats r' !! i = Some seat'
                      ∧ PlayerSeat.player_id seat' = PlayerSeat.player_id seat
                      ∧ PlayerSeat.name seat' = PlayerSeat.name seat) →
  same_people r r'.
Proof.
  intros Hlen Hall. split; apply map_eq_lookup; try done; intros i seat Hs;
    destruct (Hall i seat Hs) as (seat' & Hs' & Hid & Hname); by exists seat'.
Qed.

Lemma same_people_refl r : same_people r r.
Proof. done. Qed.

Lemma same_people_trans r1 r2 r3 :
  same_people r1 r2 → same_people r2 r3 → same_people r1 r3.
Proof. intros [H1 H2] [H3 H4]. split; congruence. Qed.

(** What [settles] says once seats and participants correspond. *)
Lemma settles_facts sel r g done r' :
  aligned r g → settles sel r g done r' →
  ∃ g', aligned r' g'
        ∧ Game.deck g' = Game.deck g ∧ Game.dealer g' = Game.dealer g
        ∧ length (Game.players g') = length (Game.players g)
        ∧ hands (Game.players g') = hands (Game.players g)
        ∧ (fair g → fair g')
        ∧ same_people r r'
        ∧ map PlayerSeat.stood (Room.seats r') = map PlayerSeat.stood (Room.seats r)
        ∧ ∀ i seat p, Room.seats r !! i = Some seat → Game.players g !! i = Some p →
            ∃ p', Game.players g' !! i = Some p' ∧ same_cards p p'
                  ∧ Room.seats r' !! i
                    = Some (if bool_decide (i ∈ done) && sel p
                            then settled (tag_of p (Game.dealer g)) seat
                            else seat).
Proof.
  intros [Hg Hlen] (_ & _ & _ & _ & _ & Hl & g' & Hg' & Hd & Hk & Hlp & Hall).
  assert (∀ i p, Game.players g !! i = Some p →
            ∃ p', Game.players g' !! i = Some p' ∧ same_cards p p') as Hsame.
  { intros i p Hp.
    destruct (lookup_lt_is_Some_2 (Room.seats r) i) as [seat Hs].
    { rewrite Hlen. by eapply lookup_lt_Some. }
    destruct (Hall i seat p Hs Hp) as (p' & Hp' & Hsc & _). by exists p'. }
  exists g'. split_and!; try done.
  - split; [done|]. congruence.
  - by apply hands_same_cards.
  - intros Hf. by apply (fair_same_cards g g').
  - apply same_people_lookup; [done|]. intros i seat Hs.
    destruct (lookup_lt_is_Some_2 (Game.players g) i) as [p Hp].
    { rewrite <- Hlen. by eapply lookup_lt_Some. }
    destruct (Hall i seat p Hs Hp) as (p' & _ & _ & ->).
    destruct (bool_decide (i ∈ done) && sel p); by eexists.
  - apply map_eq_lookup; [done|]. intros i seat Hs.
    destruct (lookup_lt_is_Some_2 (Game.players g) i) as [p Hp].
    { rewrite <- Hlen. by eapply lookup_lt_Some. }
    destruct (Hall i seat p Hs Hp) as (p' & _ & _ & ->).
    destruct (bool_decide (i ∈ done) && sel p); by eexists.
Qed.

Lemma run_dealer_and_finalize_fair r g e :
  aligned r g → fair g →
  ∃ r' g',
    RoomManager._run_dealer_and_finalize (r, e) = (Ok tt, (r', e))
    ∧ aligned r' g' ∧ fair g'
    ∧ Room.phase r' = results
    ∧ verdicts r' g'
    ∧ same_people r r'
    ∧ hands (Game.players g') = hands (Game.players g)
    ∧ dealer_played (Game.dealer g) (Game.dealer g')
    ∧ map PlayerSeat.stood (Room.seats r') = map PlayerSeat.stood (Room.seats r).
Proof.
  intros [Hg Hlen] Hfair. unfold RoomManager._run_dealer_and_finalize.
  destruct (dealer_draws_fair RoomManager.dealer_draws_bound g e Hfair)
    as (g1 & Hdraws & Hfair1 & Hps1 & Hdone & Hplayed).
  { unfold RoomManager.dealer_draws_bound. lia. }
  set (r1 := Room.set_game (Some g1) r).
  erewrite bind_ok by (by eapply on_game_st_run).
  fold r1. rewrite (bind_ok _ _ _ (r1, e) (r1, e)) by reflexivity. cbn [fst].
  assert (aligned r1 g1) as Hal1.
  { split; [reflexivity|]. cbn. by rewrite Hps1. }
  destruct (settle_all_run r1 g1 Hal1) as (r2 & Hloop & Hset).
  erewrite bind_ok by (apply on_self_run; exact Hloop).
  erewrite on_self_run by reflexivity.
  destruct (settles_facts _ _ _ _ _ Hal1 Hset)
    as (g' & [Hg' Hlen'] & Hdeck & Hdealer & Hk & Hhands & Hf & Hpeople & Hstood & Hall).
  exists (Room.set_phase results r2), g'. split; [reflexivity|].
  split_and!; try done.
  - by apply Hf.
  - split; [by rewrite Hdealer|]. intros i seat' Hs'. cbn in Hs'.
    destruct (lookup_lt_is_Some_2 (Room.seats r1) i) as [seat Hs].
    { destruct Hset as (_ & _ & _ & _ & _ & <- & _). by eapply lookup_lt_Some. }
    destruct (lookup_lt_is_Some_2 (Game.players g1) i) as [p Hp].
    { destruct Hal1 as [_ <-]. by eapply lookup_lt_Some. }
    destruct (Hall i seat p Hs Hp) as (p' & Hp' & Hsc & Hseat).
    rewrite Hs' in Hseat. injection Hseat as ->.
    rewrite bool_decide_true
      by (apply elem_of_seq; apply lookup_lt_Some in Hs; unfold r1 in *; cbn in *; lia).
    cbn [andb]. split; [done|].
    rewrite (evaluate_winner_tag _ _ _ Hp'), Hdealer.
    by rewrite (tag_of_same_cards _ _ _ Hsc).
  - by rewrite Hhands, Hps1.
  - by rewrite Hdealer.
Qed.

(** ** Dealing, card by card *)

Lemma deal_to_concat cs : ∀ i ps,
  (i + length cs ≤ length ps)%nat →
  concat (hands (deal_to i cs ps)) ≡ₚ cs ++ concat (hands ps).
Proof.
  induction cs as [|c cs IH]; intros i ps Hlen; cbn [deal_to]; [done|].
  cbn [length] in Hlen.
  destruct (lookup_lt_is_Some_2 ps i) as [p Hp]; [lia|].
  rewrite IH by (rewrite length_alter; lia).
  rewrite <- (insert_as_alter _ _ _ _ Hp), hands_insert.
  destruct (dealt_spec c p) as (_ & -> & _).
  rewrite (concat_insert_snoc _ _ _ _ (hands_lookup _ _ _ Hp)).
  cbn. symmetry. apply Permutation_middle.
Qed.

Lemma concat_empty_hands (ps : list Player.t) :
  (∀ i p, ps !! i = Some p → Player.hand p = []) → concat (hands ps) = [].
Proof.
  induction ps as [|p ps IH]; intros Hall; [done|]. cbn.
  rewrite (Hall 0%nat p eq_refl). cbn. apply IH. intros i q Hq. by apply (Hall (S i)).
Qed.

Lemma Game_init_ok n e :
  1 ≤ n ≤ 8 →
  Game.__init__ n e
  = (Ok (Game.mk n [] (Player.__init__ "Dealer" true)
           (shuffle_by (shuffle_picks e (shuffles_used e)) Game.ordered_deck)),
     snd (Game.create_deck e)).
Proof.
  intros Hn. unfold Game.__init__.
  destruct (Z.ltb_spec n 1); [lia|]. destruct (Z.gtb_spec n 8); [lia|]. reflexivity.
Qed.

(** The engine [deal_round] returns holds one full deck, and one shuffle was
    spent on it. *)
Lemma deal_round_fair r e g0 e1 :
  (1 ≤ length (Room.seats r) ≤ 8)%nat →
  RoomManager.deal_round r e = (Ok g0, e1) →
  fair g0 ∧ e1 = snd (Game.create_deck e).
Proof.
  intros Hn Hdeal. set (n := length (Room.seats r)) in *.
  destruct (deal_round_run r e Hn) as (g0' & e1' & Hdeal' & Hok).
  rewrite Hdeal in Hdeal'. injection Hdeal' as <- <-.
  assert (1 ≤ Z.of_nat n ≤ 8) as Hn' by lia.
  pose proof (Game_init_ok (Z.of_nat n) e Hn') as Hinit.
  set (d := shuffle_by (shuffle_picks e (shuffles_used e)) Game.ordered_deck) in *.
  assert (d ≡ₚ Game.ordered_deck) as Hperm by apply shuffle_by_Permutation.
  set (gi := Game.mk (Z.of_nat n) [] (Player.__init__ "Dealer" true) d) in *.
  destruct (add_players_spec gi) as (Hps & Hdl & Hdk & Hnp).
  assert (length (Game.players (Game.add_players gi)) = n) as Hk.
  { rewrite Hps. cbn. by rewrite length_map, length_seq, Nat2Z.id. }
  destruct (copy_names_run (Room.seats r) (Game.players (Game.add_players gi)))
    as (ps & Hnames & Hlps & Hfresh); [done|].
  set (g1 := Game.set_players ps (Game.add_players gi)).
  assert (length d = 52%nat) as Hd52 by (by rewrite Hperm, ordered_deck_length).
  set (m := (52 - (2 * n + 2))%nat).
  set (drawn := rev (drop m d)).
  assert (length drawn = (2 * n + 2)%nat) as Hlen.
  { unfold drawn, m. rewrite length_rev, length_drop. lia. }
  destruct (two_passes drawn n Hlen) as (cs1 & d1 & cs2 & d2 & Hdrawn & Hl1 & Hl2).
  assert (Game.deck g1 = take m d ++ rev (cs1 ++ [d1] ++ cs2 ++ [d2])) as Hsplit.
  { rewrite <- Hdrawn. cbn. rewrite Hdk. unfold drawn.
    by rewrite rev_involutive, take_drop. }
  assert (length cs1 = length (Game.players g1)) as Hc1 by (cbn; lia).
  assert (length cs2 = length (Game.players g1)) as Hc2 by (cbn; lia).
  pose proof (deal_initial_cards_run g1 (snd (Game.create_deck e)) (take m d)
                cs1 d1 cs2 d2 Hsplit Hc1 Hc2) as Hrun.
  assert (RoomManager.deal_round r e
          = (Ok (Game.set_deck (take m d)
                   (Game.set_dealer (dealt d2 (dealt d1 (Game.dealer g1)))
                      (Game.set_players
                         (deal_to 0 cs2 (deal_to 0 cs1 (Game.players g1))) g1))),
             snd (Game.create_deck e))) as Hexp.
  { unfold RoomManager.deal_round. fold n.
    rewrite (bind_ok _ _ _ _ _ Hinit). fold gi.
    erewrite bind_ok.
    2:{ apply with_local_run. unfold Game.on_self, Game.on_players.
        erewrite zoom_run; [reflexivity|]. cbn [fst].
        erewrite zoom_run; [reflexivity|]. exact Hnames. }
    cbn [fst snd]. fold g1.
    erewrite bind_ok by (apply with_local_run; exact Hrun).
    reflexivity. }
  rewrite Hdeal in Hexp. injection Hexp as Hg0 He1. split; [|done].
  destruct Hok as (Hlenp & Hl2' & Hsd & Hpl).
  split; [|split; [lia|split; [split; [lia|done]|]]].
  - rewrite Hg0. unfold pack. cbn [Game.deck Game.dealer Game.players Game.set_deck
      Game.set_dealer Game.set_players g1].
    destruct (dealt_spec d2 (dealt d1 (Game.dealer (Game.add_players gi))))
      as (_ & -> & _).
    destruct (dealt_spec d1 (Game.dealer (Game.add_players gi))) as (_ & -> & _).
    rewrite Hdl. cbn [gi Game.dealer Player.__init__ Player.hand].
    rewrite deal_to_concat by (rewrite deal_to_length; lia).
    rewrite deal_to_concat by lia.
    rewrite (concat_empty_hands ps).
    2:{ intros i p Hp. destruct (Hfresh i p Hp) as (p0 & Hp0 & -> & _).
        rewrite Hps in Hp0. cbn in Hp0.
        change (map ?f ?l) with (f <$> l) in Hp0.
        by apply list_lookup_fmap_Some_1 in Hp0 as (j & -> & _). }
    rewrite <- Hperm. rewrite <- (take_drop m d) at 2.
    apply Permutation_app_head.
    rewrite (Permutation_rev (drop m d)). fold drawn. rewrite Hdrawn.
    solve_Permutation.
  - intros i p Hp. destruct (Hpl i p Hp). split; [lia|done].
Qed.

(** ** Starting a round, again *)

Lemma reset_seat_people seat :
  PlayerSeat.player_id (RoomManager.reset_seat seat) = PlayerSeat.player_id seat
  ∧ PlayerSeat.name (RoomManager.reset_seat seat) = PlayerSeat.name seat.
Proof. done. Qed.

Lemma armed_people r g0 : same_people r (armed r g0).
Proof.
  apply same_people_lookup; cbn; [by rewrite length_map|].
  intros i seat Hs. exists (RoomManager.reset_seat seat).
  change (map ?f ?l) with (f <$> l). by rewrite list_lookup_fmap, Hs.
Qed.

Lemma start_round_shape r e g0 e1 :
  RoomManager.deal_round r e = (Ok g0, e1) →
  length (Game.players g0) = length (Room.seats r) →
  ∃ rs,
    settles natural (armed r g0) g0 (seq 0 (length (Room.seats r))) rs
    ∧ (RoomManager.start_round (r, e) = RoomManager._run_dealer_and_finalize (rs, e1)
       ∨ (∃ j, RoomManager.start_round (r, e)
               = (Ok tt, (Room.set_phase player_turns
                            (Room.set_current_player_index (Z.of_nat j) rs), e1)))
       ∨ RoomManager.start_round (r, e)
         = RoomManager._run_dealer_and_finalize (Room.set_phase dealer_turn rs, e1)).
Proof.
  intros Hdeal Hn.
  assert (aligned (armed r g0) g0) as Hal0.
  { split; [reflexivity|]. cbn. by rewrite length_map. }
  destruct (resolve_initial_naturals_run (armed r g0) g0 Hal0) as (rs & Hres & Hset).
  cbn [armed Room.seats Room.set_seats] in Hset. rewrite length_map in Hset.
  destruct (settles_facts _ _ _ _ _ Hal0 Hset)
    as (gs & Hal & _ & Hdl & _).
  exists rs. split; [done|].
  assert (RoomManager.start_round (r, e)
          = if natural (Game.dealer g0)
            then RoomManager._run_dealer_and_finalize (rs, e1)
            else
              (Room.on_self RoomManager._move_to_next_playable ;;
               do self <- get;
               if bool_decide (Room.phase (fst self) = dealer_turn)
               then RoomManager._run_dealer_and_finalize
               else ret tt) (rs, e1)) as Hunfold.
  { unfold RoomManager.start_round.
    rewrite (bind_ok _ _ _ (r, e) (r, e)) by reflexivity. cbn [fst].
    erewrite bind_ok by (erewrite zoom_run; [reflexivity|exact Hdeal]).
    do 4 (erewrite bind_ok by (apply on_self_run; reflexivity)).
    erewrite bind_ok by (apply on_self_run; exact Hres).
    rewrite (bind_ok _ _ _ (rs, e1) (rs, e1)) by reflexivity. cbn [fst].
    erewrite bind_ok.
    2:{ unfold lift, Room.dealer_of. destruct Hal as [-> _]. reflexivity. }
    rewrite Hdl. fold (natural (Game.dealer g0)).
    by destruct (natural (Game.dealer g0)). }
  destruct (natural (Game.dealer g0)); [by left|]. right.
  destruct (move_to_next_playable_run rs gs Hal) as [(j & Hmove & _)|[Hmove _]].
  - left. exists j. rewrite Hunfold.
    erewrite bind_ok by (apply on_self_run; exact Hmove).
    erewrite bind_ok by reflexivity. reflexivity.
  - right. rewrite Hunfold.
    erewrite bind_ok by (apply on_self_run; exact Hmove).
    erewrite bind_ok by reflexivity. reflexivity.
Qed.

Lemma start_round_fair r e :
  (1 ≤ length (Room.seats r) ≤ 8)%nat →
  ∃ r', RoomManager.start_round (r, e) = (Ok tt, (r', snd (Game.create_deck e)))
        ∧ fair_room r' ∧ same_people r r' ∧ same_frame r r'
        ∧ Room.phase r' ≠ waiting.
Proof.
  intros Hn.
  destruct (deal_round_run r e Hn) as (g0 & e1 & Hdeal & Hok).
  destruct (deal_round_fair r e g0 e1 Hn Hdeal) as [Hfair ->].
  destruct (start_round_run r e g0 _ Hdeal Hok)
    as (_ & _ & r' & e' & _ & _ & _ & Hstart & Hround & Hframe & _).
  pose proof Hok as (Hlen & _).
  destruct (start_round_shape r e g0 _ Hdeal Hlen) as (rs & Hset & Hshape).
  assert (aligned (armed r g0) g0) as Hal0.
  { split; [reflexivity|]. cbn. by rewrite length_map. }
  destruct (settles_facts _ _ _ _ _ Hal0 Hset)
    as (gs & Hal & _ & _ & _ & _ & Hfs & Hpeople & _ & _).
  specialize (Hfs Hfair).
  assert (same_people r rs) as Hprs.
  { eapply same_people_trans; [apply armed_people|exact Hpeople]. }
  assert (Room.phase r' ≠ waiting) as Hph.
  { destruct Hround as (_ & _ & [-> | ->] & _); discriminate. }
  destruct Hshape as [Hrun | [[j Hrun] | Hrun]].
  - destruct (run_dealer_and_finalize_fair rs gs (snd (Game.create_deck e)) Hal Hfs)
      as (r2 & g2 & Hfin & Hal2 & Hf2 & Hph2 & Hv & Hp2 & _).
    rewrite Hrun, Hfin in Hstart. injection Hstart as <- <-.
    exists r2. split; [by rewrite Hrun|]. split_and!; try done.
    + by exists g2.
    + by eapply same_people_trans.
  - rewrite Hrun in Hstart. injection Hstart as <- <-.
    eexists. split; [exact Hrun|]. split_and!; try done.
    exists gs. split; [exact Hal|]. split; [done|]. discriminate.
  - destruct (run_dealer_and_finalize_fair (Room.set_phase dealer_turn rs) gs
                (snd (Game.create_deck e)) Hal Hfs)
      as (r2 & g2 & Hfin & Hal2 & Hf2 & Hph2 & Hv & Hp2 & _).
    rewrite Hrun, Hfin in Hstart. injection Hstart as <- <-.
    exists r2. split; [by rewrite Hrun|]. split_and!; try done.
    + by exists g2.
    + by eapply same_people_trans.
Qed.

(** ** A player's action, again *)

(** What the hit or the stand of seat [idx] left behind. *)
Lemma act_shape r g e idx action seat p r1 g1 e1 :
  aligned r g → Room.seats r !! idx = Some seat → Game.players g !! idx = Some p →
  (if bool_decide (action = "hit") then
     do card <- Room.on_game_st Game.draw_card;
     Room.on_self (Room.on_game (Game.on_players (at_index idx (Player.add_card card))))
   else
     Room.on_self (Room.on_seats (at_index idx (modify (PlayerSeat.set_stood true)))))
    (r, e) = (Ok tt, (r1, e1)) →
  Room.game r1 = Some g1 →
  (action = "hit"
   ∧ ∃ c d, Game.draw_card (g, e) = (Ok c, (Game.set_deck d g, e1))
            ∧ g1 = Game.set_players (<[idx := dealt c p]> (Game.players g))
                     (Game.set_deck d g)
            ∧ r1 = Room.set_game (Some g1) r)
  ∨ (action ≠ "hit" ∧ e1 = e ∧ g1 = g
     ∧ r1 = Room.set_seats (<[idx := PlayerSeat.set_stood true seat]> (Room.seats r)) r).
Proof.
  intros [Hg Hlen] Hs Hp Hrun Hg1. case_bool_decide as Hact.
  - left. split; [done|].
    destruct (draw_card_total g e) as (c & d & e1' & Hdraw).
    erewrite bind_ok in Hrun by (by eapply on_game_st_run).
    erewrite on_self_run in Hrun.
    2:{ eapply on_game_run; [reflexivity|].
        unfold Game.on_players. erewrite zoom_run; [reflexivity|].
        eapply at_index_run; [exact Hp|apply add_card_dealt]. }
    injection Hrun as <- <-. cbn in Hg1. injection Hg1 as <-.
    exists c, d. split; [done|]. split; [done|]. by destruct r.
  - right. split; [done|].
    erewrite on_self_run in Hrun.
    2:{ unfold Room.on_seats. erewrite zoom_run; [reflexivity|].
        eapply at_index_run; [exact Hs|reflexivity]. }
    injection Hrun as <- <-. cbn in Hg1. rewrite Hg in Hg1. by injection Hg1 as <-.
Qed.

Lemma play_shape r g e idx action seat p :
  aligned r g → Room.phase r = player_turns →
  Room.seats r !! idx = Some seat → Game.players g !! idx = Some p →
  (∀ i, (i < idx)%nat → RoomManager._is_finished r i = Ok true) →
  ∃ r1 g1 e1,
    aligned r1 g1 ∧ Room.phase r1 = player_turns
    ∧ ((action = "hit"
        ∧ ∃ c d, Game.draw_card (g, e) = (Ok c, (Game.set_deck d g, e1))
                 ∧ g1 = Game.set_players (<[idx := dealt c p]> (Game.players g))
                          (Game.set_deck d g)
                 ∧ r1 = Room.set_game (Some g1) r)
       ∨ (action ≠ "hit" ∧ e1 = e ∧ g1 = g
          ∧ r1 = Room.set_seats
                   (<[idx := PlayerSeat.set_stood true seat]> (Room.seats r)) r))
    ∧ (RoomManager.play idx action (r, e) = (Ok tt, (r1, e1))
       ∨ (∃ j, RoomManager.play idx action (r, e)
               = (Ok tt, (Room.set_current_player_index (Z.of_nat j) r1, e1)))
       ∨ RoomManager.play idx action (r, e)
         = RoomManager._run_dealer_and_finalize (Room.set_phase dealer_turn r1, e1)).
Proof.
  intros Hal Hphase Hs Hp Hpre. pose proof Hal as [Hg _].
  destruct (act_run r g e idx action seat p Hal Hs Hp) as (r1 & g1 & e1 & Hactrun & Hact).
  pose proof Hact as ((A1 & A2 & A3 & A4) & Hph1 & Hcur1 & Hal1 & Hd1 & Hl1 & Hsame).
  exists r1, g1, e1. split; [done|]. split; [congruence|].
  split; [apply (act_shape r g e idx action seat p r1 g1 e1 Hal Hs Hp Hactrun), Hal1|].
  assert (idx < length (Room.seats r1))%nat as Hidx1.
  { rewrite A4. by eapply lookup_lt_Some. }
  assert (∀ i, (i < idx)%nat → RoomManager._is_finished r1 i = Ok true) as Hpre1.
  { intros i Hi. rewrite (acted_is_finished idx r g r1 g1 i Hg Hact) by lia.
    by apply Hpre. }
  destruct (is_finished_total r1 g1 idx Hal1 Hidx1) as [b Hb].
  assert (∀ x, (do self <- get;
                do finished <- lift (RoomManager._is_finished (fst self) idx);
                (if finished then Room.on_self (RoomManager._advance_after idx)
                 else ret tt) ;;
                do self <- get;
                if bool_decide (Room.phase (fst self) = dealer_turn)
                then RoomManager._run_dealer_and_finalize
                else ret tt) (r1, e1) = x →
               RoomManager.play idx action (r, e) = x) as Hunfold.
  { intros x <-. unfold RoomManager.play.
    rewrite (bind_ok _ _ _ (r, e) (r, e)) by reflexivity. cbn [fst].
    erewrite bind_ok by (unfold lift; erewrite player_at_lookup; done).
    erewrite bind_ok by (unfold lift; erewrite index_lookup; done).
    erewrite bind_ok by exact Hactrun. reflexivity. }
  destruct b.
  - destruct (advance_after_run r1 g1 idx Hal1 Hidx1 Hb Hpre1)
      as [(j & Hadv & Hlt & Hfj & Hprej)|Hadv].
    + right; left. exists j.
      apply Hunfold. rewrite (bind_ok _ _ _ (r1, e1) (r1, e1)) by reflexivity.
      cbn [fst]. erewrite bind_ok by (unfold lift; by rewrite Hb).
      erewrite bind_ok by (apply on_self_run; exact Hadv).
      erewrite bind_ok by reflexivity. cbn [fst].
      rewrite bool_decide_false; [reflexivity|]. cbn. rewrite Hph1, Hphase. done.
    + right; right.
      apply Hunfold. rewrite (bind_ok _ _ _ (r1, e1) (r1, e1)) by reflexivity.
      cbn [fst]. erewrite bind_ok by (unfold lift; by rewrite Hb).
      erewrite bind_ok by (apply on_self_run; exact Hadv).
      erewrite bind_ok by reflexivity. cbn [fst].
      rewrite bool_decide_true by reflexivity. reflexivity.
  - left.
    apply Hunfold. rewrite (bind_ok _ _ _ (r1, e1) (r1, e1)) by reflexivity.
    cbn [fst]. erewrite bind_ok by (unfold lift; by rewrite Hb).
    erewrite bind_ok by reflexivity.
    erewrite bind_ok by reflexivity. cbn [fst].
    rewrite bool_decide_false; [reflexivity|]. rewrite Hph1, Hphase. done.
Qed.

(** One action on a fair room: the entropy is not touched, the room stays
    fair, and the cards move as the action says. *)
Lemma play_fair g0 r e idx action :
  in_round g0 r → fair_room r → Room.phase r = player_turns →
  Room.current_player_index r = Z.of_nat idx →
  ∃ r' g g' seat p hands1 stood1 deck1,
    RoomManager.play idx action (r, e) = (Ok tt, (r', e))
    ∧ Room.game r = Some g ∧ Room.seats r !! idx = Some seat
    ∧ Game.players g !! idx = Some p ∧ done_flag seat p = false
    ∧ aligned r' g' ∧ fair_room r' ∧ same_people r r' ∧ same_frame r r'
    ∧ Room.phase r' ≠ waiting
    ∧ (action = "hit" →
       ∃ rest c, Game.deck g = rest ++ [c]
                 ∧ hands1 = <[idx := Player.hand p ++ [c]]> (hands (Game.players g))
                 ∧ stood1 = map PlayerSeat.stood (Room.seats r)
                 ∧ deck1 = rest)
    ∧ (action ≠ "hit" →
       hands1 = hands (Game.players g)
       ∧ stood1 = <[idx := true]> (map PlayerSeat.stood (Room.seats r))
       ∧ deck1 = Game.deck g)
    ∧ hands (Game.players g') = hands1
    ∧ map PlayerSeat.stood (Room.seats r') = stood1
    ∧ (Room.phase r' = player_turns →
       Game.deck g' = deck1 ∧ Game.dealer g' = Game.dealer g).
Proof.
  intros Hround (gf & Half & Hfair & _) Hphase Hcur.
  pose proof Hround as (_ & _ & _ & g & Hal & _ & _ & _ & Hturn & _).
  assert (gf = g) as -> by (destruct Hal, Half; congruence).
  destruct (Hturn Hphase) as (cur & Hcur' & Hf & Hpre).
  assert (cur = idx) as -> by lia. clear Hcur' Hturn.
  destruct (is_finished_inv _ _ _ Hf) as (g' & seat & p & Hg' & Hs & Hp & Hflag).
  assert (g' = g) as -> by (destruct Hal; congruence).
  destruct (play_run g0 r e idx action Hround Hphase Hcur)
    as (r' & e' & Hplay & Hround' & Hframe & _).
  assert (Room.phase r' ≠ waiting) as Hph'.
  { destruct Hround' as (_ & _ & [-> | ->] & _); discriminate. }
  destruct (play_shape r g e idx action seat p Hal Hphase Hs Hp Hpre)
    as (r1 & g1 & e1 & Hal1 & Hph1 & Hdesc & Hcont).
  assert (length (Player.hand p) < 5)%nat as Hlt.
  { symmetry in Hflag. unfold done_flag in Hflag.
    apply orb_false_iff in Hflag as [_ Hflag].
    destruct (Z.geb_spec (Z.of_nat (length (Player.hand p))) 5); [done|lia]. }
  assert (e1 = e ∧ fair g1 ∧ same_people r r1
          ∧ Game.dealer g1 = Game.dealer g
          ∧ (action = "hit" →
             ∃ rest c, Game.deck g = rest ++ [c]
                       ∧ hands (Game.players g1)
                         = <[idx := Player.hand p ++ [c]]> (hands (Game.players g))
                       ∧ map PlayerSeat.stood (Room.seats r1)
                         = map PlayerSeat.stood (Room.seats r)
                       ∧ Game.deck g1 = rest)
          ∧ (action ≠ "hit" →
             hands (Game.players g1) = hands (Game.players g)
             ∧ map PlayerSeat.stood (Room.seats r1)
               = <[idx := true]> (map PlayerSeat.stood (Room.seats r))
             ∧ Game.deck g1 = Game.deck g)) as (-> & Hfair1 & Hpeople1 & Hd1 & Hhit & Hstand).
  { destruct Hdesc as [(Hact & c & d & Hdraw & -> & ->) | (Hact & -> & -> & ->)].
    - destruct (fair_draw g Hfair) as (rest & c' & Hdeck).
      rewrite (draw_card_snoc g e rest c' Hdeck) in Hdraw.
      injection Hdraw as <- <- <-.
      split; [done|]. split; [by apply fair_hit|]. split; [done|]. split; [done|].
      split; [|done]. intros _. exists rest, c'. split; [done|].
      cbn. rewrite hands_insert. destruct (dealt_spec c' p) as (_ & -> & _). done.
    - split; [done|]. split; [done|]. split.
      { apply same_people_lookup; cbn; [by rewrite length_insert|].
        intros i seat_i Hsi. destruct (decide (i = idx)) as [->|Hne].
        - rewrite list_lookup_insert_eq by (by eapply lookup_lt_Some).
          rewrite Hs in Hsi. injection Hsi as <-. by eexists.
        - rewrite list_lookup_insert_ne by done. by eexists. }
      split; [done|]. split; [done|]. intros _. split; [done|]. split; [|done].
      cbn. change (map ?f ?l) with (f <$> l). by rewrite list_fmap_insert. }
  destruct Hcont as [Hrun | [[j Hrun] | Hrun]].
  - rewrite Hrun in Hplay. injection Hplay as <- <-.
    exists r1, g, g1, seat, p, (hands (Game.players g1)),
      (map PlayerSeat.stood (Room.seats r1)), (Game.deck g1).
    split; [done|]. destruct Hal as [Hg _].
    split_and!; try done.
    + exists g1. split; [done|]. split; [done|]. congruence.
  - rewrite Hrun in Hplay. injection Hplay as <- <-.
    exists (Room.set_current_player_index (Z.of_nat j) r1), g, g1, seat, p,
      (hands (Game.players g1)), (map PlayerSeat.stood (Room.seats r1)), (Game.deck g1).
    split; [done|]. destruct Hal as [Hg _].
    split_and!; try done.
    + exists g1. split; [done|]. split; [done|]. cbn. congruence.
  - destruct (run_dealer_and_finalize_fair (Room.set_phase dealer_turn r1) g1 e Hal1 Hfair1)
      as (r2 & g2 & Hfin & Hal2 & Hf2 & Hph2 & Hv & Hp2 & Hh2 & _ & Hst2).
    rewrite Hrun, Hfin in Hplay. injection Hplay as <- <-.
    exists r2, g, g2, seat, p, (hands (Game.players g1)),
      (map PlayerSeat.stood (Room.seats r1)), (Game.deck g1).
    split; [by rewrite Hrun|]. destruct Hal as [Hg _].
    split_and!; try done.
    + by exists g2.
    + by eapply same_people_trans.
    + congruence.
Qed.

(** ** The manager's methods, case by case *)

Lemma join_room_missing room_id player_name m :
  RoomManager.rooms m !! room_id = None →
  RoomManager.join_room room_id player_name m
  = (Raise (HTTPException 404 "Room not found"), m).
Proof.
  intros Hr. unfold RoomManager.join_room.
  rewrite (bind_ok _ _ m m m) by reflexivity. by rewrite Hr.
Qed.

Lemma join_room_cases room_id player_name m r :
  RoomManager.rooms m !! room_id = Some r →
  (¬ (Room.phase r = waiting ∧ Z.of_nat (length (Room.seats r)) < Room.max_players r)
   ∧ ∃ detail, RoomManager.join_room room_id player_name m
               = (Raise (HTTPException 400 detail), m))
  ∨ (Room.phase r = waiting
     ∧ Z.of_nat (length (Room.seats r)) < Room.max_players r
     ∧ RoomManager.join_room room_id player_name m
       = (Ok (room_id, next_player_id m),
          RoomManager.mk
            (<[room_id :=
                 Room.set_seats
                   (Room.seats r
                    ++ [PlayerSeat.__init__ (next_player_id m) (py_strip player_name)])
                   r]> (RoomManager.rooms m))
            (snd (uuid4_hex (RoomManager.entropy m))))).
Proof.
  intros Hr. unfold RoomManager.join_room.
  rewrite (bind_ok _ _ m m m) by reflexivity. rewrite Hr.
  case_bool_decide as Hph; [left; split; [tauto|by eexists]|].
  destruct (Z.geb_spec (Z.of_nat (length (Room.seats r))) (Room.max_players r)) as [Hfull|Hroom].
  { left. split; [lia|by eexists]. }
  right. split; [by destruct (Room.phase r)|]. split; [done|].
  destruct m as [rooms en].
  erewrite bind_ok.
  2:{ unfold RoomManager.on_entropy, RoomManager._new_player_id.
      erewrite zoom_run; [reflexivity|]. erewrite bind_ok by reflexivity.
      reflexivity. }
  erewrite bind_ok.
  2:{ apply on_room_run. apply on_self_run. unfold Room.on_seats.
      erewrite zoom_run; reflexivity. }
  reflexivity.
Qed.

Lemma join_room_other room_id player_name m x m' rid :
  RoomManager.join_room room_id player_name m = (x, m') → rid ≠ room_id →
  RoomManager.rooms m' !! rid = RoomManager.rooms m !! rid.
Proof.
  intros Hrun Hne. destruct (RoomManager.rooms m !! room_id) as [r|] eqn:Hr.
  - destruct (join_room_cases room_id player_name m r Hr)
      as [(_ & detail & E)|(_ & _ & E)]; rewrite E in Hrun; injection Hrun as _ <-;
      [done|]. cbn. by rewrite lookup_insert_ne.
  - rewrite (join_room_missing _ _ _ Hr) in Hrun. by injection Hrun as _ <-.
Qed.

Lemma start_game_other room_id player_id m x m' rid :
  RoomManager.start_game room_id player_id m = (x, m') → rid ≠ room_id →
  RoomManager.rooms m' !! rid = RoomManager.rooms m !! rid.
Proof.
  intros Hrun Hne. destruct (RoomManager.rooms m !! room_id) as [r|] eqn:Hr.
  - destruct (start_game_unfold room_id player_id m r Hr)
      as [(code & detail & E)|(_ & _ & E)]; rewrite E in Hrun.
    + by injection Hrun as _ <-.
    + unfold RoomManager.on_room in Hrun.
      destruct (RoomManager.start_round _) as [y [r' e']].
      injection Hrun as _ <-. cbn. by rewrite lookup_insert_ne.
  - rewrite (start_game_missing _ _ _ Hr) in Hrun. by injection Hrun as _ <-.
Qed.

(** [start_game] on an existing room: refused by a check, refused by the
    engine's bounds, or a round is under way. *)
Lemma start_game_cases room_id player_id m r :
  RoomManager.rooms m !! room_id = Some r →
  (¬ (Room.host_id r = player_id ∧ Room.phase r = waiting)
   ∧ ∃ code detail, RoomManager.start_game room_id player_id m
                    = (Raise (HTTPException code detail), m))
  ∨ (Room.host_id r = player_id ∧ Room.phase r = waiting
     ∧ ¬ (1 ≤ length (Room.seats r) ≤ 8)%nat
     ∧ ∃ msg, RoomManager.start_game room_id player_id m = (Raise (ValueError msg), m))
  ∨ (Room.host_id r = player_id ∧ Room.phase r = waiting
     ∧ (1 ≤ length (Room.seats r) ≤ 8)%nat
     ∧ ∃ r', RoomManager.start_round (r, RoomManager.entropy m)
             = (Ok tt, (r', snd (Game.create_deck (RoomManager.entropy m))))
             ∧ RoomManager.start_game room_id player_id m
               = (Ok tt, RoomManager.mk (<[room_id := r']> (RoomManager.rooms m))
                           (snd (Game.create_deck (RoomManager.entropy m))))
             ∧ fair_room r' ∧ same_people r r' ∧ same_frame r r'
             ∧ Room.phase r' ≠ waiting).
Proof.
  intros Hr. unfold RoomManager.start_game.
  rewrite (bind_ok _ _ m m m) by reflexivity. rewrite Hr.
  case_bool_decide as Hhost; [left; split; [tauto|by eexists _, _]|].
  case_bool_decide as Hph; [left; split; [tauto|by eexists _, _]|].
  right.
  assert (Room.phase r = waiting) as Hw by (by destruct (Room.phase r)).
  destruct (decide (1 ≤ length (Room.seats r) ≤ 8)%nat) as [Hn|Hn].
  - right. do 3 (split; [done|]).
    destruct (start_round_fair r (RoomManager.entropy m) Hn)
      as (r' & Hstart & Hfair & Hpeople & Hframe & Hph').
    exists r'. split; [done|]. split; [|done].
    by rewrite (on_room_run _ _ _ _ _ _ _ Hstart).
  - left. do 3 (split; [done|]).
    destruct (start_round_refused r (RoomManager.entropy m) Hn) as [msg Hstart].
    exists msg. rewrite (on_room_run _ _ _ _ _ _ _ Hstart). f_equal.
    by apply manager_eta.
Qed.

(** [player_action] on an existing room: every check named, and what runs
    once they pass. *)
Lemma player_action_cases room_id player_id action m r :
  RoomManager.rooms m !! room_id = Some r →
  (∃ code detail,
     RoomManager.player_action room_id player_id action m
     = (Raise (HTTPException code detail), m))
  ∨ (Room.phase r = player_turns
     ∧ ∃ idx seat,
         Room.find_player_index r player_id = Z.of_nat idx
         ∧ Room.current_player_index r = Z.of_nat idx
         ∧ Room.seats r !! idx = Some seat
         ∧ PlayerSeat.resolved seat = false
         ∧ py_strip (py_lower action) ∈ ["hit"; "stand"]
         ∧ RoomManager.player_action room_id player_id action m
           = RoomManager.on_room room_id r
               (RoomManager.play idx (py_strip (py_lower action))) m).
Proof.
  intros Hr. unfold RoomManager.player_action.
  rewrite (bind_ok _ _ m m m) by reflexivity. rewrite Hr.
  case_bool_decide as Hph; [left; by eexists _, _|].
  case_bool_decide as Hidx; [left; by eexists _, _|].
  case_bool_decide as Hcur; [left; by eexists _, _|].
  destruct (find_from_range (Room.seats r) player_id 0) as [Hm1|(k & Hk & Hrange)];
    [by unfold Room.find_player_index in Hidx|].
  unfold Room.find_player_index in *. rewrite Hk in *.
  destruct (lookup_lt_is_Some_2 (Room.seats r) k) as [seat Hs]; [lia|].
  erewrite bind_ok.
  2:{ unfold lift. by rewrite index_Z_of_nat, (index_lookup _ _ _ Hs). }
  destruct (PlayerSeat.resolved seat) eqn:Hres; [left; by eexists _, _|].
  case_bool_decide as Hact; [left; by eexists _, _|].
  right. split; [done|]. exists k, seat. rewrite Nat2Z.id.
  split_and!; done.
Qed.

(** Conversely, a call that passes every check runs [play]. *)
Lemma player_action_passes room_id player_id action m r idx seat :
  RoomManager.rooms m !! room_id = Some r →
  Room.phase r = player_turns →
  Room.find_player_index r player_id = Z.of_nat idx →
  Room.current_player_index r = Z.of_nat idx →
  Room.seats r !! idx = Some seat → PlayerSeat.resolved seat = false →
  py_strip (py_lower action) ∈ ["hit"; "stand"] →
  RoomManager.player_action room_id player_id action m
  = RoomManager.on_room room_id r (RoomManager.play idx (py_strip (py_lower action))) m.
Proof.
  intros Hr Hph Hfind Hcur Hs Hres Hact. unfold RoomManager.player_action.
  rewrite (bind_ok _ _ m m m) by reflexivity. rewrite Hr.
  rewrite bool_decide_false by (rewrite Hph; intros H; by apply H).
  rewrite Hfind. rewrite bool_decide_false by lia.
  rewrite bool_decide_false by (intros H; apply H; by rewrite Hcur).
  erewrite bind_ok.
  2:{ unfold lift. by rewrite index_Z_of_nat, (index_lookup _ _ _ Hs). }
  rewrite Hres. rewrite bool_decide_false by (intros H; by apply H).
  by rewrite Nat2Z.id.
Qed.

(** ** What every reachable room satisfies *)

Lemma same_people_host r r' seat :
  same_people r r' → Room.seats r !! 0%nat = Some seat →
  ∃ seat', Room.seats r' !! 0%nat = Some seat'
           ∧ PlayerSeat.player_id seat' = PlayerSeat.player_id seat.
Proof.
  intros [Hids _] Hs.
  assert (map PlayerSeat.player_id (Room.seats r') !! 0%nat
          = Some (PlayerSeat.player_id seat)) as H.
  { rewrite Hids. change (map ?f ?l) with (f <$> l). by rewrite list_lookup_fmap, Hs. }
  change (map ?f ?l) with (f <$> l) in H. rewrite list_lookup_fmap in H.
  destruct (Room.seats r' !! 0%nat) as [seat'|]; [|done].
  exists seat'. split; [done|]. cbn in H. by injection H.
Qed.

Lemma seated_started room_id r r' :
  seated room_id r → same_people r r' → same_frame r r' → fair_room r' →
  Room.phase r' ≠ waiting → seated room_id r'.
Proof.
  intros (Hid & (seat & Hs & Hhost) & Hcap & _ & _) Hpeople (F1 & F2 & F3 & F4) Hfair Hph.
  split; [congruence|]. split.
  { destruct (same_people_host r r' seat Hpeople Hs) as (seat' & Hs' & Hid').
    exists seat'. split; [done|]. congruence. }
  split; [by rewrite F4, F3|]. split; [done|]. done.
Qed.

Lemma rooms_seated_insert m room_id r e :
  rooms_seated m → seated room_id r →
  rooms_seated (RoomManager.mk (<[room_id := r]> (RoomManager.rooms m)) e).
Proof.
  intros Hm Hr rid r'. cbn. destruct (decide (room_id = rid)) as [->|Hne].
  - rewrite lookup_insert_eq. by intros [= <-].
  - rewrite lookup_insert_ne by done. apply Hm.
Qed.

Lemma create_room_seated player_name max_players m x m' :
  rooms_seated m → RoomManager.create_room player_name max_players m = (x, m') →
  rooms_seated m'.
Proof.
  intros Hm Hrun. destruct (create_room_run player_name max_players m) as [e' E].
  rewrite E in Hrun. injection Hrun as _ <-.
  apply rooms_seated_insert; [done|].
  split; [done|]. split; [by eexists|]. split; [cbn; lia|]. split; [|done].
  intros _. split; [done|]. split; [done|].
  intros seat Hseat. cbn in Hseat. by apply list_elem_of_singleton in Hseat as ->.
Qed.

Lemma join_room_seated room_id player_name m x m' :
  rooms_seated m → RoomManager.join_room room_id player_name m = (x, m') →
  rooms_seated m'.
Proof.
  intros Hm Hrun. destruct (RoomManager.rooms m !! room_id) as [r|] eqn:Hr.
  - destruct (join_room_cases room_id player_name m r Hr)
      as [(_ & detail & E)|(Hph & Hroom & E)]; rewrite E in Hrun;
      injection Hrun as _ <-; [done|].
    apply rooms_seated_insert; [done|].
    destruct (Hm room_id r Hr) as (Hid & (seat & Hs & Hhost) & Hcap & Hw & _).
    destruct (Hw Hph) as (Hg & Hcur & Hflags).
    split; [done|]. split.
    { exists seat. split; [|done]. cbn. by apply lookup_app_l_Some. }
    split; [cbn; rewrite length_app; cbn; lia|]. split; [|done].
    intros _. split; [done|]. split; [done|].
    intros s Hs'. cbn in Hs'. apply elem_of_app in Hs' as [Hs'|Hs']; [by apply Hflags|].
    by apply list_elem_of_singleton in Hs' as ->.
  - rewrite (join_room_missing _ _ _ Hr) in Hrun. by injection Hrun as _ <-.
Qed.

Lemma start_game_seated room_id player_id m x m' :
  rooms_seated m → RoomManager.start_game room_id player_id m = (x, m') →
  rooms_seated m'.
Proof.
  intros Hm Hrun. destruct (RoomManager.rooms m !! room_id) as [r|] eqn:Hr;
    [|rewrite (start_game_missing _ _ _ Hr) in Hrun; by injection Hrun as _ <-].
  destruct (start_game_cases room_id player_id m r Hr)
    as [(_ & code & detail & E)
       |[(_ & _ & _ & msg & E)
        |(_ & _ & _ & r' & _ & E & Hfair & Hpeople & Hframe & Hph)]];
    rewrite E in Hrun; injection Hrun as _ <-; [done..|].
  apply rooms_seated_insert; [done|].
  by apply (seated_started room_id r r' (Hm room_id r Hr)).
Qed.

(** What one [player_action] did, on a manager whose rooms are in order. *)
Lemma player_action_effect room_id player_id action m x m' :
  rooms_ok m → rooms_seated m →
  RoomManager.player_action room_id player_id action m = (x, m') →
  (m' = m ∧ ∃ code detail, x = Raise (HTTPException code detail))
  ∨ ∃ r idx r' g g' seat p hands1 stood1 deck1,
      x = Ok tt
      ∧ RoomManager.rooms m !! room_id = Some r
      ∧ m' = RoomManager.mk (<[room_id := r']> (RoomManager.rooms m)) (RoomManager.entropy m)
      ∧ Room.phase r = player_turns
      ∧ Room.find_player_index r player_id = Z.of_nat idx
      ∧ Room.current_player_index r = Z.of_nat idx
      ∧ py_strip (py_lower action) ∈ ["hit"; "stand"]
      ∧ Room.game r = Some g ∧ Room.seats r !! idx = Some seat
      ∧ Game.players g !! idx = Some p ∧ done_flag seat p = false
      ∧ aligned r' g' ∧ fair_room r' ∧ same_people r r' ∧ same_frame r r'
      ∧ Room.phase r' ≠ waiting
      ∧ (py_strip (py_lower action) = "hit" →
         ∃ rest c, Game.deck g = rest ++ [c]
                   ∧ hands1 = <[idx := Player.hand p ++ [c]]> (hands (Game.players g))
                   ∧ stood1 = map PlayerSeat.stood (Room.seats r)
                   ∧ deck1 = rest)
      ∧ (py_strip (py_lower action) ≠ "hit" →
         hands1 = hands (Game.players g)
         ∧ stood1 = <[idx := true]> (map PlayerSeat.stood (Room.seats r))
         ∧ deck1 = Game.deck g)
      ∧ hands (Game.players g') = hands1
      ∧ map PlayerSeat.stood (Room.seats r') = stood1
      ∧ (Room.phase r' = player_turns →
         Game.deck g' = deck1 ∧ Game.dealer g' = Game.dealer g).
Proof.
  intros Hok Hm Hrun.
  destruct (RoomManager.rooms m !! room_id) as [r|] eqn:Hr;
    [|rewrite (player_action_missing _ _ _ _ Hr) in Hrun; left;
      injection Hrun as <- <-; split; [done|by eexists _, _]].
  destruct (player_action_cases room_id player_id action m r Hr)
    as [(code & detail & E)
       |(Hph & idx & seat0 & Hfind & Hcur & Hs0 & Hres & Hact & E)];
    rewrite E in Hrun; [left; injection Hrun as <- <-; split; [done|by eexists _, _]|].
  right.
  destruct (Hok room_id r Hr) as [Hw|[g0 Hround]]; [congruence|].
  destruct (Hm room_id r Hr) as (_ & _ & _ & _ & Hfair).
  assert (Room.phase r ≠ waiting) as Hnw by (rewrite Hph; discriminate).
  destruct (play_fair g0 r (RoomManager.entropy m) idx (py_strip (py_lower action))
              Hround (Hfair Hnw) Hph Hcur)
    as (r' & g & g' & seat & p & hands1 & stood1 & deck1 & Hplay & Hrest).
  rewrite (on_room_run _ _ _ _ _ _ _ Hplay) in Hrun. injection Hrun as <- <-.
  exists r, idx, r', g, g', seat, p, hands1, stood1, deck1.
  do 7 (split; [done|]). exact Hrest.
Qed.

Lemma player_action_seated room_id player_id action m x m' :
  rooms_ok m → rooms_seated m →
  RoomManager.player_action room_id player_id action m = (x, m') →
  rooms_seated m'.
Proof.
  intros Hok Hm Hrun.
  destruct (player_action_effect _ _ _ _ _ _ Hok Hm Hrun)
    as [[-> _]|(r & idx & r' & g & g' & seat & p & h1 & s1 & d1 & _ & Hr & -> & _ & _ & _ & _
            & _ & _ & _ & _ & _ & Hfair & Hpeople & Hframe & Hph & _)]; [done|].
  apply rooms_seated_insert; [done|].
  by apply (seated_started room_id r r' (Hm room_id r Hr)).
Qed.

Lemma reachable_seated m : reachable m → rooms_seated m.
Proof.
  induction 1 as [e|m ? ? x m' _ IH Hrun|m ? ? x m' _ IH Hrun
                  |m ? ? x m' _ IH Hrun|m ? ? ? x m' Hreach IH Hrun].
  - intros rid r Hr. cbn in Hr. by rewrite lookup_empty in Hr.
  - by eapply create_room_seated.
  - by eapply join_room_seated.
  - by eapply start_game_seated.
  - eapply player_action_seated; [|done..]. by apply reachable_rooms_ok.
Qed.

Lemma sound_calculate_score p : sound p → Player.calculate_score p = (Ok tt, p).
Proof.
  intros Hs. destruct (calculate_score_run p) as (s & -> & Hs').
  rewrite (is_score_unique _ _ _ _ Hs' Hs). by destruct p.
Qed.

(** X13. In every reachable state, a room that has been started holds one
    full deck: its deck, the dealer's hand and the players' hands together
    are a permutation of the 52 cards, so no card is held twice or lost; at
    least seven cards are left in the deck, so the deck is never dealt out
    and reshuffled during a round; there is one participant per seat and at
    most eight; every hand has between two and five cards and every stored
    score is the one [calculate_score] would compute. *)
Theorem started_room_holds_one_deck (m : RoomManager.t) (room_id : string) (r : Room.t) :
  reachable m →
  RoomManager.rooms m !! room_id = Some r →
  Room.phase r ≠ waiting →
  ∃ g, Room.game r = Some g
       ∧ length (Game.players g) = length (Room.seats r)
       ∧ (length (Room.seats r) ≤ 8)%nat
       ∧ pack g ≡ₚ Game.ordered_deck
       ∧ NoDup (pack g)
       ∧ (7 ≤ length (Game.deck g))%nat
       ∧ ∀ p, p ∈ Game.dealer g :: Game.players g →
              (2 ≤ length (Player.hand p) ≤ 5)%nat
              ∧ Player.calculate_score p = (Ok tt, p).
Proof.
  intros Hreach Hr Hph.
  destruct (reachable_seated m Hreach room_id r Hr) as (_ & _ & _ & _ & Hfair).
  destruct (Hfair Hph) as (g & [Hg Hlen] & Hf & _).
  pose proof (fair_deck g Hf) as Hdeck.
  destruct Hf as (Hp & Hn & Hd & Hps).
  exists g. split; [done|]. split; [done|]. split; [lia|]. split; [done|].
  split; [rewrite Hp; apply ordered_deck_NoDup|]. split; [done|].
  intros p [->|Hin]%elem_of_cons.
  - destruct Hd as [Hl Hs]. split; [done|by apply sound_calculate_score].
  - apply list_elem_of_lookup in Hin as [i Hi]. destruct (Hps i p Hi) as [Hl Hs].
    split; [done|by apply sound_calculate_score].
Qed.

(** X14. In every reachable state, a room in the results phase has a
    dealer who has stopped drawing (five cards, or a score of at least 15),
    and every seat is resolved with a result that is not empty and is the
    tag [evaluate_winner] gives for that seat on the engine as it stands. *)
Theorem results_carry_engine_verdicts
    (m : RoomManager.t) (room_id : string) (r : Room.t) :
  reachable m →
  RoomManager.rooms m !! room_id = Some r →
  Room.phase r = results →
  ∃ g, Room.game r = Some g
       ∧ (length (Player.hand (Game.dealer g)) = 5%nat
          ∨ 15 ≤ Player.score (Game.dealer g))
       ∧ ∀ i seat, Room.seats r !! i = Some seat →
                   PlayerSeat.resolved seat = true
                   ∧ Game.evaluate_winner g (Z.of_nat i) = Ok (PlayerSeat.result seat)
                   ∧ PlayerSeat.result seat ≠ "".
Proof.
  intros Hreach Hr Hph.
  destruct (reachable_seated m Hreach room_id r Hr) as (_ & _ & _ & _ & Hfair).
  destruct Hfair as (g & [Hg Hlen] & _ & Hv); [rewrite Hph; discriminate|].
  destruct (Hv Hph) as [Hdone Hseats].
  exists g. split; [done|]. split; [done|].
  intros i seat Hs. destruct (Hseats i seat Hs) as [Hres Hev].
  split; [done|]. split; [done|].
  destruct (lookup_lt_is_Some_2 (Game.players g) i) as [p Hp].
  { rewrite <- Hlen. by eapply lookup_lt_Some. }
  rewrite (evaluate_winner_tag _ _ _ Hp) in Hev. injection Hev as <-.
  apply tag_of_nonempty.
Qed.

(** X15. In every reachable state a room is stored under its own
    identifier, has at least one seat and at most [max(1, max_players)], and
    its host sits at index 0; a waiting room has no engine, turn index 0 and
    no seat with a flag or a result set, and a started room has at most
    eight seats. *)
Theorem host_is_seated_first (m : RoomManager.t) (room_id : string) (r : Room.t) :
  reachable m →
  RoomManager.rooms m !! room_id = Some r →
  Room.room_id r = room_id
  ∧ Room.find_player_index r (Room.host_id r) = 0
  ∧ 1 ≤ Z.of_nat (length (Room.seats r)) ≤ Z.max 1 (Room.max_players r)
  ∧ (Room.phase r = waiting →
     Room.game r = None ∧ Room.current_player_index r = 0
     ∧ ∀ seat, seat ∈ Room.seats r →
         PlayerSeat.stood seat = false ∧ PlayerSeat.resolved seat = false
         ∧ PlayerSeat.result seat = "")
  ∧ (Room.phase r ≠ waiting → (length (Room.seats r) ≤ 8)%nat).
Proof.
  intros Hreach Hr.
  destruct (reachable_seated m Hreach room_id r Hr)
    as (Hid & (seat & Hs & Hhost) & Hcap & Hw & Hfair).
  split; [done|]. split.
  { unfold Room.find_player_index. destruct (Room.seats r) as [|s l]; [done|].
    cbn in Hs. injection Hs as ->. cbn. by rewrite bool_decide_true. }
  split; [apply lookup_lt_Some in Hs; lia|]. split; [done|].
  intros Hph. destruct (Hfair Hph) as (g & [_ Hlen] & (_ & Hn & _) & _). lia.
Qed.

(** X16. A successful [player_action] on a reachable manager is made by
    the seat at the turn index.  A hit appends the top card of the deck (its
    last element) to that player's hand and changes no other hand and no
    stood flag; a stand changes no hand and sets that seat's stood flag and
    no other.  While the round stays in [player_turns] the deck has lost
    exactly that card, or nothing on a stand, and the dealer is untouched;
    the seats keep their player identifiers. *)
Theorem hit_takes_top_card
    (m m' : RoomManager.t) (room_id player_id action : string)
    (r : Room.t) (g : Game.t) :
  reachable m →
  RoomManager.rooms m !! room_id = Some r →
  Room.game r = Some g →
  RoomManager.player_action room_id player_id action m = (Ok tt, m') →
  ∃ idx p r' g',
    Room.find_player_index r player_id = Z.of_nat idx
    ∧ Room.current_player_index r = Z.of_nat idx
    ∧ Game.players g !! idx = Some p
    ∧ RoomManager.rooms m' !! room_id = Some r'
    ∧ Room.game r' = Some g'
    ∧ (py_strip (py_lower action) = "hit" →
       ∃ rest c,
         Game.deck g = rest ++ [c]
         ∧ hands (Game.players g') = <[idx := Player.hand p ++ [c]]> (hands (Game.players g))
         ∧ map PlayerSeat.stood (Room.seats r') = map PlayerSeat.stood (Room.seats r)
         ∧ (Room.phase r' = player_turns → Game.deck g' = rest))
    ∧ (py_strip (py_lower action) = "stand" →
       hands (Game.players g') = hands (Game.players g)
       ∧ map PlayerSeat.stood (Room.seats r')
         = <[idx := true]> (map PlayerSeat.stood (Room.seats r))
       ∧ (Room.phase r' = player_turns → Game.deck g' = Game.deck g))
    ∧ (Room.phase r' = player_turns → Game.dealer g' = Game.dealer g)
    ∧ map PlayerSeat.player_id (Room.seats r') = map PlayerSeat.player_id (Room.seats r).
Proof.
  intros Hreach Hr Hg Hrun.
  destruct (player_action_effect _ _ _ _ _ _ (reachable_rooms_ok m Hreach)
              (reachable_seated m Hreach) Hrun)
    as [[_ (code & detail & Hx)]
       |(r0 & idx & r' & g0 & g' & seat & p & h1 & s1 & d1 & _ & Hr0 & -> & _ & Hfind
         & Hcur & Hact & Hg0 & Hs & Hp & _ & [Hg' _] & _ & [Hids _] & _ & _ & Hhit
         & Hstand & Hh & Hst & Hdeck)]; [done|].
  rewrite Hr in Hr0. injection Hr0 as <-. rewrite Hg in Hg0. injection Hg0 as <-.
  exists idx, p, r', g'. cbn. rewrite lookup_insert_eq.
  split_and!; try done.
  - intros Ha. destruct (Hhit Ha) as (rest & c & Hd & -> & -> & ->).
    exists rest, c. split_and!; try done. intros Hph. by apply Hdeck.
  - intros Ha. destruct Hstand as (-> & -> & ->); [by rewrite Ha|].
    split_and!; try done. intros Hph. by apply Hdeck.
  - intros Hph. by apply Hdeck.
Qed.

(** X17. What each method takes from the random sources:
    [create_room] two UUIDs and no shuffle; [join_room] one UUID when it
    succeeds and nothing when it raises; [start_game] one shuffle when it
    succeeds and nothing when it raises; [player_action], on a reachable
    manager, nothing at all, so no deck is ever reshuffled during a round. *)
Theorem entropy_accounting (m : RoomManager.t) :
  reachable m →
  (∀ player_name max_players x m',
     RoomManager.create_room player_name max_players m = (x, m') →
     uuids_used (RoomManager.entropy m') = S (S (uuids_used (RoomManager.entropy m)))
     ∧ shuffles_used (RoomManager.entropy m') = shuffles_used (RoomManager.entropy m))
  ∧ (∀ room_id player_name x m',
       RoomManager.join_room room_id player_name m = (x, m') →
       shuffles_used (RoomManager.entropy m') = shuffles_used (RoomManager.entropy m)
       ∧ uuids_used (RoomManager.entropy m')
         = match x with
           | Ok _ => S (uuids_used (RoomManager.entropy m))
           | Raise _ => uuids_used (RoomManager.entropy m)
           end)
  ∧ (∀ room_id player_id x m',
       RoomManager.start_game room_id player_id m = (x, m') →
       uuids_used (RoomManager.entropy m') = uuids_used (RoomManager.entropy m)
       ∧ shuffles_used (RoomManager.entropy m')
         = match x with
           | Ok _ => S (shuffles_used (RoomManager.entropy m))
           | Raise _ => shuffles_used (RoomManager.entropy m)
           end)
  ∧ (∀ room_id player_id action x m',
       RoomManager.player_action room_id player_id action m = (x, m') →
       RoomManager.entropy m' = RoomManager.entropy m).
Proof.
  intros Hreach. split_and!.
  - intros player_name max_players x m' Hrun. destruct m as [rooms [sp su uh uu]].
    unfold RoomManager.create_room in Hrun.
    erewrite bind_ok in Hrun.
    2:{ unfold RoomManager.on_entropy, RoomManager._new_room_id.
        erewrite zoom_run; [reflexivity|]. erewrite bind_ok by reflexivity.
        reflexivity. }
    erewrite bind_ok in Hrun.
    2:{ unfold RoomManager.on_entropy, RoomManager._new_player_id.
        erewrite zoom_run; [reflexivity|]. erewrite bind_ok by reflexivity.
        reflexivity. }
    erewrite bind_ok in Hrun by reflexivity.
    injection Hrun as _ <-. done.
  - intros room_id player_name x m' Hrun.
    destruct (RoomManager.rooms m !! room_id) as [r|] eqn:Hr.
    + destruct (join_room_cases room_id player_name m r Hr)
        as [(_ & detail & E)|(_ & _ & E)]; rewrite E in Hrun;
        injection Hrun as <- <-; done.
    + rewrite (join_room_missing _ _ _ Hr) in Hrun. by injection Hrun as <- <-.
  - intros room_id player_id x m' Hrun.
    destruct (RoomManager.rooms m !! room_id) as [r|] eqn:Hr;
      [|rewrite (start_game_missing _ _ _ Hr) in Hrun; by injection Hrun as <- <-].
    destruct (start_game_cases room_id player_id m r Hr)
      as [(_ & code & detail & E)
         |[(_ & _ & _ & msg & E)|(_ & _ & _ & r' & _ & E & _)]];
      rewrite E in Hrun; injection Hrun as <- <-; done.
  - intros room_id player_id action x m' Hrun.
    destruct (player_action_effect _ _ _ _ _ _ (reachable_rooms_ok m Hreach)
                (reachable_seated m Hreach) Hrun)
      as [[-> _]|(r0 & idx & r' & g0 & g' & seat & p & h1 & s1 & d1 & _ & _ & -> & _)];
      done.
Qed.

Lemma call_step_results m m' room_id r :
  RoomManager.rooms m !! room_id = Some r → Room.phase r = results →
  call_step m m' → RoomManager.rooms m' !! room_id = Some r.
Proof.
  intros Hr Hph [(rid & name & x & Hrun)|[(rid & pid & x & Hrun)|(rid & pid & a & x & Hrun)]].
  - destruct (decide (room_id = rid)) as [<-|Hne];
      [|by rewrite (join_room_other _ _ _ _ _ room_id Hrun)].
    destruct (join_room_cases room_id name m r Hr)
      as [(_ & detail & E)|(Hw & _)]; [|congruence].
    rewrite E in Hrun. by injection Hrun as _ <-.
  - destruct (decide (room_id = rid)) as [<-|Hne];
      [|by rewrite (start_game_other _ _ _ _ _ room_id Hrun)].
    destruct (start_game_unfold room_id pid m r Hr)
      as [(code & detail & E)|(_ & Hw & _)]; [|congruence].
    rewrite E in Hrun. by injection Hrun as _ <-.
  - destruct (decide (room_id = rid)) as [<-|Hne];
      [|by rewrite (player_action_other _ _ _ _ _ _ room_id Hrun)].
    rewrite (player_action_not_in_turns room_id pid a m r Hr) in Hrun
      by (rewrite Hph; discriminate).
    by injection Hrun as _ <-.
Qed.

(** X18. A room in the results phase is final: no sequence of
    [join_room], [start_game] and [player_action] calls, on this room or on
    others, returned or raised, changes it. *)
Theorem results_are_final (m m' : RoomManager.t) (room_id : string) (r : Room.t) :
  RoomManager.rooms m !! room_id = Some r →
  Room.phase r = results →
  rtc call_step m m' →
  RoomManager.rooms m' !! room_id = Some r.
Proof.
  intros Hr Hph Hsteps. induction Hsteps as [m|m m1 m2 Hstep _ IH]; [done|].
  apply IH. by eapply call_step_results.
Qed.

Lemma get_state_can_act m room_id player_id resp :
  RoomManager.get_state m room_id (Some player_id) = Ok resp →
  rs_can_act resp = true →
  ∃ r, RoomManager.rooms m !! room_id = Some r
       ∧ Room.phase r = player_turns
       ∧ Room.find_player_index r player_id = Room.current_player_index r
       ∧ 0 ≤ Room.find_player_index r player_id.
Proof.
  intros Hget Hcan. unfold RoomManager.get_state in Hget.
  destruct (RoomManager.rooms m !! room_id) as [r|]; [|done].
  exists r. split; [done|].
  case_bool_decide as Hw; [injection Hget as <-; cbn in Hcan; done|].
  destruct (RoomManager.player_views r 0 (Room.seats r)) as [pvs|]; [|done].
  destruct (Room.dealer_of r) as [dealer|]; [|done].
  cbn [rbind] in Hget. injection Hget as <-. cbn in Hcan.
  apply andb_true_iff in Hcan as [Hyou Hph].
  apply bool_decide_eq_true in Hyou, Hph. split; [done|].
  case_bool_decide as Hpid.
  - destruct (Z.ltb_spec (Room.find_player_index r player_id) 0); [done|].
    injection Hyou as Heq. split; [done|lia].
  - cbn in Hyou. discriminate Hyou.
Qed.

(** X19. On a reachable manager [can_act] tells the truth: when the
    response for a viewer has [can_act] set, a hit or a stand by that viewer
    is accepted; and a viewer with a non-empty identifier whose action is
    accepted had [can_act] set in the response to the state before. *)
Theorem can_act_is_honest (m : RoomManager.t) (room_id player_id : string) :
  reachable m →
  (∀ resp action,
     RoomManager.get_state m room_id (Some player_id) = Ok resp →
     rs_can_act resp = true →
     py_strip (py_lower action) ∈ ["hit"; "stand"] →
     ∃ m', RoomManager.player_action room_id player_id action m = (Ok tt, m'))
  ∧ (∀ action m',
       RoomManager.player_action room_id player_id action m = (Ok tt, m') →
       player_id ≠ "" →
       ∃ resp, RoomManager.get_state m room_id (Some player_id) = Ok resp
               ∧ rs_can_act resp = true).
Proof.
  intros Hreach. pose proof (reachable_rooms_ok m Hreach) as Hok. split.
  - intros resp action Hget Hcan Hact.
    destruct (get_state_can_act _ _ _ _ Hget Hcan) as (r & Hr & Hph & Hfind & Hpos).
    destruct (Hok room_id r Hr) as [Hw|[g0 Hround]]; [congruence|].
    pose proof Hround as (_ & _ & _ & g & Hal & _ & _ & _ & Hturn & _).
    destruct (Hturn Hph) as (cur & Hcur & Hf & _).
    destruct (is_finished_inv _ _ _ Hf) as (g' & seat & p & _ & Hs & _ & Hflag).
    assert (PlayerSeat.resolved seat = false) as Hres.
    { symmetry in Hflag. unfold done_flag in Hflag.
      by repeat (apply orb_false_iff in Hflag as [Hflag _]). }
    rewrite Hcur in Hfind.
    rewrite (player_action_passes room_id player_id action m r cur seat
               Hr Hph Hfind Hcur Hs Hres Hact).
    destruct (play_run g0 r (RoomManager.entropy m) cur (py_strip (py_lower action))
                Hround Hph Hcur) as (r' & e' & Hplay & _).
    rewrite (on_room_run _ _ _ _ _ _ _ Hplay). by eexists.
  - intros action m' Hrun Hpid.
    destruct (RoomManager.rooms m !! room_id) as [r|] eqn:Hr;
      [|by rewrite (player_action_missing _ _ _ _ Hr) in Hrun].
    destruct (player_action_cases room_id player_id action m r Hr)
      as [(code & detail & E)|(Hph & idx & seat & Hfind & Hcur & _)];
      [by rewrite E in Hrun|].
    destruct (Hok room_id r Hr) as [Hw|[g0 Hround]]; [congruence|].
    pose proof Hround as (_ & _ & _ & g & [Hg Hlen] & _).
    destruct (get_state_aligned m room_id (Some player_id) r g Hr) as (resp & Hget & _);
      [rewrite Hph; discriminate|done..|].
    exists resp. split; [done|].
    unfold RoomManager.get_state in Hget. rewrite Hr in Hget.
    rewrite bool_decide_false in Hget by (rewrite Hph; discriminate).
    destruct (RoomManager.player_views r 0 (Room.seats r)) as [pvs|]; [|done].
    destruct (Room.dealer_of r) as [dealer|]; [|done].
    cbn [rbind] in Hget. injection Hget as <-. cbn.
    rewrite (bool_decide_true (player_id ≠ "")) by done.
    rewrite Hfind, Hcur.
    destruct (Z.ltb_spec (Z.of_nat idx) 0); [lia|].
    rewrite Hph. by rewrite !bool_decide_true.
Qed.

(** X20. [join_room] succeeds exactly on a waiting room with fewer seats
    than [max_players].  It then returns the room identifier and the new
    player identifier (the first twelve digits of the next UUID), appends one
    seat with that identifier, the stripped name and no flag set, and leaves
    the other seats, the other fields of the room and the other rooms as
    they were. *)
Theorem join_room_accepts (m : RoomManager.t) (room_id player_name : string) :
  (∀ r, RoomManager.rooms m !! room_id = Some r →
        Room.phase r = waiting →
        Z.of_nat (length (Room.seats r)) < Room.max_players r →
        ∃ m',
          RoomManager.join_room room_id player_name m
          = (Ok (room_id, next_player_id m), m')
          ∧ RoomManager.rooms m' !! room_id
            = Some (Room.set_seats
                      (Room.seats r
                       ++ [PlayerSeat.mk (next_player_id m) (py_strip player_name)
                             false false ""]) r)
          ∧ (∀ rid, rid ≠ room_id →
                    RoomManager.rooms m' !! rid = RoomManager.rooms m !! rid)
          ∧ uuids_used (RoomManager.entropy m')
            = S (uuids_used (RoomManager.entropy m)))
  ∧ (∀ x m', RoomManager.join_room room_id player_name m = (Ok x, m') →
             ∃ r, RoomManager.rooms m !! room_id = Some r
                  ∧ Room.phase r = waiting
                  ∧ Z.of_nat (length (Room.seats r)) < Room.max_players r).
Proof.
  split.
  - intros r Hr Hph Hroom.
    destruct (join_room_cases room_id player_name m r Hr)
      as [(Hno & _)|(_ & _ & E)]; [tauto|].
    eexists. split; [exact E|]. cbn. rewrite lookup_insert_eq.
    split; [done|]. split; [|done]. intros rid Hne. by rewrite lookup_insert_ne.
  - intros x m' Hrun.
    destruct (RoomManager.rooms m !! room_id) as [r|] eqn:Hr;
      [|by rewrite (join_room_missing _ _ _ Hr) in Hrun].
    destruct (join_room_cases room_id player_name m r Hr)
      as [(_ & detail & E)|(Hph & Hroom & _)]; [by rewrite E in Hrun|].
    by exists r.
Qed.

(** X21. [start_game] succeeds exactly when the room exists, the caller
    is its host, the room is waiting and it has between one and eight seats.
    Called by the host of a waiting room with more than eight seats it raises
    the engine's [ValueError], not an [HTTPException], and changes nothing. *)
Theorem start_game_accepts (m : RoomManager.t) (room_id player_id : string) :
  ((∃ m', RoomManager.start_game room_id player_id m = (Ok tt, m'))
   ↔ ∃ r, RoomManager.rooms m !! room_id = Some r
          ∧ Room.host_id r = player_id ∧ Room.phase r = waiting
          ∧ (1 ≤ length (Room.seats r) ≤ 8)%nat)
  ∧ (∀ r, RoomManager.rooms m !! room_id = Some r →
          Room.host_id r = player_id → Room.phase r = waiting →
          (8 < length (Room.seats r))%nat →
          ∃ msg, RoomManager.start_game room_id player_id m
                 = (Raise (ValueError msg), m)).
Proof.
  split; [split|].
  - intros [m' Hrun].
    destruct (RoomManager.rooms m !! room_id) as [r|] eqn:Hr;
      [|by rewrite (start_game_missing _ _ _ Hr) in Hrun].
    destruct (start_game_cases room_id player_id m r Hr)
      as [(_ & code & detail & E)
         |[(_ & _ & _ & msg & E)|(Hhost & Hph & Hn & _)]];
      [by rewrite E in Hrun..|].
    by exists r.
  - intros (r & Hr & Hhost & Hph & Hn).
    destruct (start_game_cases room_id player_id m r Hr)
      as [(Hno & _)|[(_ & _ & Hno & _)|(_ & _ & _ & r' & _ & E & _)]]; [tauto..|].
    by eexists.
  - intros r Hr Hhost Hph Hn.
    destruct (start_game_cases room_id player_id m r Hr)
      as [(Hno & _)|[(_ & _ & _ & msg & E)|(_ & _ & Hok & _)]]; [tauto| |lia].
    by exists msg.
Qed.

(** X22. [_advance_after] on a room with one participant per seat moves
    the turn to the first unfinished seat after [from_index]; failing that it
    wraps around and moves the turn to the first unfinished seat overall,
    which is then at or before [from_index], and sets the phase to
    [player_turns]; failing that, every seat being finished, it sets the
    phase to [dealer_turn] and leaves the turn index alone. *)
Theorem advance_after_wraps (r : Room.t) (g : Game.t) (from_index : nat) :
  aligned r g → (from_index < length (Room.seats r))%nat →
  (∃ j, (from_index < j)%nat
        ∧ RoomManager._is_finished r j = Ok false
        ∧ (∀ i, (from_index < i < j)%nat → RoomManager._is_finished r i = Ok true)
        ∧ RoomManager._advance_after from_index r
          = (Ok tt, Room.set_current_player_index (Z.of_nat j) r))
  ∨ ((∀ i, (from_index < i < length (Room.seats r))%nat →
           RoomManager._is_finished r i = Ok true)
     ∧ ∃ j, (j ≤ from_index)%nat
            ∧ RoomManager._is_finished r j = Ok false
            ∧ (∀ i, (i < j)%nat → RoomManager._is_finished r i = Ok true)
            ∧ RoomManager._advance_after from_index r
              = (Ok tt, Room.set_phase player_turns
                          (Room.set_current_player_index (Z.of_nat j) r)))
  ∨ ((∀ i, (i < length (Room.seats r))%nat → RoomManager._is_finished r i = Ok true)
     ∧ RoomManager._advance_after from_index r
       = (Ok tt, Room.set_phase dealer_turn r)).
Proof.
  intros Hal Hidx. unfold RoomManager._advance_after.
  rewrite (bind_ok _ _ r r r) by reflexivity.
  destruct (first_playable_seq r g (length (Room.seats r) - (from_index + 1))
              (from_index + 1) Hal)
    as [(j & Hj & Hr & Hf & Hmid)|[Hn Hall]]; [lia|..].
  - left. exists j. rewrite (bind_ok _ _ r (Some j) r) by (unfold lift; by rewrite Hj).
    split; [lia|]. split; [done|]. split; [|reflexivity].
    intros i Hi. apply Hmid. lia.
  - right. rewrite (bind_ok _ _ r None r) by (unfold lift; by rewrite Hn).
    assert (∀ i, (from_index < i < length (Room.seats r))%nat →
                 RoomManager._is_finished r i = Ok true) as Hafter.
    { intros i Hi. apply Hall. lia. }
    destruct (move_to_next_playable_run r g Hal) as [(j & Hmove & Hf & Hpre)|[Hmove Hfin]].
    + left. split; [done|]. exists j. split; [|done].
      destruct (decide (j ≤ from_index)%nat); [done|]. exfalso.
      apply is_finished_inv in Hf as Hf'. destruct Hf' as (_ & seat & _ & _ & Hs & _).
      apply lookup_lt_Some in Hs.
      rewrite Hafter in Hf by lia. discriminate Hf.
    + right. done.
Qed.

(** ** Behind the HTTP interface *)

Lemma served_reachable m : served m → reachable m.
Proof.
  induction 1 as [e|m ? ? x m' _ IH _ Hrun|m ? ? x m' _ IH Hrun
                  |m ? ? x m' _ IH Hrun|m ? ? ? x m' _ IH Hrun].
  - apply reachable_init.
  - by eapply reachable_create.
  - by eapply reachable_join.
  - by eapply reachable_start.
  - by eapply reachable_action.
Qed.

Lemma rooms_bounded_insert m room_id r e :
  rooms_bounded m → 1 ≤ Room.max_players r ≤ 8 →
  rooms_bounded (RoomManager.mk (<[room_id := r]> (RoomManager.rooms m)) e).
Proof.
  intros Hm Hr rid r'. cbn. destruct (decide (room_id = rid)) as [->|Hne].
  - rewrite lookup_insert_eq. by intros [= <-].
  - rewrite lookup_insert_ne by done. apply Hm.
Qed.

Lemma served_bounded m : served m → rooms_bounded m.
Proof.
  induction 1 as [e|m ? mp x m' Hs IH Hmp Hrun|m rid ? x m' Hs IH Hrun
                  |m rid ? x m' Hs IH Hrun|m rid ? ? x m' Hs IH Hrun].
  - intros rid r Hr. cbn in Hr. by rewrite lookup_empty in Hr.
  - destruct (create_room_run player_name mp m) as [e' E].
    rewrite E in Hrun. injection Hrun as _ <-. by apply rooms_bounded_insert.
  - destruct (RoomManager.rooms m !! rid) as [r|] eqn:Hr.
    + destruct (join_room_cases rid player_name m r Hr)
        as [(_ & detail & E)|(_ & _ & E)]; rewrite E in Hrun;
        injection Hrun as _ <-; [done|].
      apply rooms_bounded_insert; [done|]. cbn. by apply (IH rid).
    + rewrite (join_room_missing _ _ _ Hr) in Hrun. by injection Hrun as _ <-.
  - destruct (RoomManager.rooms m !! rid) as [r|] eqn:Hr;
      [|rewrite (start_game_missing _ _ _ Hr) in Hrun; by injection Hrun as _ <-].
    destruct (start_game_cases rid player_id m r Hr)
      as [(_ & code & detail & E)
         |[(_ & _ & _ & msg & E)
          |(_ & _ & _ & r' & _ & E & _ & _ & (_ & _ & Hmax & _) & _)]];
      rewrite E in Hrun; injection Hrun as _ <-; [done..|].
    apply rooms_bounded_insert; [done|]. rewrite Hmax. by apply (IH rid).
  - pose proof (served_reachable m Hs) as Hreach.
    destruct (player_action_effect _ _ _ _ _ _ (reachable_rooms_ok m Hreach)
                (reachable_seated m Hreach) Hrun)
      as [[-> _]|(r & idx & r' & g & g' & seat & p & h1 & s1 & d1 & _ & Hr & -> & _ & _
                  & _ & _ & _ & _ & _ & _ & _ & _ & _ & (_ & _ & Hmax & _) & _)];
      [done|].
    apply rooms_bounded_insert; [done|]. rewrite Hmax. by apply (IH rid).
Qed.

(** X23. When every room is created with a [max_players] from 1 to 8, as
    the request model enforces, every room has between one and eight seats,
    the host of a waiting room can always start it, and no call of
    [create_room], [join_room], [start_game], [player_action] or [get_state]
    fails with anything but an [HTTPException]: [create_room] always
    returns, and [get_state] returns or raises 404. *)
Theorem served_calls_raise_only_http (m : RoomManager.t) :
  served m →
  (∀ room_id r, RoomManager.rooms m !! room_id = Some r →
     (1 ≤ length (Room.seats r) ≤ 8)%nat
     ∧ (Room.phase r = waiting →
        ∃ m', RoomManager.start_game room_id (Room.host_id r) m = (Ok tt, m')))
  ∧ (∀ player_name max_players x m',
       RoomManager.create_room player_name max_players m = (x, m') →
       ∃ ids, x = Ok ids)
  ∧ (∀ room_id player_name x m',
       RoomManager.join_room room_id player_name m = (x, m') →
       (∃ ids, x = Ok ids) ∨ ∃ code detail, x = Raise (HTTPException code detail))
  ∧ (∀ room_id player_id x m',
       RoomManager.start_game room_id player_id m = (x, m') →
       x = Ok tt ∨ ∃ code detail, x = Raise (HTTPException code detail))
  ∧ (∀ room_id player_id action x m',
       RoomManager.player_action room_id player_id action m = (x, m') →
       x = Ok tt ∨ ∃ code detail, x = Raise (HTTPException code detail))
  ∧ (∀ room_id viewer,
       (∃ resp, RoomManager.get_state m room_id viewer = Ok resp)
       ∨ RoomManager.get_state m room_id viewer
         = Raise (HTTPException 404 "Room not found")).
Proof.
  intros Hs. pose proof (served_reachable m Hs) as Hreach.
  pose proof (served_bounded m Hs) as Hb.
  pose proof (reachable_seated m Hreach) as Hseated.
  pose proof (reachable_rooms_ok m Hreach) as Hok.
  assert (∀ room_id r, RoomManager.rooms m !! room_id = Some r →
            (1 ≤ length (Room.seats r) ≤ 8)%nat) as Hlen.
  { intros rid r Hr. destruct (Hseated rid r Hr) as (_ & (seat & Hseat & _) & Hcap & _).
    apply lookup_lt_Some in Hseat. pose proof (Hb rid r Hr). lia. }
  split_and!.
  - intros rid r Hr. split; [by eapply Hlen|]. intros Hph.
    destruct (start_game_cases rid (Room.host_id r) m r Hr)
      as [(Hno & _)|[(_ & _ & Hno & _)|(_ & _ & _ & r' & _ & E & _)]];
      [tauto|by specialize (Hlen rid r Hr)|by eexists].
  - intros player_name max_players x m' Hrun.
    destruct (create_room_run player_name max_players m) as [e' E].
    rewrite E in Hrun. injection Hrun as <- _. by eexists.
  - intros rid player_name x m' Hrun.
    destruct (RoomManager.rooms m !! rid) as [r|] eqn:Hr.
    + destruct (join_room_cases rid player_name m r Hr)
        as [(_ & detail & E)|(_ & _ & E)]; rewrite E in Hrun; injection Hrun as <- _;
        [right; by eexists _, _|left; by eexists].
    + rewrite (join_room_missing _ _ _ Hr) in Hrun. injection Hrun as <- _.
      right. by eexists _, _.
  - intros rid player_id x m' Hrun.
    destruct (RoomManager.rooms m !! rid) as [r|] eqn:Hr.
    + destruct (start_game_cases rid player_id m r Hr)
        as [(_ & code & detail & E)
           |[(_ & _ & Hno & _)|(_ & _ & _ & r' & _ & E & _)]].
      * rewrite E in Hrun. injection Hrun as <- _. right. by eexists _, _.
      * by specialize (Hlen rid r Hr).
      * rewrite E in Hrun. injection Hrun as <- _. by left.
    + rewrite (start_game_missing _ _ _ Hr) in Hrun. injection Hrun as <- _.
      right. by eexists _, _.
  - intros rid player_id action x m' Hrun.
    destruct (player_action_effect _ _ _ _ _ _ Hok Hseated Hrun)
      as [[_ Hx]|(r & idx & r' & g & g' & seat & p & h1 & s1 & d1 & -> & _)];
      [by right|by left].
  - intros rid viewer. destruct (RoomManager.rooms m !! rid) as [r|] eqn:Hr.
    + left. destruct (decide (Room.phase r = waiting)) as [Hw|Hnw].
      * unfold RoomManager.get_state. rewrite Hr, bool_decide_true by done. by eexists.
      * destruct (Hok rid r Hr) as [Hw|[g0 Hround]]; [done|].
        destruct Hround as (_ & _ & _ & g & [Hg Hl] & _).
        destruct (get_state_aligned m rid viewer r g Hr Hnw Hg Hl) as (resp & Hget & _).
        by exists resp.
    + right. unfold RoomManager.get_state. by rewrite Hr.
Qed.

(** * Worked examples *)

Lemma evaluate_winner_first_rung_witness :
  ∃ tag, Game.evaluate_winner golden_duel (Z.of_nat 0) = Ok tag
         ∧ tag = "Player wins with Golden Blackjack".
Proof.
  destruct (evaluate_winner_first_rung golden_duel 0
              (Player.mk "Ann" [Build_Card SPADES ACE; Build_Card DIAMONDS ACE]
                         21 false "") eq_refl) as (tag & Hrun & _ & Hgolden).
  exists tag. split; [exact Hrun|]. apply Hgolden; reflexivity.
Defined.

Lemma deal_initial_cards_two_passes_witness :
  ∃ g0 e' g (drawn : list Card),
    Game.__init__ 2 plain_entropy = (Ok g0, e')
    ∧ Game.deal_initial_cards (Game.add_players g0, e') = (Ok tt, (g, e'))
    ∧ length drawn = 6%nat
    ∧ NoDup drawn.
Proof.
  destruct (deal_initial_cards_two_passes 2 plain_entropy ltac:(lia))
    as (g0 & e' & g & drawn & Hinit & Hdeal & _ & Hlen & Hnd & _).
  exists g0, e', g, drawn. split; [exact Hinit|]. split; [exact Hdeal|].
  split; [exact Hlen | exact Hnd].
Defined.

Lemma turn_index_only_advances_witness :
  ∃ ra rb,
    RoomManager.rooms table_dealt !! "0A1B2C" = Some ra
    ∧ RoomManager.rooms table_done !! "0A1B2C" = Some rb
    ∧ (Room.current_player_index rb = Room.current_player_index ra
       ∨ Room.current_player_index ra < Room.current_player_index rb)
    ∧ ∀ i, seat_finished ra i →
           ¬ (Room.phase rb = player_turns
              ∧ Room.current_player_index rb = Z.of_nat i).
Proof.
  apply (turn_index_only_advances lobby table_dealt table_dealt table_done
           "0A1B2C" "1b2c3d4e5f60").
  - vm_compute. reflexivity.
  - apply rtc_refl.
  - apply rtc_once. exists "0A1B2C", "2c3d4e5f6071", "stand".
    vm_compute. reflexivity.
Defined.

Lemma dealer_natural_ends_round_witness :
  ∃ r', RoomManager.rooms golden_done !! "0A1B2C" = Some r'
        ∧ Room.phase r' = results
        ∧ ∀ seat, Room.seats r' !! 0%nat = Some seat →
                  PlayerSeat.result seat = "Dealer wins with Golden Blackjack".
Proof.
  destruct (dealer_natural_ends_round golden_lobby golden_done "0A1B2C"
              "1b2c3d4e5f60" golden_room golden_game (snd golden_deal))
    as (r' & g' & Hr' & Hph & _ & _ & _ & _ & _ & _ & Hgolden).
  - vm_compute. reflexivity.
  - vm_compute. reflexivity.
  - vm_compute. reflexivity.
  - vm_compute. reflexivity.
  - exists r'. split; [exact Hr'|]. split; [exact Hph|].
    intros seat Hs.
    apply (Hgolden eq_refl eq_refl
             (Player.mk "Ann" [Build_Card SPADES KING; Build_Card SPADES QUEEN]
                        20 false "") seat);
      [vm_compute; reflexivity | vm_compute; reflexivity | exact Hs].
Defined.

Lemma natural_result_is_kept_witness :
  ∃ seat, Room.seats table_done_room !! 0%nat = Some seat
          ∧ PlayerSeat.resolved seat = true
          ∧ PlayerSeat.result seat = "Player wins with Blackjack".
Proof.
  apply (natural_result_is_kept lobby table_dealt table_done "0A1B2C"
           "1b2c3d4e5f60" lobby_room lobby_snapshot table_done_room lobby_game
           (snd lobby_deal)) with
    (i := 0%nat)
    (seat_s := PlayerSeat.mk "1b2c3d4e5f60" "Ann" false true
                 "Player wins with Blackjack").
  - vm_compute. reflexivity.
  - vm_compute. reflexivity.
  - vm_compute. reflexivity.
  - vm_compute. reflexivity.
  - apply rtc_once. exists "0A1B2C", "2c3d4e5f6071", "stand".
    vm_compute. reflexivity.
  - vm_compute. reflexivity.
  - vm_compute. reflexivity.
  - reflexivity.
Defined.

Lemma create_room_adds_or_replaces_witness :
  size (RoomManager.rooms
          (snd (RoomManager.create_room "Bob" 3
                  (snd (RoomManager.create_room "Ann" 2
                          (RoomManager.__init__ plain_entropy))))))
  = (size (RoomManager.rooms (RoomManager.__init__ plain_entropy)) + 2)%nat.
Proof.
  destruct (create_room_adds_or_replaces (RoomManager.__init__ plain_entropy)
              (snd (RoomManager.create_room "Bob" 3
                      (snd (RoomManager.create_room "Ann" 2
                              (RoomManager.__init__ plain_entropy)))))
              ["0A1B2C"; "2C3D4E"]) as (_ & _ & _ & _ & _ & _ & Hgrows).
  - eapply creates_cons with (player_name := "Ann") (max_players := 2);
      [vm_compute; reflexivity|].
    eapply creates_cons with (player_name := "Bob") (max_players := 3);
      [vm_compute; reflexivity|].
    apply creates_nil.
  - apply Hgrows. split.
    + apply (bool_decide_unpack (NoDup ["0A1B2C"; "2C3D4E"])). vm_compute. exact I.
    + intros room_id _. reflexivity.
Defined.

Lemma table_dealt_reachable : reachable table_dealt.
Proof.
  apply (reachable_start lobby "0A1B2C" "1b2c3d4e5f60" (Ok tt));
    [|vm_compute; reflexivity].
  apply (reachable_join
           (snd (RoomManager.create_room "Ann" 2 (RoomManager.__init__ plain_entropy)))
           "0A1B2C" "Bob" (Ok ("0A1B2C", "2c3d4e5f6071")));
    [|vm_compute; reflexivity].
  apply (reachable_create (RoomManager.__init__ plain_entropy) "Ann" 2
           (Ok ("0A1B2C", "1b2c3d4e5f60")));
    [|vm_compute; reflexivity].
  apply reachable_init.
Defined.

Lemma trio_dealt_reachable : reachable trio_dealt.
Proof.
  apply (reachable_start trio_lobby "0A1B2C" "1b2c3d4e5f60" (Ok tt));
    [|vm_compute; reflexivity].
  apply (reachable_join
           (snd (RoomManager.join_room "0A1B2C" "Bob"
                   (snd (RoomManager.create_room "Ann" 3
                           (RoomManager.__init__ plain_entropy)))))
           "0A1B2C" "Cid" (Ok ("0A1B2C", "3d4e5f607182")));
    [|vm_compute; reflexivity].
  apply (reachable_join
           (snd (RoomManager.create_room "Ann" 3 (RoomManager.__init__ plain_entropy)))
           "0A1B2C" "Bob" (Ok ("0A1B2C", "2c3d4e5f6071")));
    [|vm_compute; reflexivity].
  apply (reachable_create (RoomManager.__init__ plain_entropy) "Ann" 3
           (Ok ("0A1B2C", "1b2c3d4e5f60")));
    [|vm_compute; reflexivity].
  apply reachable_init.
Defined.

(** Bob, whose turn it is, asks for the state: his own hand is open, Cid's
    hand and the dealer's are hidden. *)
Lemma get_state_hides_witness :
  ∃ resp bob cid,
    RoomManager.get_state trio_dealt "0A1B2C" (Some "2c3d4e5f6071") = Ok resp
    ∧ rs_players resp !! 1%nat = Some bob
    ∧ pv_score bob = PyInt 19
    ∧ pv_cards bob = [ShownCard "K" "Spades" "/assets/king_of_spades.png";
                      ShownCard "9" "Spades" "/assets/9_of_spades.png"]
    ∧ rs_players resp !! 2%nat = Some cid
    ∧ pv_score cid = PyStr "?"
    ∧ pv_cards cid = [HiddenCard; HiddenCard]
    ∧ dv_score (rs_dealer resp) = PyStr "?"
    ∧ dv_cards (rs_dealer resp) = [HiddenCard; HiddenCard].
Proof.
  destruct (get_state_hides trio_dealt "0A1B2C" (Some "2c3d4e5f6071") trio_dealt_room)
    as (resp & g & Hrun & Hg & Hlen & Hseats & _ & _ & Hdealer & _).
  - exact trio_dealt_reachable.
  - vm_compute. reflexivity.
  - vm_compute. discriminate.
  - vm_compute in Hg. injection Hg as <-.
    destruct (lookup_lt_is_Some_2 (rs_players resp) 1) as [bob Hbob];
      [rewrite Hlen; vm_compute; lia|].
    destruct (lookup_lt_is_Some_2 (rs_players resp) 2) as [cid Hcid];
      [rewrite Hlen; vm_compute; lia|].
    destruct (Hseats 1%nat (PlayerSeat.mk "2c3d4e5f6071" "Bob" false false "") bob)
      as (_ & p1 & Hp1 & _ & _ & Hopen); [vm_compute; reflexivity|exact Hbob|].
    destruct (Hseats 2%nat (PlayerSeat.mk "3d4e5f607182" "Cid" false false "") cid)
      as (_ & p2 & Hp2 & _ & Hhidden & _); [vm_compute; reflexivity|exact Hcid|].
    vm_compute in Hp1. injection Hp1 as <-.
    vm_compute in Hp2. injection Hp2 as <-.
    destruct Hopen as [Hs1 Hc1].
    { intros (_ & Hcur & _). apply Hcur. vm_compute. reflexivity. }
    destruct Hhidden as [Hs2 Hc2].
    { split; [vm_compute; reflexivity|]. split; [vm_compute; discriminate|reflexivity]. }
    destruct Hdealer as [Hsd Hcd]; [vm_compute; reflexivity|].
    exists resp, bob, cid.
    split; [exact Hrun|]. split; [exact Hbob|]. split; [exact Hs1|].
    split; [exact Hc1|]. split; [exact Hcid|]. split; [exact Hs2|].
    split; [exact Hc2|]. split; [exact Hsd|exact Hcd].
Defined.

Lemma dealer_turn_is_never_observed_witness :
  Room.phase table_done_room = waiting
  ∨ Room.phase table_done_room = player_turns
  ∨ Room.phase table_done_room = results.
Proof.
  apply (dealer_turn_is_never_observed table_done "0A1B2C" table_done_room).
  - apply (reachable_action table_dealt "0A1B2C" "2c3d4e5f6071" "stand" (Ok tt));
      [exact table_dealt_reachable | vm_compute; reflexivity].
  - vm_compute. reflexivity.
Defined.

Lemma refused_calls_change_nothing_witness :
  RoomManager.start_game "0A1B2C" "2c3d4e5f6071" lobby
  = (Raise (HTTPException 403 "Only host can start the game"), lobby)
  ∧ (∀ e m', RoomManager.player_action "0A1B2C" "1b2c3d4e5f60" "hit" table_dealt
             = (Raise e, m') → m' = table_dealt)
  ∧ RoomManager.player_action "0A1B2C" "1b2c3d4e5f60" "hit" table_dealt
    = (Raise (HTTPException 400 "Not your turn"), table_dealt)
  ∧ RoomManager.player_action "0A1B2C" "2c3d4e5f6071" "double" table_dealt
    = (Raise (HTTPException 400 "Action must be hit or stand"), table_dealt).
Proof.
  destruct (refused_calls_change_nothing lobby) as (_ & _ & _ & _ & Hhost & _).
  destruct (refused_calls_change_nothing table_dealt)
    as (_ & _ & _ & _ & _ & _ & _ & Hany & _ & _ & Hact).
  split; [|split; [|split]].
  - destruct (Hhost "0A1B2C" "2c3d4e5f6071" lobby_room) as (m' & Hrun & -> & _);
      [vm_compute; reflexivity | vm_compute; reflexivity
      | vm_compute; discriminate | exact Hrun].
  - intros e m'. apply (Hany table_dealt_reachable).
  - destruct (Hact "0A1B2C" "1b2c3d4e5f60" "hit" table_dealt_room)
      as (_ & _ & Hturn & _); [vm_compute; reflexivity|].
    apply Hturn; [vm_compute; reflexivity|vm_compute; discriminate..].
  - destruct (Hact "0A1B2C" "2c3d4e5f6071" "double" table_dealt_room)
      as (_ & _ & _ & Hseat); [vm_compute; reflexivity|].
    destruct (Hseat eq_refl) with (seat := PlayerSeat.mk "2c3d4e5f6071" "Bob" false false "")
      as [_ Hlit]; [vm_compute; discriminate|vm_compute; reflexivity
                    |vm_compute; reflexivity|].
    apply Hlit; [reflexivity|vm_compute; discriminate..].
Defined.

(** The action literal is compared after every space is stripped, the ones
    beyond ASCII too: a hit followed by a no-break space is a hit, not an
    invalid action. *)
Lemma player_action_strips_every_space :
  py_strip (py_lower ("Hit" +:+ no_break_space)) = "hit"
  ∧ fst (RoomManager.player_action "0A1B2C" "2c3d4e5f6071"
           ("Hit" +:+ no_break_space) table_dealt) = Ok tt
  ∧ py_strip (no_break_space +:+ " Ann " +:+ no_break_space) = "Ann".
Proof. vm_compute. repeat split. Qed.

(** ** Examples for the further properties *)

Lemma calculate_score_ignores_role_witness :
  ∃ s, Player.calculate_score soft_player = (Ok tt, Player.set_score s soft_player)
       ∧ Player.calculate_score soft_dealer = (Ok tt, Player.set_score s soft_dealer).
Proof.
  destruct (calculate_score_ignores_role soft_player) as (s & Hrun & _ & Hany).
  exists s. split; [exact Hrun|]. apply Hany. reflexivity.
Defined.

Lemma calculate_score_ignores_order_witness :
  Player.score (snd (Player.calculate_score soft_player))
  = Player.score (snd (Player.calculate_score soft_reversed)).
Proof. apply calculate_score_ignores_order. apply perm_swap. Defined.

Lemma calculate_score_bust_witness :
  ∃ s, Player.calculate_score (Player.mk "Ann" busted_hand 0 false "")
       = (Ok tt, Player.set_score s (Player.mk "Ann" busted_hand 0 false ""))
       ∧ s = Reference.non_ace_sum busted_hand + Z.of_nat (Reference.num_aces busted_hand).
Proof.
  destruct (calculate_score_bust (Player.mk "Ann" busted_hand 0 false ""))
    as (s & Hrun & _ & Hiff & Heq).
  exists s. split; [exact Hrun|]. apply Heq, Hiff. vm_compute. reflexivity.
Defined.

Lemma card_names_are_distinct_witness :
  default (Build_Card HEARTS TWO) (last Game.ordered_deck) = Build_Card SPADES ACE.
Proof.
  apply (card_names_are_distinct
           (default (Build_Card HEARTS TWO) (last Game.ordered_deck))
           (Build_Card SPADES ACE)).
  vm_compute. reflexivity.
Defined.

Lemma Game_init_bounds_witness :
  Game.__init__ 9 plain_entropy
  = (Raise (ValueError "Number of players cannot exceed 8"), plain_entropy)
  ∧ ∃ d e', Game.__init__ 2 plain_entropy
            = (Ok (Game.mk 2 [] (Player.__init__ "Dealer" true) d), e')
            ∧ length d = 52%nat.
Proof.
  split.
  - apply (Game_init_bounds 9 plain_entropy). lia.
  - destruct (Game_init_bounds 2 plain_entropy) as (_ & _ & Hok).
    destruct Hok as (d & e' & Hrun & _ & _ & Hlen & _); [lia|].
    exists d, e'. split; [exact Hrun|exact Hlen].
Defined.

Lemma draw_card_behaviour_witness :
  Game.draw_card (busted_duel, plain_entropy)
  = (Ok (Build_Card HEARTS TWO), (Game.set_deck [] busted_duel, plain_entropy))
  ∧ ∃ c rest e', Game.draw_card (no_game, plain_entropy)
                 = (Ok c, (Game.set_deck rest no_game, e'))
                 ∧ length rest = 51%nat.
Proof.
  destruct (draw_card_behaviour busted_duel plain_entropy) as [Hlast _].
  destruct (draw_card_behaviour no_game plain_entropy) as [_ Hempty].
  split; [apply (Hlast [] (Build_Card HEARTS TWO)); reflexivity|].
  destruct Hempty as (c & rest & e' & Hrun & _ & Hlen & _); [reflexivity|].
  exists c, rest, e'. split; [exact Hrun|exact Hlen].
Defined.

Lemma evaluate_winner_index_witness :
  Game.evaluate_winner golden_duel (-1) = Game.evaluate_winner golden_duel (1 + -1)
  ∧ Game.evaluate_winner golden_duel 1 = Raise IndexError.
Proof.
  destruct (evaluate_winner_index golden_duel (-1)) as (Hneg & _).
  destruct (evaluate_winner_index golden_duel 1) as (_ & Hout & _).
  split; [apply Hneg; cbn; lia|apply Hout; cbn; lia].
Defined.

Lemma check_player_bounds_witness :
  Game.check_player (-1) golden_duel
  = (Raise (ValueError "Player index -1 is out of range."), golden_duel)
  ∧ ∃ p tag, Game.players golden_duel !! 0%nat = Some p
             ∧ Game.check_player 0 golden_duel
               = (Ok tt, Game.set_players
                           (<[0%nat := Player.set_result tag p]> (Game.players golden_duel))
                           golden_duel).
Proof.
  destruct (check_player_bounds golden_duel (-1)) as [Hout _].
  destruct (check_player_bounds golden_duel 0) as [_ Hin].
  split; [apply Hout; cbn; lia|].
  destruct Hin as (p & tag & Hp & _ & Hrun); [cbn; lia|].
  exists p, tag. split; [exact Hp|exact Hrun].
Defined.

Lemma reset_game_keeps_results_witness :
  ∃ g' e', Game.reset_game (busted_duel, plain_entropy) = (Ok tt, (g', e'))
           ∧ Game.players g' !! 0%nat = Some (Player.mk "Ann" [] 0 false "won earlier").
Proof.
  destruct (reset_game_keeps_results busted_duel plain_entropy)
    as (g' & e' & Hrun & _ & _ & _ & _ & _ & Hps).
  exists g', e'. split; [exact Hrun|].
  apply (Hps 0%nat (Player.mk "Ann" busted_hand 25 false "won earlier")). reflexivity.
Defined.

Lemma add_players_appends_witness :
  Game.players (Game.add_players golden_duel) !! 0%nat
  = Some (Player.mk "Ann" [Build_Card SPADES ACE; Build_Card DIAMONDS ACE] 21 false "")
  ∧ Game.players (Game.add_players golden_duel) !! (1 + 0)%nat
    = Some (Player.mk "Player 1" [] 0 false "").
Proof.
  destruct (add_players_appends golden_duel) as (_ & Hold & Hnew & _).
  split; [apply Hold; reflexivity|apply (Hnew 0%nat); cbn; lia].
Defined.

Lemma find_player_index_first_witness :
  ∃ seat, Room.seats lobby_room !! 1%nat = Some seat
          ∧ PlayerSeat.player_id seat = "2c3d4e5f6071".
Proof.
  destruct (find_player_index_first lobby_room "2c3d4e5f6071") as (_ & _ & Hat).
  apply (Hat 1%nat). vm_compute. reflexivity.
Defined.

Lemma busted_player_never_wins_witness :
  ∃ tag, Game.evaluate_winner busted_duel (Z.of_nat 0) = Ok tag
         ∧ tag ∈ ["Dealer wins with Golden Blackjack"; "Dealer wins with Blackjack";
                  "Dealer wins with Di Linh"; "Player busted - Dealer wins"].
Proof.
  destruct (busted_player_never_wins busted_duel 0
              (Player.mk "Ann" busted_hand 25 false "won earlier"))
    as (tag & Hrun & Hin & _).
  - reflexivity.
  - vm_compute. reflexivity.
  - vm_compute. reflexivity.
  - exists tag. split; [exact Hrun|exact Hin].
Defined.

Lemma lobby_reachable : reachable lobby.
Proof.
  eapply reachable_join; [|unfold lobby; apply surjective_pairing].
  eapply reachable_create; [apply reachable_init|apply surjective_pairing].
Qed.

Lemma table_done_reachable : reachable table_done.
Proof.
  eapply reachable_action; [apply table_dealt_reachable|].
  unfold table_done. apply surjective_pairing.
Qed.

Lemma started_room_holds_one_deck_witness :
  ∃ g, Room.game table_dealt_room = Some g
       ∧ NoDup (pack g)
       ∧ (7 ≤ length (Game.deck g))%nat.
Proof.
  destruct (started_room_holds_one_deck table_dealt "0A1B2C" table_dealt_room)
    as (g & Hg & _ & _ & _ & Hnd & Hdeck & _).
  - apply table_dealt_reachable.
  - vm_compute. reflexivity.
  - intros H. vm_compute in H. discriminate H.
  - exists g. split; [exact Hg|]. split; [exact Hnd|exact Hdeck].
Defined.

Lemma results_carry_engine_verdicts_witness :
  ∃ g seat, Room.game table_done_room = Some g
            ∧ Room.seats table_done_room !! 1%nat = Some seat
            ∧ Game.evaluate_winner g (Z.of_nat 1) = Ok (PlayerSeat.result seat).
Proof.
  destruct (results_carry_engine_verdicts table_done "0A1B2C" table_done_room)
    as (g & Hg & _ & Hseats).
  - apply table_done_reachable.
  - vm_compute. reflexivity.
  - vm_compute. reflexivity.
  - exists g, (PlayerSeat.mk "2c3d4e5f6071" "Bob" true true "Player wins").
    split; [exact Hg|]. split; [vm_compute; reflexivity|].
    apply (Hseats 1%nat). vm_compute. reflexivity.
Defined.

Lemma host_is_seated_first_witness :
  Room.find_player_index lobby_room (Room.host_id lobby_room) = 0
  ∧ Room.game lobby_room = None.
Proof.
  destruct (host_is_seated_first lobby "0A1B2C" lobby_room)
    as (_ & Hfind & _ & Hw & _).
  - apply lobby_reachable.
  - vm_compute. reflexivity.
  - split; [exact Hfind|]. apply Hw. vm_compute. reflexivity.
Defined.

Lemma hit_takes_top_card_witness :
  ∃ idx p r' g' rest c,
    Game.players table_dealt_game !! idx = Some p
    ∧ RoomManager.rooms table_hit !! "0A1B2C" = Some r'
    ∧ Room.game r' = Some g'
    ∧ Game.deck table_dealt_game = rest ++ [c]
    ∧ hands (Game.players g')
      = <[idx := Player.hand p ++ [c]]> (hands (Game.players table_dealt_game)).
Proof.
  destruct (hit_takes_top_card table_dealt table_hit "0A1B2C" "2c3d4e5f6071" " Hit "
              table_dealt_room table_dealt_game)
    as (idx & p & r' & g' & _ & _ & Hp & Hr' & Hg' & Hhit & _).
  - apply table_dealt_reachable.
  - vm_compute. reflexivity.
  - vm_compute. reflexivity.
  - vm_compute. reflexivity.
  - destruct Hhit as (rest & c & Hdeck & Hhands & _); [vm_compute; reflexivity|].
    exists idx, p, r', g', rest, c.
    split; [exact Hp|]. split; [exact Hr'|]. split; [exact Hg'|].
    split; [exact Hdeck|exact Hhands].
Defined.

Lemma entropy_accounting_witness :
  RoomManager.entropy table_done = RoomManager.entropy table_dealt
  ∧ shuffles_used (RoomManager.entropy table_dealt)
    = S (shuffles_used (RoomManager.entropy lobby)).
Proof.
  destruct (entropy_accounting table_dealt table_dealt_reachable) as (_ & _ & _ & Hact).
  destruct (entropy_accounting lobby lobby_reachable) as (_ & _ & Hstart & _).
  split.
  - apply (Hact "0A1B2C" "2c3d4e5f6071" "stand"
             (fst (RoomManager.player_action "0A1B2C" "2c3d4e5f6071" "stand" table_dealt))).
    unfold table_done. apply surjective_pairing.
  - destruct (Hstart "0A1B2C" "1b2c3d4e5f60" (Ok tt) table_dealt) as [_ Hsh];
      [vm_compute; reflexivity|exact Hsh].
Defined.

Lemma results_are_final_witness :
  RoomManager.rooms
    (snd (RoomManager.start_game "0A1B2C" "1b2c3d4e5f60"
            (snd (RoomManager.join_room "0A1B2C" "Cid" table_done))))
  !! "0A1B2C" = Some table_done_room.
Proof.
  apply (results_are_final table_done).
  - vm_compute. reflexivity.
  - vm_compute. reflexivity.
  - eapply rtc_l; [left; eexists _, _, _; apply surjective_pairing|].
    apply rtc_once. right; left. eexists _, _, _. apply surjective_pairing.
Defined.

Lemma can_act_is_honest_witness :
  ∃ m', RoomManager.player_action "0A1B2C" "2c3d4e5f6071" " Hit " table_dealt = (Ok tt, m').
Proof.
  destruct (can_act_is_honest table_dealt "0A1B2C" "2c3d4e5f6071" table_dealt_reachable)
    as [Hcan _].
  destruct (RoomManager.get_state table_dealt "0A1B2C" (Some "2c3d4e5f6071"))
    as [resp|] eqn:Hget; [|vm_compute in Hget; discriminate Hget].
  apply (Hcan resp " Hit " eq_refl).
  - vm_compute in Hget. injection Hget as <-. reflexivity.
  - vm_compute. constructor.
Defined.

Lemma join_room_accepts_witness :
  ∃ m', RoomManager.join_room "0A1B2C" " Bob " solo_lobby
        = (Ok ("0A1B2C", "2c3d4e5f6071"), m')
        ∧ RoomManager.rooms m' !! "0A1B2C"
          = Some (Room.set_seats
                    (Room.seats solo_room
                     ++ [PlayerSeat.mk "2c3d4e5f6071" "Bob" false false ""]) solo_room).
Proof.
  destruct (join_room_accepts solo_lobby "0A1B2C" " Bob ") as [Hjoin _].
  destruct (Hjoin solo_room) as (m' & Hrun & Hroom & _).
  - vm_compute. reflexivity.
  - vm_compute. reflexivity.
  - vm_compute. reflexivity.
  - exists m'. split; [exact Hrun|exact Hroom].
Defined.

Lemma start_game_accepts_witness :
  ∃ m', RoomManager.start_game "0A1B2C" "1b2c3d4e5f60" lobby = (Ok tt, m').
Proof.
  apply (start_game_accepts lobby "0A1B2C" "1b2c3d4e5f60").
  exists lobby_room.
  split; [vm_compute; reflexivity|]. split; [vm_compute; reflexivity|].
  split; [vm_compute; reflexivity|]. split; vm_compute; lia.
Defined.

Lemma advance_after_wraps_witness :
  ∃ r', RoomManager._advance_after 0 table_dealt_room = (Ok tt, r').
Proof.
  destruct (advance_after_wraps table_dealt_room table_dealt_game 0)
    as [(j & _ & _ & _ & Hrun)|[(_ & j & _ & _ & _ & Hrun)|[_ Hrun]]].
  - split; vm_compute; reflexivity.
  - vm_compute. lia.
  - eexists. exact Hrun.
  - eexists. exact Hrun.
  - eexists. exact Hrun.
Defined.

Lemma lobby_served : served lobby.
Proof.
  apply (served_join
           (snd (RoomManager.create_room "Ann" 2 (RoomManager.__init__ plain_entropy)))
           "0A1B2C" "Bob" (Ok ("0A1B2C", "2c3d4e5f6071")));
    [|vm_compute; reflexivity].
  apply (served_create (RoomManager.__init__ plain_entropy) "Ann" 2
           (Ok ("0A1B2C", "1b2c3d4e5f60")));
    [apply served_init|lia|vm_compute; reflexivity].
Qed.

Lemma served_calls_raise_only_http_witness :
  ∃ m', RoomManager.start_game "0A1B2C" (Room.host_id lobby_room) lobby = (Ok tt, m').
Proof.
  destruct (served_calls_raise_only_http lobby lobby_served) as (Hrooms & _).
  destruct (Hrooms "0A1B2C" lobby_room) as [_ Hstart]; [vm_compute; reflexivity|].
  apply Hstart. vm_compute. reflexivity.
Defined.
